(** * Timonel: TWI bootloader for TinyX5 MCUs -- a shallow embedding

    The development embeds [timonel-bootloader/timonel.c] (the bootloader with
    its built-in interrupt-free USI TWI driver) and the ring accessors and
    overflow handler of the stand-alone driver [nb-usitwisl-if3.h], and proves
    properties of the command handlers, of the byte rings, of the address
    filter and of the deferred flash operations of the main loop.

    Integers are modelled as [Z] with the C wrap-around written out:
    [uint8_t] values are reduced with [wrap8], [uint16_t] values with
    [wrap16] ([int] is 16 bits wide on the AVR target).  The build-time
    constants of [timonel.h], [tml-config.h] and [nb-twi-cmd.h] are the fields
    of a [Config] record. *)

From Stdlib Require Import ZArith List Bool Lia.
Import ListNotations.
Open Scope Z_scope.

(** ** Machine integers and arrays *)

Definition wrap8 (x : Z) : Z := x mod 256.
Definition wrap16 (x : Z) : Z := x mod 65536.

Definition is_byte (x : Z) : Prop := 0 <= x < 256.

(** [a[i]] for a C array held as a list. *)
Definition aget (a : list Z) (i : Z) : Z := nth (Z.to_nat i) a 0.

(** [a[i] = v] for an index inside the array. *)
Fixpoint upd_nat (a : list Z) (i : nat) (v : Z) : list Z :=
  match a, i with
  | [], _ => []
  | _ :: t, O => v :: t
  | x :: t, S j => x :: upd_nat t j v
  end.

Definition aset (a : list Z) (i : Z) (v : Z) : list Z := upd_nat a (Z.to_nat i) v.

(** Bit [n] of [x], as [(x >> n) & true] reads it. *)
Definition bit_of (x n : Z) : bool := Z.testbit x n.

(** 8-bit additive checksum of a byte sequence. *)
Definition sum8 (l : list Z) : Z := wrap8 (fold_right Z.add 0 l).

(** ** Build-time configuration *)

Record Config := mkConfig {
  TWI_ADDR_SET : Z;            (* TWI_ADDR as given to the build *)
  TIMONEL_START : Z;
  SPM_PAGESIZE : Z;
  RESET_PAGE : Z;
  MST_PACKET_SIZE : Z;
  TWI_RX_BUFFER_SIZE : Z;
  TWI_TX_BUFFER_SIZE : Z;
  (* feature toggles *)
  AUTO_PAGE_ADDR : bool;
  CMD_SETPGADDR : bool;
  CMD_READFLASH : bool;
  TWO_STEP_INIT : bool;
  APP_USE_TPL_PG : bool;
  CHECK_PAGE_IX : bool;
  FORCE_ERASE_PG : bool;
  TIMEOUT_EXIT : bool;
  (* bit positions inside MemPack.flags *)
  FL_INIT_1 : Z;
  FL_INIT_2 : Z;
  FL_DEL_FLASH : Z;
  FL_EXIT_TML : Z;
  (* command opcodes and their acknowledge codes *)
  GETTMNLV : Z; ACKTMNLV : Z;
  EXITTMNL : Z; ACKEXITT : Z;
  DELFLASH : Z; ACKDELFL : Z;
  STPGADDR : Z; AKPGADDR : Z;
  WRITPAGE : Z; ACKWTPAG : Z;
  READFLSH : Z; ACKRDFSH : Z;
  INITSOFT : Z; ACKINITS : Z;
  ID_CHAR_3 : Z;
  TML_FEATURES : Z;
  TML_EXT_FEATURES : Z;
  SHORT_EXIT_DLY : Z;
  SHORT_LED_DLY : Z;
  (* clock settings *)
  AUTO_CLK_TWEAK : bool;
  LOW_FUSE : Z;
  RCOSC_CLK_SRC : Z;
  OSC_FAST : Z
}.

(** [timonel.c] replaces an address outside 8..35 by the default 11. *)
Definition TWI_ADDR (cfg : Config) : Z :=
  if (TWI_ADDR_SET cfg <? 8) || (TWI_ADDR_SET cfg >? 35) then 11 else TWI_ADDR_SET cfg.

Definition TWI_RX_BUFFER_MASK (cfg : Config) : Z := TWI_RX_BUFFER_SIZE cfg - 1.
Definition TWI_TX_BUFFER_MASK (cfg : Config) : Z := TWI_TX_BUFFER_SIZE cfg - 1.

Definition TIMONEL_VER_MJR : Z := 1.
Definition TIMONEL_VER_MNR : Z := 4.

(** Modelled from the spec: the reply lengths [GETTMNLV_RPLYLN],
    [STPGADDR_RPLYLN] and [WRITPAGE_RPLYLN] of the missing [nb-twi-cmd.h];
    the opcode table gives 12, 2 and 2 bytes. *)
Definition GETTMNLV_RPLYLN : Z := 12.
Definition STPGADDR_RPLYLN : Z := 2.
Definition WRITPAGE_RPLYLN : Z := 2.

(** Bit numbers of the USI registers and port B pins of the ATtiny25/45/85
    (device header of avr-libc). *)
Definition USISIE : Z := 7.
Definition USIOIE : Z := 6.
Definition USIWM1 : Z := 5.
Definition USIWM0 : Z := 4.
Definition USICS1 : Z := 3.
Definition USICS0 : Z := 2.
Definition USICLK : Z := 1.
Definition USITC : Z := 0.
Definition USISIF : Z := 7.
Definition USIOIF : Z := 6.
Definition USIPF : Z := 5.
Definition USIDC : Z := 4.
Definition USICNT0 : Z := 0.
Definition PB0 : Z := 0.
Definition PB2 : Z := 2.

Definition PORT_USI_SDA : Z := PB0.
Definition PORT_USI_SCL : Z := PB2.
Definition PIN_USI_SDA : Z := PB0.
Definition TWI_START_COND_FLAG : Z := USISIF.
Definition USI_OVERFLOW_FLAG : Z := USIOIF.
Definition TWI_STOP_COND_FLAG : Z := USIPF.
Definition TWI_COLLISION_FLAG : Z := USIDC.
Definition TWI_START_COND_INT : Z := USISIE.
Definition USI_OVERFLOW_INT : Z := USIOIE.

(** ** Program state *)

Inductive OverflowState :=
| STATE_CHECK_RECEIVED_ADDRESS
| STATE_SEND_DATA_BYTE
| STATE_RECEIVE_ACK_AFTER_SENDING_DATA
| STATE_CHECK_RECEIVED_ACK
| STATE_RECEIVE_DATA_BYTE
| STATE_PUT_BYTE_IN_RX_BUFFER_AND_SEND_ACK.

Record MemPack := mkMemPack {
  page_addr : Z;
  page_ix : Z;
  flags : Z;
  app_reset_lsb : Z;
  app_reset_msb : Z
}.

(** The globals of the USI TWI driver, and the static [command] frame of
    [UsiOverflowHandler]. *)
Record Twi := mkTwi {
  rx_buffer : list Z;
  tx_buffer : list Z;
  rx_byte_count : Z;
  rx_head : Z;
  rx_tail : Z;
  tx_head : Z;
  tx_tail : Z;
  device_state : OverflowState;
  command : list Z
}.

(** The I/O registers the driver writes. *)
Record Usi := mkUsi {
  USIDR : Z;
  USISR : Z;
  USICR : Z;
  DDR_USI : Z;
  PORT_USI : Z
}.

(** What the flash mock and the main loop record. *)
Inductive Event :=
| SpmErase (addr : Z)               (* boot_page_erase(addr) *)
| SpmFill (addr : Z) (data : Z)     (* boot_page_fill(addr, data) *)
| SpmWrite (addr : Z)               (* boot_page_write(addr) *)
| SpmClearBuffer                    (* CTPB: clear the temporary page buffer *)
| OverflowEnter                     (* main calls UsiOverflowHandler *)
| OverflowReturn (r : bool)         (* ... and stores its result in slow_ops_enabled *)
| SlowOpsTaken                      (* main resets slow_ops_enabled to run a slow op *)
| JumpRunApplication
| JumpRestartTimonel.

Record World := mkWorld {
  twi : Twi;
  usi : Usi;
  mem_pack : MemPack;
  pgm : Z -> Z;                     (* program memory, as read through __flash *)
  low_fuse : Z;                     (* boot_lock_fuse_bits_get(0) *)
  OSCCAL : Z;
  factory_osccal : Z;               (* main's local copy of OSCCAL *)
  events : list Event
}.

(** Field updates. *)
Definition set_rx_buffer v t := mkTwi v (tx_buffer t) (rx_byte_count t) (rx_head t) (rx_tail t) (tx_head t) (tx_tail t) (device_state t) (command t).
Definition set_tx_buffer v t := mkTwi (rx_buffer t) v (rx_byte_count t) (rx_head t) (rx_tail t) (tx_head t) (tx_tail t) (device_state t) (command t).
Definition set_rx_byte_count v t := mkTwi (rx_buffer t) (tx_buffer t) v (rx_head t) (rx_tail t) (tx_head t) (tx_tail t) (device_state t) (command t).
Definition set_rx_head v t := mkTwi (rx_buffer t) (tx_buffer t) (rx_byte_count t) v (rx_tail t) (tx_head t) (tx_tail t) (device_state t) (command t).
Definition set_rx_tail v t := mkTwi (rx_buffer t) (tx_buffer t) (rx_byte_count t) (rx_head t) v (tx_head t) (tx_tail t) (device_state t) (command t).
Definition set_tx_head v t := mkTwi (rx_buffer t) (tx_buffer t) (rx_byte_count t) (rx_head t) (rx_tail t) v (tx_tail t) (device_state t) (command t).
Definition set_tx_tail v t := mkTwi (rx_buffer t) (tx_buffer t) (rx_byte_count t) (rx_head t) (rx_tail t) (tx_head t) v (device_state t) (command t).
Definition set_device_state v t := mkTwi (rx_buffer t) (tx_buffer t) (rx_byte_count t) (rx_head t) (rx_tail t) (tx_head t) (tx_tail t) v (command t).
Definition set_command v t := mkTwi (rx_buffer t) (tx_buffer t) (rx_byte_count t) (rx_head t) (rx_tail t) (tx_head t) (tx_tail t) (device_state t) v.

Definition set_USIDR v u := mkUsi v (USISR u) (USICR u) (DDR_USI u) (PORT_USI u).
Definition set_USISR v u := mkUsi (USIDR u) v (USICR u) (DDR_USI u) (PORT_USI u).
Definition set_USICR v u := mkUsi (USIDR u) (USISR u) v (DDR_USI u) (PORT_USI u).
Definition set_DDR_USI v u := mkUsi (USIDR u) (USISR u) (USICR u) v (PORT_USI u).
Definition set_PORT_USI v u := mkUsi (USIDR u) (USISR u) (USICR u) (DDR_USI u) v.

Definition set_page_addr v m := mkMemPack v (page_ix m) (flags m) (app_reset_lsb m) (app_reset_msb m).
Definition set_page_ix v m := mkMemPack (page_addr m) v (flags m) (app_reset_lsb m) (app_reset_msb m).
Definition set_flags v m := mkMemPack (page_addr m) (page_ix m) v (app_reset_lsb m) (app_reset_msb m).
Definition set_app_reset_lsb v m := mkMemPack (page_addr m) (page_ix m) (flags m) v (app_reset_msb m).
Definition set_app_reset_msb v m := mkMemPack (page_addr m) (page_ix m) (flags m) (app_reset_lsb m) v.

Definition with_twi (f : Twi -> Twi) (w : World) : World :=
  mkWorld (f (twi w)) (usi w) (mem_pack w) (pgm w) (low_fuse w) (OSCCAL w) (factory_osccal w) (events w).
Definition with_usi (f : Usi -> Usi) (w : World) : World :=
  mkWorld (twi w) (f (usi w)) (mem_pack w) (pgm w) (low_fuse w) (OSCCAL w) (factory_osccal w) (events w).
Definition with_mem_pack (f : MemPack -> MemPack) (w : World) : World :=
  mkWorld (twi w) (usi w) (f (mem_pack w)) (pgm w) (low_fuse w) (OSCCAL w) (factory_osccal w) (events w).
Definition with_OSCCAL (v : Z) (w : World) : World :=
  mkWorld (twi w) (usi w) (mem_pack w) (pgm w) (low_fuse w) v (factory_osccal w) (events w).
Definition with_factory_osccal (v : Z) (w : World) : World :=
  mkWorld (twi w) (usi w) (mem_pack w) (pgm w) (low_fuse w) (OSCCAL w) v (events w).
Definition emit (e : Event) (w : World) : World :=
  mkWorld (twi w) (usi w) (mem_pack w) (pgm w) (low_fuse w) (OSCCAL w) (factory_osccal w) (events w ++ [e]).

(** ** Outcomes of a call

    A call returns ([Done]), never leaves a busy-wait ([Spin]), or indexes an
    array out of its bounds ([Fault]).  The world reached so far is kept in
    every case, so that what a call did up to there is still visible.  What
    the machine does after an access outside an array depends on what the
    linker and the stack put next to the array, which the source does not
    fix: the embedding follows a call no further than its first such access
    and says nothing of what comes after it. *)

Inductive Result (A : Type) :=
| Done (a : A) (w : World)
| Spin (w : World)
| Fault (w : World).
Arguments Done {A} a w.
Arguments Spin {A} w.
Arguments Fault {A} w.

Definition M (A : Type) : Type := World -> Result A.

Definition ret {A} (a : A) : M A := fun w => Done a w.

Definition bind {A B} (m : M A) (k : A -> M B) : M B :=
  fun w => match m w with
           | Done a w' => k a w'
           | Spin w' => Spin w'
           | Fault w' => Fault w'
           end.

Definition act (f : World -> World) : M unit := fun w => Done tt (f w).

Declare Scope tml_scope.
Delimit Scope tml_scope with tml.
Notation "x <- m ;; k" := (bind m (fun x => k))
  (at level 61, m at next level, right associativity) : tml_scope.
Notation "m ;; k" := (bind m (fun _ => k))
  (at level 61, right associativity) : tml_scope.
Open Scope tml_scope.

Definition world_of {A} (r : Result A) : World :=
  match r with
  | Done _ w => w
  | Spin w => w
  | Fault w => w
  end.

(** The three SPM primitives, recorded by the flash mock. *)
Definition boot_page_erase (addr : Z) : M unit := act (emit (SpmErase (wrap16 addr))).
Definition boot_page_fill (addr data : Z) : M unit := act (emit (SpmFill (wrap16 addr) (wrap16 data))).
Definition boot_page_write (addr : Z) : M unit := act (emit (SpmWrite (wrap16 addr))).

(** ** The USI TWI driver of [timonel.c] *)

(** A store to USISR: the flags USISIF, USIOIF and USIPF are cleared by
    writing a one to them, USIDC is read-only, and the low nibble loads the
    4-bit counter (ATtiny25/45/85 data sheet, register USISR). *)
Definition store_USISR (v old : Z) : Z :=
  Z.lor (Z.land old (Z.land (Z.lnot v) 0xE0))
        (Z.lor (Z.land old 0x10) (Z.land v 0x0F)).

Definition write_USISR (v : Z) : M unit :=
  act (with_usi (fun u => set_USISR (store_USISR v (USISR u)) u)).
Definition write_USICR (v : Z) : M unit := act (with_usi (set_USICR (wrap8 v))).
Definition write_USIDR (v : Z) : M unit := act (with_usi (set_USIDR (wrap8 v))).

(** GPIO TWI direction settings. *)
Definition SET_USI_SDA_AS_OUTPUT : M unit :=
  act (with_usi (fun u => set_DDR_USI (wrap8 (Z.lor (DDR_USI u) (Z.shiftl 1 PORT_USI_SDA))) u)).
Definition SET_USI_SDA_AS_INPUT : M unit :=
  act (with_usi (fun u => set_DDR_USI (wrap8 (Z.land (DDR_USI u) (Z.lnot (Z.shiftl 1 PORT_USI_SDA)))) u)).
Definition SET_USI_SCL_AS_OUTPUT : M unit :=
  act (with_usi (fun u => set_DDR_USI (wrap8 (Z.lor (DDR_USI u) (Z.shiftl 1 PORT_USI_SCL))) u)).
Definition SET_USI_SCL_AS_INPUT : M unit :=
  act (with_usi (fun u => set_DDR_USI (wrap8 (Z.land (DDR_USI u) (Z.lnot (Z.shiftl 1 PORT_USI_SCL)))) u)).
Definition SET_USI_SDA_AND_SCL_AS_OUTPUT : M unit :=
  act (with_usi (fun u => set_DDR_USI
    (wrap8 (Z.lor (DDR_USI u) (Z.lor (Z.shiftl 1 PORT_USI_SDA) (Z.shiftl 1 PORT_USI_SCL)))) u)).
Definition SET_USI_SDA_AND_SCL_AS_INPUT : M unit :=
  act (with_usi (fun u => set_DDR_USI
    (wrap8 (Z.land (DDR_USI u) (Z.lnot (Z.lor (Z.shiftl 1 PORT_USI_SDA) (Z.shiftl 1 PORT_USI_SCL))))) u)).

(** USI register configurations. *)
Definition USICR_DETECT_TWI_START : Z :=
  Z.lor (Z.shiftl 1 TWI_START_COND_INT) (Z.lor (Z.shiftl 0 USI_OVERFLOW_INT)
  (Z.lor (Z.shiftl 1 USIWM1) (Z.lor (Z.shiftl 0 USIWM0)
  (Z.lor (Z.shiftl 1 USICS1) (Z.lor (Z.shiftl 0 USICS0) (Z.lor (Z.shiftl 0 USICLK)
  (Z.shiftl 0 USITC))))))).
Definition USICR_DETECT_TWI_RESTART : Z :=
  Z.lor (Z.shiftl 1 TWI_START_COND_INT) (Z.lor (Z.shiftl 1 USI_OVERFLOW_INT)
  (Z.lor (Z.shiftl 1 USIWM1) (Z.lor (Z.shiftl 1 USIWM0)
  (Z.lor (Z.shiftl 1 USICS1) (Z.lor (Z.shiftl 0 USICS0) (Z.lor (Z.shiftl 0 USICLK)
  (Z.shiftl 0 USITC))))))).
Definition USISR_SHIFT_8_ADDRESS_BITS : Z :=
  Z.lor (Z.shiftl 1 TWI_START_COND_FLAG) (Z.lor (Z.shiftl 1 USI_OVERFLOW_FLAG)
  (Z.lor (Z.shiftl 1 TWI_STOP_COND_FLAG) (Z.lor (Z.shiftl 1 TWI_COLLISION_FLAG)
  (Z.shiftl 0x0 USICNT0)))).
Definition USISR_SHIFT_8_DATA_BITS : Z :=
  Z.lor (Z.shiftl 0 TWI_START_COND_FLAG) (Z.lor (Z.shiftl 1 USI_OVERFLOW_FLAG)
  (Z.lor (Z.shiftl 1 TWI_STOP_COND_FLAG) (Z.lor (Z.shiftl 1 TWI_COLLISION_FLAG)
  (Z.shiftl 0x0 USICNT0)))).
Definition USISR_SHIFT_1_ACK_BIT : Z :=
  Z.lor (Z.shiftl 0 TWI_START_COND_FLAG) (Z.lor (Z.shiftl 1 USI_OVERFLOW_FLAG)
  (Z.lor (Z.shiftl 1 TWI_STOP_COND_FLAG) (Z.lor (Z.shiftl 1 TWI_COLLISION_FLAG)
  (Z.shiftl 0x0E USICNT0)))).

Definition SET_USI_TO_DETECT_TWI_START : M unit := write_USICR USICR_DETECT_TWI_START.
Definition SET_USI_TO_DETECT_TWI_RESTART : M unit := write_USICR USICR_DETECT_TWI_RESTART.
Definition SET_USI_TO_SHIFT_8_ADDRESS_BITS : M unit := write_USISR USISR_SHIFT_8_ADDRESS_BITS.
Definition SET_USI_TO_SHIFT_8_DATA_BITS : M unit := write_USISR USISR_SHIFT_8_DATA_BITS.
Definition SET_USI_TO_SHIFT_1_ACK_BIT : M unit := write_USISR USISR_SHIFT_1_ACK_BIT.

(** USI TWI basic operations. *)
Definition SET_USI_TO_WAIT_FOR_TWI_ADDRESS : M unit :=
  SET_USI_TO_DETECT_TWI_START ;; SET_USI_TO_SHIFT_8_DATA_BITS.
Definition SET_USI_TO_SEND_BYTE : M unit :=
  SET_USI_SDA_AS_OUTPUT ;; SET_USI_TO_SHIFT_8_DATA_BITS.
Definition SET_USI_TO_RECEIVE_BYTE : M unit :=
  SET_USI_SDA_AS_INPUT ;; SET_USI_TO_SHIFT_8_DATA_BITS.
Definition SET_USI_TO_SEND_ACK : M unit :=
  write_USIDR 0 ;; SET_USI_SDA_AS_OUTPUT ;; SET_USI_TO_SHIFT_1_ACK_BIT.
Definition SET_USI_TO_RECEIVE_ACK : M unit :=
  write_USIDR 0 ;; SET_USI_SDA_AS_INPUT ;; SET_USI_TO_SHIFT_1_ACK_BIT.

Definition set_state (s : OverflowState) : M unit := act (with_twi (set_device_state s)).

Section Bootloader.

Variable cfg : Config.

(** [UsiTwiTransmitByte]: the head index is advanced first; the busy-wait
    [while (tx_head == tx_tail) {}] has an empty body and nothing else runs
    while it spins (interrupts are disabled, the engine is polled from the
    main loop), so it is left at once or never. *)
Definition UsiTwiTransmitByte (data_byte : Z) : M unit := fun w =>
  let h := wrap8 (Z.land (tx_head (twi w) + 1) (TWI_TX_BUFFER_MASK cfg)) in
  let w1 := with_twi (set_tx_head h) w in
  if h =? tx_tail (twi w1) then Spin w1
  else Done tt (with_twi (fun t => set_tx_buffer (aset (tx_buffer t) h (wrap8 data_byte)) t) w1).

(** [for (i = 0; i < len; i++) UsiTwiTransmitByte(reply[i]);] *)
Fixpoint transmit_reply (reply : list Z) : M unit :=
  match reply with
  | [] => ret tt
  | b :: rest => UsiTwiTransmitByte b ;; transmit_reply rest
  end.

(** The TX side of the engine (state [STATE_SEND_DATA_BYTE]): the next byte
    of the ring, when there is one. *)
Definition tx_pop (t : Twi) : option (Z * Twi) :=
  if negb (tx_head t =? tx_tail t) then
    let tl := wrap8 (Z.land (tx_tail t + 1) (TWI_TX_BUFFER_MASK cfg)) in
    Some (aget (tx_buffer t) tl, set_tx_tail tl t)
  else None.

(** The RX side of the engine (state
    [STATE_PUT_BYTE_IN_RX_BUFFER_AND_SEND_ACK]). *)
Definition rx_push (b : Z) (t : Twi) : Twi :=
  let t1 := set_rx_byte_count (wrap8 (rx_byte_count t + 1)) t in
  let h := wrap8 (Z.land (rx_head t1 + 1) (TWI_RX_BUFFER_MASK cfg)) in
  let t2 := set_rx_head h t1 in
  set_rx_buffer (aset (rx_buffer t2) h b) t2.

(** [while (rx_byte_count-- == 0) {};]: every test decrements the counter;
    a zero counter wraps to 255 and the second test leaves the loop. *)
Definition rx_wait (t : Twi) : Twi :=
  if rx_byte_count t =? 0
  then set_rx_byte_count (wrap8 (wrap8 (rx_byte_count t - 1) - 1)) t
  else set_rx_byte_count (wrap8 (rx_byte_count t - 1)) t.

(** One round of the dispatcher's drain loop: [command[i] = rx_buffer[rx_tail]]
    after the tail is advanced.  [command] has [MST_PACKET_SIZE * 2] slots and
    the loop runs up to [command_size], which no test bounds by that size: a
    store past the last slot lands in whatever the linker placed behind the
    static array, and the call is not followed further. *)
Definition rx_drain_step (i : Z) : M unit := fun w =>
  let t1 := rx_wait (twi w) in
  let tl := wrap8 (Z.land (rx_tail t1 + 1) (TWI_RX_BUFFER_MASK cfg)) in
  let t2 := set_rx_tail tl t1 in
  if i <? Z.of_nat (length (command t2))
  then Done tt (with_twi (fun _ => set_command (aset (command t2) i (aget (rx_buffer t2) tl)) t2) w)
  else Fault (with_twi (fun _ => t2) w).

(** [for (uint8_t i = 0; i < command_size; i++) ...], [n] rounds from [i]. *)
Fixpoint rx_drain (n : nat) (i : Z) : M unit :=
  match n with
  | O => ret tt
  | S n' => rx_drain_step i ;; rx_drain n' (i + 1)
  end.

(** ** Command handlers *)

Definition set_flag (n : Z) : M unit :=
  act (with_mem_pack (fun m => set_flags (wrap8 (Z.lor (flags m) (Z.shiftl 1 n))) m)).

Definition Reply_GETTMNLV (cmd : list Z) : M unit := fun w =>
  let mem_position := TIMONEL_START cfg - 1 in
  let reply :=
    [ wrap8 (ACKTMNLV cfg); wrap8 (ID_CHAR_3 cfg); wrap8 TIMONEL_VER_MJR; wrap8 TIMONEL_VER_MNR;
      wrap8 (TML_FEATURES cfg); wrap8 (TML_EXT_FEATURES cfg);
      wrap8 (Z.shiftr (Z.land (TIMONEL_START cfg) 0xFF00) 8);
      wrap8 (Z.land (TIMONEL_START cfg) 0xFF);
      wrap8 (pgm w mem_position); wrap8 (pgm w (mem_position - 1));
      wrap8 (low_fuse w); wrap8 (OSCCAL w) ] in
  (set_flag (FL_INIT_1 cfg) ;; transmit_reply reply) w.

Definition Reply_EXITTMNL (cmd : list Z) : M unit :=
  UsiTwiTransmitByte (ACKEXITT cfg) ;; set_flag (FL_EXIT_TML cfg).

Definition Reply_DELFLASH (cmd : list Z) : M unit :=
  UsiTwiTransmitByte (ACKDELFL cfg) ;; set_flag (FL_DEL_FLASH cfg).

Definition Reply_STPGADDR (cmd : list Z) : M unit :=
  act (with_mem_pack (set_page_addr (wrap16 (Z.shiftl (aget cmd 1) 8 + aget cmd 2)))) ;;
  act (with_mem_pack (fun m =>
         set_page_addr (wrap16 (Z.land (page_addr m) (Z.lnot (SPM_PAGESIZE cfg - 1)))) m)) ;;
  transmit_reply [ wrap8 (AKPGADDR cfg); wrap8 (aget cmd 1 + aget cmd 2) ].

(** The body of the two fill loops of [Reply_WRITPAGE]: one 16-bit word, low
    byte first, goes to the temporary page buffer; the checksum accumulator
    [reply[1]] is threaded through. *)
Definition writpage_fill_word (cmd : list Z) (i : Z) (chk : Z) : M Z :=
  m <- (fun w => Done (mem_pack w) w) ;;
  boot_page_fill (page_addr m + page_ix m) (Z.lor (Z.shiftl (aget cmd (i + 1)) 8) (aget cmd i)) ;;
  act (with_mem_pack (fun m => set_page_ix (wrap8 (page_ix m + 2)) m)) ;;
  ret (wrap8 (chk + wrap8 (aget cmd (i + 1) + aget cmd i))).

(** [for (uint8_t i = i0; i < (MST_PACKET_SIZE + 1); i += 2) ...].  The index
    is a [uint8_t]: a loop that has not ended after 256 rounds has met the
    same index twice and never ends. *)
Fixpoint writpage_fill_loop (fuel : nat) (cmd : list Z) (i : Z) (chk : Z) : M Z :=
  match fuel with
  | O => fun w => Spin w
  | S fuel' =>
      if i <? MST_PACKET_SIZE cfg + 1
      then chk' <- writpage_fill_word cmd i chk ;;
           writpage_fill_loop fuel' cmd (wrap8 (i + 2)) chk'
      else ret chk
  end.

(** [Reply_WRITPAGE] up to its transmit loop; the result is [reply[]]. *)
Definition Reply_WRITPAGE_frame (cmd : list Z) : M (list Z) :=
  m <- (fun w => Done (mem_pack w) w) ;;
  chk <- (if wrap16 (page_addr m + page_ix m) =? RESET_PAGE cfg
          then
            (if AUTO_PAGE_ADDR cfg
             then act (with_mem_pack (set_app_reset_lsb (aget cmd 1))) ;;
                  act (with_mem_pack (set_app_reset_msb (aget cmd 2)))
             else ret tt) ;;
            boot_page_fill (RESET_PAGE cfg) (0xC000 + (TIMONEL_START cfg / 2 - 1)) ;;
            act (with_mem_pack (fun m => set_page_ix (wrap8 (page_ix m + 2)) m)) ;;
            writpage_fill_loop 256 cmd 3 (wrap8 (0 + wrap8 (aget cmd 2 + aget cmd 1)))
          else
            writpage_fill_loop 256 cmd 1 0) ;;
  m' <- (fun w => Done (mem_pack w) w) ;;
  if negb (chk =? aget cmd (MST_PACKET_SIZE cfg + 1))
     || (CHECK_PAGE_IX cfg && (page_ix m' >? SPM_PAGESIZE cfg))
  then set_flag (FL_DEL_FLASH cfg) ;; ret [ wrap8 (ACKWTPAG cfg); 0 ]
  else ret [ wrap8 (ACKWTPAG cfg); chk ].

Definition Reply_WRITPAGE (cmd : list Z) : M unit :=
  reply <- Reply_WRITPAGE_frame cmd ;; transmit_reply reply.

(** [reply[i] = v] for the variable-length array [reply] of
    [Reply_READFLSH]: a store at an index outside the array leaves its
    bounds. *)
Definition reply_store (reply : list Z) (i v : Z) : M (list Z) := fun w =>
  if (0 <=? i) && (i <? Z.of_nat (length reply))
  then Done (aset reply i v) w
  else Fault w.

(** [for (uint8_t i = 1; i < command[3] + 1; i++) { reply[i] =
    *(mem_position++) & 0xFF; reply[reply_len - 1] += reply[i]; }].  The
    index is a [uint8_t] and the bound is computed in [int]: a loop that has
    not ended after 256 tests has met the same index twice and never ends. *)
Fixpoint readflsh_fill_loop (fuel : nat) (cmd : list Z) (reply_len : Z)
    (reply : list Z) (i mem_position : Z) : M (list Z) :=
  match fuel with
  | O => fun w => Spin w
  | S fuel' =>
      if i <? aget cmd 3 + 1
      then fun w =>
        (r1 <- reply_store reply i (Z.land (pgm w mem_position) 0xFF) ;;
         r2 <- reply_store r1 (reply_len - 1)
                 (wrap8 (aget r1 (reply_len - 1) + aget r1 i)) ;;
         readflsh_fill_loop fuel' cmd reply_len r2 (wrap8 (i + 1)) (mem_position + 1)) w
      else ret reply
  end.

(** [Reply_READFLSH] up to its transmit loop; the result is [reply[]].
    [reply_len] is a [uint8_t]: [command[3] + 2] wraps at 256.  The array is
    not initialized; when no store leaves it, every element has been stored
    before the transmit loop reads it, so the zeros it starts with here are
    never seen. *)
Definition Reply_READFLSH_frame (cmd : list Z) : M (list Z) :=
  let reply_len := wrap8 (aget cmd 3 + 2) in
  r0 <- reply_store (repeat 0 (Z.to_nat reply_len)) 0 (wrap8 (ACKRDFSH cfg)) ;;
  r1 <- reply_store r0 (reply_len - 1) 0 ;;
  r2 <- readflsh_fill_loop 256 cmd reply_len r1 1 (Z.shiftl (aget cmd 1) 8 + aget cmd 2) ;;
  r3 <- reply_store r2 (reply_len - 1) (wrap8 (aget r2 (reply_len - 1) + wrap8 (aget cmd 1))) ;;
  reply_store r3 (reply_len - 1) (wrap8 (aget r3 (reply_len - 1) + wrap8 (aget cmd 2))).

Definition Reply_READFLSH (cmd : list Z) : M unit :=
  reply <- Reply_READFLSH_frame cmd ;; transmit_reply reply.

Definition Reply_INITSOFT (cmd : list Z) : M unit :=
  set_flag (FL_INIT_2 cfg) ;; UsiTwiTransmitByte (ACKINITS cfg).

(** [ReceiveEvent]: the [switch] on [command[0]]; an opcode that matches no
    compiled-in case falls out of the switch. *)
Definition ReceiveEvent (cmd : list Z) (command_size : Z) : M unit :=
  let op := aget cmd 0 in
  if op =? GETTMNLV cfg then Reply_GETTMNLV cmd
  else if op =? EXITTMNL cfg then Reply_EXITTMNL cmd
  else if op =? DELFLASH cfg then Reply_DELFLASH cmd
  else if (CMD_SETPGADDR cfg || negb (AUTO_PAGE_ADDR cfg)) && (op =? STPGADDR cfg) then Reply_STPGADDR cmd
  else if op =? WRITPAGE cfg then Reply_WRITPAGE cmd
  else if CMD_READFLASH cfg && (op =? READFLSH cfg) then Reply_READFLSH cmd
  else if TWO_STEP_INIT cfg && (op =? INITSOFT cfg) then Reply_INITSOFT cmd
  else ret tt.

(** ** The overflow handler *)

(** The shared tail of [STATE_CHECK_RECEIVED_ACK] (after an ACK) and
    [STATE_SEND_DATA_BYTE]. *)
Definition send_data_byte : M bool := fun w =>
  match tx_pop (twi w) with
  | Some (b, t') =>
      (write_USIDR b ;;
       set_state STATE_RECEIVE_ACK_AFTER_SENDING_DATA ;;
       SET_USI_TO_SEND_BYTE ;;
       ret false) (with_twi (fun _ => t') w)
  | None =>
      (SET_USI_TO_RECEIVE_ACK ;; SET_USI_TO_WAIT_FOR_TWI_ADDRESS ;; ret false) w
  end.

Definition UsiOverflowHandler : M bool := fun w =>
  match device_state (twi w) with
  | STATE_CHECK_RECEIVED_ADDRESS =>
      if (USIDR (usi w) =? 0) || (Z.shiftr (USIDR (usi w)) 1 =? TWI_ADDR cfg) then
        ((if negb (Z.land (USIDR (usi w)) 0x01 =? 0) then
            let command_size := rx_byte_count (twi w) in
            rx_drain (Z.to_nat command_size) 0 ;;
            cmd <- (fun w' => Done (command (twi w')) w') ;;
            ReceiveEvent cmd command_size ;;
            set_state STATE_SEND_DATA_BYTE
          else
            set_state STATE_RECEIVE_DATA_BYTE) ;;
         SET_USI_TO_SEND_ACK ;;
         ret false) w
      else
        (SET_USI_TO_WAIT_FOR_TWI_ADDRESS ;; ret false) w
  | STATE_CHECK_RECEIVED_ACK =>
      if negb (USIDR (usi w) =? 0) then
        (SET_USI_TO_WAIT_FOR_TWI_ADDRESS ;; ret true) w
      else send_data_byte w
  | STATE_SEND_DATA_BYTE => send_data_byte w
  | STATE_RECEIVE_ACK_AFTER_SENDING_DATA =>
      (set_state STATE_CHECK_RECEIVED_ACK ;; SET_USI_TO_RECEIVE_ACK ;; ret false) w
  | STATE_RECEIVE_DATA_BYTE =>
      (set_state STATE_PUT_BYTE_IN_RX_BUFFER_AND_SEND_ACK ;; SET_USI_TO_RECEIVE_BYTE ;; ret false) w
  | STATE_PUT_BYTE_IN_RX_BUFFER_AND_SEND_ACK =>
      (act (fun w' => with_twi (rx_push (USIDR (usi w'))) w') ;;
       set_state STATE_RECEIVE_DATA_BYTE ;;
       SET_USI_TO_SEND_ACK ;;
       ret false) w
  end.

(** The busy-wait of the start handlers,
    [while ((PIN_USI & (1 << PORT_USI_SCL)) && !(PIN_USI & (1 << PORT_USI_SDA))) {}].
    PIN_USI is volatile and the bus decides what it reads: every test of the
    loop reads it for SCL and, when SCL was high, a second time for SDA.
    [reads] are the values of the successive reads and [pin] is the value of
    every read after them, the level at which the lines settle.  The result
    is the value read by the first read after the loop, [None] when the loop
    is never left. *)
Definition scl_high (p : Z) : bool := negb (Z.land p (Z.shiftl 1 PORT_USI_SCL) =? 0).
Definition sda_low (p : Z) : bool := Z.land p (Z.shiftl 1 PORT_USI_SDA) =? 0.

Definition settled_wait (pin : Z) : option Z :=
  if scl_high pin && sda_low pin then None else Some pin.

Fixpoint start_wait (reads : list Z) (pin : Z) : option Z :=
  match reads with
  | [] => settled_wait pin
  | scl :: rest =>
      if scl_high scl then
        match rest with
        | [] => settled_wait pin
        | sda :: rest' => if sda_low sda then start_wait rest' pin else Some (hd pin rest')
        end
      else Some (hd pin rest)
  end.

(** [TwiStartHandler]: a call that never leaves the wait never returns. *)
Definition TwiStartHandler (reads : list Z) (pin : Z) : M unit :=
  SET_USI_SDA_AS_INPUT ;;
  set_state STATE_CHECK_RECEIVED_ADDRESS ;;
  fun w =>
    match start_wait reads pin with
    | None => Spin w
    | Some p =>
        ((if Z.land p (Z.shiftl 1 PIN_USI_SDA) =? 0
          then SET_USI_TO_DETECT_TWI_RESTART
          else SET_USI_TO_DETECT_TWI_START) ;;
         SET_USI_TO_SHIFT_8_ADDRESS_BITS) w
    end.

Definition UsiTwiDriverInit : M unit :=
  act (with_twi (fun t => set_tx_tail 0 (set_tx_head 0 t))) ;;
  act (with_twi (fun t => set_rx_tail 0 (set_rx_head 0 (set_rx_byte_count 0 t)))) ;;
  SET_USI_SDA_AND_SCL_AS_OUTPUT ;;
  act (with_usi (fun u => set_PORT_USI (wrap8 (Z.lor (PORT_USI u) (Z.shiftl 1 PORT_USI_SDA))) u)) ;;
  act (with_usi (fun u => set_PORT_USI (wrap8 (Z.lor (PORT_USI u) (Z.shiftl 1 PORT_USI_SCL))) u)) ;;
  SET_USI_SDA_AS_INPUT ;;
  SET_USI_TO_WAIT_FOR_TWI_ADDRESS.

(** ** The main function *)

(** Where [main] stands between two observations of the machine. *)
Inductive Pc :=
| AtReset            (* entering main: power-on, RestartTimonel or watchdog reset *)
| AtStartPoll        (* top of the loop: test of the start condition flag *)
| AtOverflowPoll     (* test of the 4-bit counter overflow flag *)
| AtSupervisor       (* the initialized / not initialized block *)
| InApplication      (* RunApplication() was called *)
| Stopped.           (* a call never returned or left an array: not followed further *)

Record Main := mkMain {
  world : World;
  slow_ops_enabled : bool;
  led_delay : Z;
  exit_delay : Z;
  pc : Pc
}.

(** The application's trampoline word [tpl]. *)
Definition trampoline_word (m : MemPack) : Z :=
  wrap16 (Z.lor
    (Z.land
       (Z.lnot (Z.shiftr (TIMONEL_START cfg) 1
                - Z.land (Z.lor (Z.shiftl (app_reset_msb m) 8) (app_reset_lsb m) + 1) 0x0FFF)
        + 1)
       0x0FFF)
    0xC000).

(** The indices of [for (i = 0; i < n; i += 2)]. *)
Definition even_indices (n : Z) : list Z :=
  map (fun k => 2 * Z.of_nat k) (seq 0 (Z.to_nat ((n + 1) / 2))).

Fixpoint for_each (l : list Z) (body : Z -> M unit) : M unit :=
  match l with
  | [] => ret tt
  | i :: rest => body i ;; for_each rest body
  end.

(** [while (page_to_del != RESET_PAGE) { page_to_del -= SPM_PAGESIZE;
    boot_page_erase(page_to_del); }].  [page_to_del] is a [uint16_t]: one unit
    of fuel pays for one test of the loop condition, and a loop that is still
    running after 65536 tests never ends. *)
Fixpoint erase_loop (fuel : nat) (page_to_del : Z) : M unit :=
  match fuel with
  | O => fun w => Spin w
  | S fuel' =>
      if negb (page_to_del =? RESET_PAGE cfg) then
        let page_to_del' := wrap16 (page_to_del - SPM_PAGESIZE cfg) in
        boot_page_erase page_to_del' ;;
        erase_loop fuel' page_to_del'
      else ret tt
  end.

(** Slow op: delete the application from memory. *)
Definition slow_op_delete_flash : M unit :=
  erase_loop (Z.to_nat 65536) (wrap16 (TIMONEL_START cfg)).

(** The trampoline page written after the reset page. *)
Definition write_trampoline_page (m : MemPack) : M unit :=
  for_each (even_indices (SPM_PAGESIZE cfg - 2))
    (fun i => boot_page_fill ((TIMONEL_START cfg - SPM_PAGESIZE cfg) + i) 0xFFFF) ;;
  boot_page_fill (TIMONEL_START cfg - 2) (trampoline_word m) ;;
  boot_page_write (TIMONEL_START cfg - SPM_PAGESIZE cfg).

(** [APP_USE_TPL_PG]: the application's own trampoline page is read back and
    its last word compared with [tpl]. *)
Definition check_trampoline_page (m : MemPack) : M unit := fun w =>
  let word_at a := wrap16 (Z.land (pgm w a) 0xFF + Z.shiftl (Z.land (pgm w (a + 1)) 0xFF) 8) in
  (for_each (even_indices (SPM_PAGESIZE cfg - 2))
     (fun i => boot_page_fill ((TIMONEL_START cfg - SPM_PAGESIZE cfg) + i)
                              (word_at ((TIMONEL_START cfg - SPM_PAGESIZE cfg) + i))) ;;
   (if negb (word_at (TIMONEL_START cfg - 2) =? trampoline_word m)
    then set_flag (FL_DEL_FLASH cfg)
    else ret tt)) w.

(** Slow op: write the received page to memory and prepare for a new one. *)
Definition slow_op_write_page : M unit :=
  m <- (fun w => Done (mem_pack w) w) ;;
  let limit := if APP_USE_TPL_PG cfg || negb (AUTO_PAGE_ADDR cfg)
               then TIMONEL_START cfg
               else TIMONEL_START cfg - SPM_PAGESIZE cfg in
  if (page_ix m =? SPM_PAGESIZE cfg) && (page_addr m <? wrap16 limit) then
    (if FORCE_ERASE_PG cfg then boot_page_erase (page_addr m) else ret tt) ;;
    boot_page_write (page_addr m) ;;
    (if AUTO_PAGE_ADDR cfg then
       (if page_addr m =? RESET_PAGE cfg then write_trampoline_page m else ret tt) ;;
       (if APP_USE_TPL_PG cfg && (page_addr m =? wrap16 (TIMONEL_START cfg - SPM_PAGESIZE cfg))
        then check_trampoline_page m else ret tt) ;;
       act (with_mem_pack (fun m => set_page_addr (wrap16 (page_addr m + SPM_PAGESIZE cfg)) m))
     else ret tt) ;;
    act (with_mem_pack (set_page_ix 0))
  else ret tt.

Definition initialized (m : MemPack) : bool :=
  if TWO_STEP_INIT cfg
  then bit_of (flags m) (FL_INIT_1 cfg) && bit_of (flags m) (FL_INIT_2 cfg)
  else bit_of (flags m) (FL_INIT_1 cfg).

(** The globals as the C start-up code leaves them. *)
Definition startup_twi : Twi :=
  mkTwi (repeat 0 (Z.to_nat (TWI_RX_BUFFER_SIZE cfg)))
        (repeat 0 (Z.to_nat (TWI_TX_BUFFER_SIZE cfg)))
        0 0 0 0 0 STATE_CHECK_RECEIVED_ADDRESS
        (repeat 0 (Z.to_nat (MST_PACKET_SIZE cfg * 2))).

(** The clock source: with [AUTO_CLK_TWEAK] the low fuse is read at run time
    ([boot_lock_fuse_bits_get(L_FUSE_ADDR)]), otherwise the build-time
    constant [LOW_FUSE] decides. *)
Definition rc_oscillator (w : World) : bool :=
  if AUTO_CLK_TWEAK cfg
  then Z.land (low_fuse w) 0x0F =? RCOSC_CLK_SRC cfg
  else Z.land (LOW_FUSE cfg) 0x0F =? RCOSC_CLK_SRC cfg.

(** The clock tweak of the setup block: the factory calibration is saved
    (always with [AUTO_CLK_TWEAK], otherwise in the RC-oscillator builds
    only) and the RC oscillator is sped up. *)
Definition tweak_clock (w : World) : World :=
  let w1 := if AUTO_CLK_TWEAK cfg || rc_oscillator w
            then with_factory_osccal (wrap8 (OSCCAL w)) w else w in
  if rc_oscillator w then with_OSCCAL (wrap8 (OSCCAL w1 + OSC_FAST cfg)) w1 else w1.

(** [OSCCAL = factory_osccal], before the bootloader is left. *)
Definition restore_clock (w : World) : World :=
  if rc_oscillator w then with_OSCCAL (factory_osccal w) w else w.

(** The setup block of [main].  The watchdog, the LED and the CPU prescaler
    are not part of the modelled state. *)
Definition main_setup (w : World) : Main :=
  let w0 := with_twi (fun _ => startup_twi) (tweak_clock w) in
  let w1 := world_of (UsiTwiDriverInit w0) in
  let w2 := emit SpmClearBuffer w1 in
  let w3 := with_mem_pack (fun _ => mkMemPack 0 0 0 0 0) w2 in
  mkMain w3 false (wrap16 (SHORT_LED_DLY cfg)) (wrap8 (SHORT_EXIT_DLY cfg)) AtStartPoll.

(** TWI interrupt emulation: the start condition handler. *)
Definition poll_start (reads : list Z) (pin : Z) (m : Main) : Main :=
  let w := world m in
  if bit_of (USISR (usi w)) TWI_START_COND_FLAG && bit_of (USICR (usi w)) TWI_START_COND_INT then
    match TwiStartHandler reads pin w with
    | Done _ w' => mkMain w' (slow_ops_enabled m) (led_delay m) (exit_delay m) AtOverflowPoll
    | Spin w' => mkMain w' (slow_ops_enabled m) (led_delay m) (exit_delay m) Stopped
    | Fault w' => mkMain w' (slow_ops_enabled m) (led_delay m) (exit_delay m) Stopped
    end
  else mkMain w (slow_ops_enabled m) (led_delay m) (exit_delay m) AtOverflowPoll.

(** TWI interrupt emulation: the overflow handler; its result is stored in
    [slow_ops_enabled]. *)
Definition poll_overflow (m : Main) : Main :=
  let w := world m in
  if bit_of (USISR (usi w)) USI_OVERFLOW_FLAG && bit_of (USICR (usi w)) USI_OVERFLOW_INT then
    match UsiOverflowHandler (emit OverflowEnter w) with
    | Done r w' => mkMain (emit (OverflowReturn r) w') r (led_delay m) (exit_delay m) AtSupervisor
    | Spin w' => mkMain w' (slow_ops_enabled m) (led_delay m) (exit_delay m) Stopped
    | Fault w' => mkMain w' (slow_ops_enabled m) (led_delay m) (exit_delay m) Stopped
    end
  else mkMain w (slow_ops_enabled m) (led_delay m) (exit_delay m) AtSupervisor.

(** The rest of a loop round.  A call of [RunApplication] hands the machine
    to the application, whose code is not part of the source: [main] is not
    followed further ([InApplication]).  [RestartTimonel] enters the
    bootloader anew ([AtReset]). *)
Definition supervisor (m : Main) : Main :=
  let w := world m in
  if initialized (mem_pack w) then
    if slow_ops_enabled m then
      let w1 := emit SlowOpsTaken w in
      if bit_of (flags (mem_pack w1)) (FL_EXIT_TML cfg) then
        mkMain (emit JumpRunApplication (restore_clock w1)) false
               (led_delay m) (exit_delay m) InApplication
      else if bit_of (flags (mem_pack w1)) (FL_DEL_FLASH cfg) then
        match slow_op_delete_flash w1 with
        | Done _ w2 => mkMain (emit JumpRestartTimonel (restore_clock w2)) false
                              (led_delay m) (exit_delay m) AtReset
        | Spin w2 => mkMain w2 false (led_delay m) (exit_delay m) Stopped
        | Fault w2 => mkMain w2 false (led_delay m) (exit_delay m) Stopped
        end
      else
        mkMain (world_of (slow_op_write_page w1)) false (led_delay m) (exit_delay m) AtStartPoll
    else mkMain w false (led_delay m) (exit_delay m) AtStartPoll
  else
    let led' := wrap16 (led_delay m - 1) in
    if led_delay m =? 0 then
      if TIMEOUT_EXIT cfg then
        let exit' := wrap8 (exit_delay m - 1) in
        if exit_delay m =? 0
        then mkMain (emit JumpRunApplication (restore_clock w)) (slow_ops_enabled m)
                    led' exit' InApplication
        else mkMain w (slow_ops_enabled m) led' exit' AtStartPoll
      else mkMain w (slow_ops_enabled m) led' (exit_delay m) AtStartPoll
    else mkMain w (slow_ops_enabled m) led' (exit_delay m) AtStartPoll.

(** The USI hardware, the bus master and the flash controller change the
    registers and memories that the program only reads or shares with them. *)
Definition io_change (u : Usi) (p : Z -> Z) (fuse osc : Z) (m : Main) : Main :=
  let w := world m in
  mkMain (mkWorld (twi w) u (mem_pack w) p fuse osc (factory_osccal w) (events w))
         (slow_ops_enabled m) (led_delay m) (exit_delay m) (pc m).

Inductive step : Main -> Main -> Prop :=
| step_io : forall m u p fuse osc, step m (io_change u p fuse osc m)
| step_reset : forall m, pc m = AtReset -> step m (main_setup (world m))
| step_start : forall m reads pin, pc m = AtStartPoll -> step m (poll_start reads pin m)
| step_overflow : forall m, pc m = AtOverflowPoll -> step m (poll_overflow m)
| step_supervisor : forall m, pc m = AtSupervisor -> step m (supervisor m).

(** The states of the executions that start at power-on with an empty record
    of events. *)
Inductive reachable : Main -> Prop :=
| reach_power_on : forall w s l e, events w = [] -> reachable (mkMain w s l e AtReset)
| reach_step : forall m m', reachable m -> step m m' -> reachable m'.

End Bootloader.

(** A sample build: an ATtiny85 with the bootloader at 0x1A00, 64-byte pages,
    8-byte packets and 16-byte rings. *)
Definition sample_cfg : Config :=
  mkConfig 11 0x1A00 64 0 8 16 16
           true false true false false true false true
           0 1 2 3
           0x82 0x7D 0x86 0x79 0x83 0x7C 0x84 0x7B 0x85 0x7A 0x87 0x78 0x81 0x7E
           84 0 0 250 65535
           false 0x62 2 0x4C.

Definition sample_usi : Usi := mkUsi 0 0 0 0 0.

Definition sample_world : World :=
  mkWorld (startup_twi sample_cfg) sample_usi (mkMemPack 0 0 0 0 0) (fun _ => 0xFF) 0x62 0x80 0 [].

(** Two WRITPAGE frames for the sample build, the second with a wrong
    trailing byte. *)
Definition sample_writpage : list Z :=
  [0x85; 0x10; 0xC0; 3; 4; 5; 6; 7; 8; 0xF1; 0; 0; 0; 0; 0; 0].

Definition sample_writpage_bad : list Z :=
  [0x85; 0x10; 0xC0; 3; 4; 5; 6; 7; 8; 0x00; 0; 0; 0; 0; 0; 0].

(** ** The stand-alone driver [nb-usitwisl-if3.h]

    This variant of the driver counts the bytes of both rings and stores a
    byte before it advances the head index. *)

Module GoodLine.

Inductive OperationalState :=
| STATE_CHECK_ADDRESS
| STATE_SEND_DATA
| STATE_WAIT_ACK_AFTER_SEND_DATA
| STATE_CHECK_ACK_AFTER_SEND_DATA
| STATE_WAIT_DATA_RECEPTION
| STATE_RECEIVE_DATA_AND_SEND_ACK.

Record Driver := mkDriver {
  device_state : OperationalState;
  rx_buffer : list Z;
  rx_head : Z;
  rx_tail : Z;
  rx_count : Z;
  tx_buffer : list Z;
  tx_head : Z;
  tx_tail : Z;
  tx_count : Z;
  regs : Usi
}.

Definition set_device_state v d := mkDriver v (rx_buffer d) (rx_head d) (rx_tail d) (rx_count d) (tx_buffer d) (tx_head d) (tx_tail d) (tx_count d) (regs d).
Definition set_rx_buffer v d := mkDriver (device_state d) v (rx_head d) (rx_tail d) (rx_count d) (tx_buffer d) (tx_head d) (tx_tail d) (tx_count d) (regs d).
Definition set_rx_head v d := mkDriver (device_state d) (rx_buffer d) v (rx_tail d) (rx_count d) (tx_buffer d) (tx_head d) (tx_tail d) (tx_count d) (regs d).
Definition set_rx_tail v d := mkDriver (device_state d) (rx_buffer d) (rx_head d) v (rx_count d) (tx_buffer d) (tx_head d) (tx_tail d) (tx_count d) (regs d).
Definition set_rx_count v d := mkDriver (device_state d) (rx_buffer d) (rx_head d) (rx_tail d) v (tx_buffer d) (tx_head d) (tx_tail d) (tx_count d) (regs d).
Definition set_tx_buffer v d := mkDriver (device_state d) (rx_buffer d) (rx_head d) (rx_tail d) (rx_count d) v (tx_head d) (tx_tail d) (tx_count d) (regs d).
Definition set_tx_head v d := mkDriver (device_state d) (rx_buffer d) (rx_head d) (rx_tail d) (rx_count d) (tx_buffer d) v (tx_tail d) (tx_count d) (regs d).
Definition set_tx_tail v d := mkDriver (device_state d) (rx_buffer d) (rx_head d) (rx_tail d) (rx_count d) (tx_buffer d) (tx_head d) v (tx_count d) (regs d).
Definition set_tx_count v d := mkDriver (device_state d) (rx_buffer d) (rx_head d) (rx_tail d) (rx_count d) (tx_buffer d) (tx_head d) (tx_tail d) v (regs d).
Definition with_regs (f : Usi -> Usi) d := mkDriver (device_state d) (rx_buffer d) (rx_head d) (rx_tail d) (rx_count d) (tx_buffer d) (tx_head d) (tx_tail d) (tx_count d) (f (regs d)).

Section Driver.

(** [TWI_RX_BUFFER_SIZE], [TWI_TX_BUFFER_SIZE] (16 unless the build says
    otherwise) and [TWI_ADDR]. *)
Variable RX_SIZE TX_SIZE ADDR : Z.

(** The callbacks [ReceiveEvent] and [RequestEvent] belong to the
    application that uses the driver. *)
Variable ReceiveEvent : Z -> Driver -> Driver.
Variable RequestEvent : Driver -> Driver.

Definition RX_MASK : Z := RX_SIZE - 1.
Definition TX_MASK : Z := TX_SIZE - 1.

Definition FlushTwiBuffers (d : Driver) : Driver :=
  set_tx_count 0 (set_tx_head 0 (set_tx_tail 0 (set_rx_count 0 (set_rx_head 0 (set_rx_tail 0 d))))).

(** [while (tx_count++ == TWI_TX_BUFFER_SIZE) {};]: every test increments
    the counter, so the second test always leaves the loop. *)
Definition tx_wait (d : Driver) : Driver :=
  if tx_count d =? TX_SIZE
  then set_tx_count (wrap8 (wrap8 (tx_count d + 1) + 1)) d
  else set_tx_count (wrap8 (tx_count d + 1)) d.

Definition UsiTwiTransmitByte (data_byte : Z) (d : Driver) : Driver :=
  let d1 := tx_wait d in
  let d2 := set_tx_buffer (aset (tx_buffer d1) (tx_head d1) (wrap8 data_byte)) d1 in
  set_tx_head (wrap8 (Z.land (tx_head d2 + 1) TX_MASK)) d2.

(** [while (!rx_count--) {};] *)
Definition rx_wait (d : Driver) : Driver :=
  if rx_count d =? 0
  then set_rx_count (wrap8 (wrap8 (rx_count d - 1) - 1)) d
  else set_rx_count (wrap8 (rx_count d - 1)) d.

Definition UsiTwiReceiveByte (d : Driver) : Z * Driver :=
  let d1 := rx_wait d in
  let received_byte := aget (rx_buffer d1) (rx_tail d1) in
  (received_byte, set_rx_tail (wrap8 (Z.land (rx_tail d1 + 1) RX_MASK)) d1).

Definition UsiTwiAmountDataInReceiveBuffer (d : Driver) : Z := rx_count d.

Definition store (f : Usi -> Usi) (d : Driver) : Driver := with_regs f d.

Definition SET_USI_TO_SEND_ACK (d : Driver) : Driver :=
  let d1 := store (set_USIDR 0) d in
  let d2 := store (fun u => set_DDR_USI (wrap8 (Z.lor (DDR_USI u) (Z.shiftl 1 PORT_USI_SDA))) u) d1 in
  store (fun u => set_USISR (store_USISR USISR_SHIFT_1_ACK_BIT (USISR u)) u) d2.

Definition SET_USI_TO_WAIT_ACK (d : Driver) : Driver :=
  let d1 := store (set_USIDR 0) d in
  let d2 := store (fun u => set_DDR_USI (wrap8 (Z.land (DDR_USI u) (Z.lnot (Z.shiftl 1 PORT_USI_SDA)))) u) d1 in
  store (fun u => set_USISR (store_USISR USISR_SHIFT_1_ACK_BIT (USISR u)) u) d2.

Definition SET_USI_TO_WAIT_FOR_START_COND_AND_ADDRESS (d : Driver) : Driver :=
  let d1 := store (set_USICR (wrap8 USICR_DETECT_TWI_START)) d in
  store (fun u => set_USISR (store_USISR USISR_SHIFT_8_DATA_BITS (USISR u)) u) d1.

Definition SET_USI_TO_SEND_DATA (d : Driver) : Driver :=
  let d1 := store (fun u => set_DDR_USI (wrap8 (Z.lor (DDR_USI u) (Z.shiftl 1 PORT_USI_SDA))) u) d in
  store (fun u => set_USISR (store_USISR USISR_SHIFT_8_DATA_BITS (USISR u)) u) d1.

Definition SET_USI_TO_RECEIVE_DATA (d : Driver) : Driver :=
  let d1 := store (fun u => set_DDR_USI (wrap8 (Z.land (DDR_USI u) (Z.lnot (Z.shiftl 1 PORT_USI_SDA)))) u) d in
  store (fun u => set_USISR (store_USISR USISR_SHIFT_8_DATA_BITS (USISR u)) u) d1.

Definition DATA_RECEIVED_FROM_MASTER_CALLBACK (d : Driver) : Driver :=
  ReceiveEvent (UsiTwiAmountDataInReceiveBuffer d) d.

Definition DATA_REQUESTED_BY_MASTER_CALLBACK (d : Driver) : Driver :=
  RequestEvent (DATA_RECEIVED_FROM_MASTER_CALLBACK d).

(** The TX side of the engine (state [STATE_SEND_DATA]): [tx_count--] is
    tested and decremented, also when it is zero. *)
Definition tx_pop (d : Driver) : option Z * Driver :=
  let d1 := set_tx_count (wrap8 (tx_count d - 1)) d in
  if negb (tx_count d =? 0)
  then (Some (aget (tx_buffer d1) (tx_tail d1)),
        set_tx_tail (wrap8 (Z.land (tx_tail d1 + 1) TX_MASK)) d1)
  else (None, d1).

(** The RX side of the engine (state [STATE_RECEIVE_DATA_AND_SEND_ACK]):
    [rx_count++] is tested and incremented, also on overrun. *)
Definition rx_push (b : Z) (d : Driver) : Driver :=
  let d1 := set_rx_count (wrap8 (rx_count d + 1)) d in
  if rx_count d <? RX_SIZE
  then let d2 := set_rx_buffer (aset (rx_buffer d1) (rx_head d1) b) d1 in
       set_rx_head (wrap8 (Z.land (rx_head d2 + 1) RX_MASK)) d2
  else d1.

Definition clear_overflow_flag (d : Driver) : Driver :=
  store (fun u => set_USISR (store_USISR (Z.lor (USISR u) (Z.shiftl 1 USI_OVERFLOW_FLAG)) (USISR u)) u) d.

Definition send_data (d : Driver) : bool * Driver :=
  match tx_pop d with
  | (Some b, d1) =>
      let d2 := store (set_USIDR b) d1 in
      let d3 := set_device_state STATE_WAIT_ACK_AFTER_SEND_DATA d2 in
      (false, clear_overflow_flag (SET_USI_TO_SEND_DATA d3))
  | (None, d1) =>
      (false, SET_USI_TO_WAIT_FOR_START_COND_AND_ADDRESS (SET_USI_TO_WAIT_ACK d1))
  end.

Definition UsiOverflowHandler (d : Driver) : bool * Driver :=
  match device_state d with
  | STATE_CHECK_ADDRESS =>
      let data := USIDR (regs d) in
      if (data =? 0) || (Z.shiftr data 1 =? ADDR) then
        let d1 := if negb (Z.land data 0x01 =? 0)
                  then set_device_state STATE_SEND_DATA (DATA_REQUESTED_BY_MASTER_CALLBACK d)
                  else set_device_state STATE_WAIT_DATA_RECEPTION d in
        (false, clear_overflow_flag (SET_USI_TO_SEND_ACK d1))
      else (false, clear_overflow_flag (SET_USI_TO_WAIT_FOR_START_COND_AND_ADDRESS d))
  | STATE_CHECK_ACK_AFTER_SEND_DATA =>
      if negb (USIDR (regs d) =? 0)
      then (true, SET_USI_TO_WAIT_FOR_START_COND_AND_ADDRESS d)
      else send_data d
  | STATE_SEND_DATA => send_data d
  | STATE_WAIT_ACK_AFTER_SEND_DATA =>
      (false, clear_overflow_flag (SET_USI_TO_WAIT_ACK (set_device_state STATE_CHECK_ACK_AFTER_SEND_DATA d)))
  | STATE_WAIT_DATA_RECEPTION =>
      (false, clear_overflow_flag (SET_USI_TO_RECEIVE_DATA (set_device_state STATE_RECEIVE_DATA_AND_SEND_ACK d)))
  | STATE_RECEIVE_DATA_AND_SEND_ACK =>
      let d1 := rx_push (USIDR (regs d)) d in
      (false, clear_overflow_flag (SET_USI_TO_SEND_ACK (set_device_state STATE_WAIT_DATA_RECEPTION d1)))
  end.

(** Enqueue the bytes of [s] in order. *)
Definition transmit_all (s : list Z) (d : Driver) : Driver :=
  fold_left (fun d b => UsiTwiTransmitByte b d) s d.

Definition push_all (s : list Z) (d : Driver) : Driver :=
  fold_left (fun d b => rx_push b d) s d.

(** Dequeue [n] bytes; a pop from an empty TX ring yields nothing. *)
Fixpoint pop_n (n : nat) (d : Driver) : list Z * Driver :=
  match n with
  | O => ([], d)
  | S n' =>
      match tx_pop d with
      | (Some b, d1) => let (l, d2) := pop_n n' d1 in (b :: l, d2)
      | (None, d1) => ([], d1)
      end
  end.

Fixpoint receive_n (n : nat) (d : Driver) : list Z * Driver :=
  match n with
  | O => ([], d)
  | S n' =>
      let (b, d1) := UsiTwiReceiveByte d in
      let (l, d2) := receive_n n' d1 in (b :: l, d2)
  end.

End Driver.

Definition empty_driver (rx_size tx_size : Z) : Driver :=
  FlushTwiBuffers
    (mkDriver STATE_CHECK_ADDRESS (repeat 0 (Z.to_nat rx_size)) 0 0 0
              (repeat 0 (Z.to_nat tx_size)) 0 0 0 sample_usi).

End GoodLine.

(** ** Enqueue and dequeue runs on the rings of [timonel.c] *)

(** Bytes shifted in by the engine, one [rx_push] each. *)
Definition rx_push_all (cfg : Config) (s : list Z) (t : Twi) : Twi :=
  fold_left (fun t b => rx_push cfg b t) s t.

(** [n] bytes taken by the engine from the TX ring. *)
Fixpoint tx_pop_n (cfg : Config) (n : nat) (t : Twi) : list Z * Twi :=
  match n with
  | O => ([], t)
  | S n' =>
      match tx_pop cfg t with
      | Some (b, t1) => let (l, t2) := tx_pop_n cfg n' t1 in (b :: l, t2)
      | None => ([], t)
      end
  end.

(** The dispatcher's drain as [UsiOverflowHandler] runs it: [rx_byte_count]
    rounds from index 0. *)
Definition rx_drain_all (cfg : Config) : M unit :=
  fun w => rx_drain cfg (Z.to_nat (rx_byte_count (twi w))) 0 w.

(** ** Vocabulary of the statements *)

(** The payload of a WRITPAGE frame: [command[1] .. command[MST_PACKET_SIZE]]. *)
Definition payload (cfg : Config) (cmd : list Z) : list Z :=
  map (fun k => aget cmd (Z.of_nat k)) (seq 1 (Z.to_nat (MST_PACKET_SIZE cfg))).

(** The fill calls of [n] rounds of a fill loop of [Reply_WRITPAGE] that
    starts at [command[i]] with the page index [ix]. *)
Fixpoint fill_words (cmd : list Z) (pa ix i : Z) (n : nat) : list Event :=
  match n with
  | O => []
  | S n' =>
      SpmFill (wrap16 (pa + ix)) (wrap16 (Z.lor (Z.shiftl (aget cmd (i + 1)) 8) (aget cmd i)))
      :: fill_words cmd pa (wrap8 (ix + 2)) (i + 2) n'
  end.

(** The checksum accumulator after the same [n] rounds. *)
Fixpoint fill_checksum (cmd : list Z) (i chk : Z) (n : nat) : Z :=
  match n with
  | O => chk
  | S n' => fill_checksum cmd (i + 2) (wrap8 (chk + wrap8 (aget cmd (i + 1) + aget cmd i))) n'
  end.

Definition at_reset_page (cfg : Config) (m : MemPack) : bool :=
  wrap16 (page_addr m + page_ix m) =? RESET_PAGE cfg.

(** The jump to the bootloader that [Reply_WRITPAGE] puts in the reset
    vector, as the code computes it. *)
Definition reset_jump (cfg : Config) : Z := wrap16 (0xC000 + (TIMONEL_START cfg / 2 - 1)).

(** All the fill calls of one [Reply_WRITPAGE]. *)
Definition writpage_fills (cfg : Config) (cmd : list Z) (m : MemPack) : list Event :=
  if at_reset_page cfg m
  then SpmFill (wrap16 (RESET_PAGE cfg)) (reset_jump cfg)
       :: fill_words cmd (page_addr m) (wrap8 (page_ix m + 2)) 3
                     (Z.to_nat (MST_PACKET_SIZE cfg / 2) - 1)
  else fill_words cmd (page_addr m) (page_ix m) 1 (Z.to_nat (MST_PACKET_SIZE cfg / 2)).

(** A WRITPAGE frame is refused when its trailing byte is not the checksum
    of its payload or, under [CHECK_PAGE_IX], when the page index has run
    past the page. *)
Definition writpage_refused (cfg : Config) (cmd : list Z) (m : MemPack) : bool :=
  negb (sum8 (payload cfg cmd) =? aget cmd (MST_PACKET_SIZE cfg + 1))
  || (CHECK_PAGE_IX cfg && (wrap8 (page_ix m + MST_PACKET_SIZE cfg) >? SPM_PAGESIZE cfg)).

(** [MemPack] after one [Reply_WRITPAGE]. *)
Definition writpage_mem_pack (cfg : Config) (cmd : list Z) (m : MemPack) : MemPack :=
  let saved := at_reset_page cfg m && AUTO_PAGE_ADDR cfg in
  mkMemPack (page_addr m)
            (wrap8 (page_ix m + MST_PACKET_SIZE cfg))
            (if writpage_refused cfg cmd m
             then wrap8 (Z.lor (flags m) (Z.shiftl 1 (FL_DEL_FLASH cfg)))
             else flags m)
            (if saved then aget cmd 1 else app_reset_lsb m)
            (if saved then aget cmd 2 else app_reset_msb m).

Definition writpage_reply (cfg : Config) (cmd : list Z) (m : MemPack) : list Z :=
  [ wrap8 (ACKWTPAG cfg);
    if writpage_refused cfg cmd m then 0 else sum8 (payload cfg cmd) ].

Definition set_events (l : list Event) (w : World) : World :=
  mkWorld (twi w) (usi w) (mem_pack w) (pgm w) (low_fuse w) (OSCCAL w) (factory_osccal w) l.

(** The packet size the fill loops are written for: an even number of
    bytes that the [uint8_t] loop index can run past. *)
Definition packet_size_ok (cfg : Config) : Prop :=
  Z.even (MST_PACKET_SIZE cfg) = true /\ 2 <= MST_PACKET_SIZE cfg <= 254.

(** The trampoline formula in the words of the specification, over 16-bit
    unsigned integers. *)
Definition tpl_formula (timonel_start app_vec : Z) : Z :=
  wrap16 (Z.lor (Z.land (Z.lnot (Z.shiftr timonel_start 1 - Z.land (app_vec + 1) 0x0FFF) + 1) 0x0FFF)
                0xC000).

Definition app_vec (m : MemPack) : Z := Z.lor (Z.shiftl (app_reset_msb m) 8) (app_reset_lsb m).

(** Events of the flash mock. *)
Definition is_fill (e : Event) : bool :=
  match e with SpmFill _ _ => true | _ => false end.

Definition is_spm (e : Event) : bool :=
  match e with
  | SpmErase _ | SpmFill _ _ | SpmWrite _ | SpmClearBuffer => true
  | _ => false
  end.

(** The calls that erase or program a flash page. *)
Definition is_erase_or_write (e : Event) : bool :=
  match e with SpmErase _ | SpmWrite _ => true | _ => false end.

(** [m] adds to the record only events that satisfy [P], whatever the
    outcome of the call. *)
Definition emits {A} (P : Event -> bool) (m : M A) : Prop :=
  forall w, exists evs, events (world_of (m w)) = events w ++ evs /\ forallb P evs = true.

(** The slow-op discipline on a record of events: a page erase or write
    comes after a [SlowOpsTaken] that directly follows the return of [true]
    by the overflow handler, with nothing but SPM calls in between. *)
Definition in_slow_section (pre : list Event) : Prop :=
  exists a c, pre = a ++ OverflowReturn true :: SlowOpsTaken :: c /\ forallb is_spm c = true.

Definition deferred (l : list Event) : Prop :=
  forall pre e post, l = pre ++ e :: post -> is_erase_or_write e = true -> in_slow_section pre.

(** Addresses passed to [boot_page_erase], in call order. *)
Fixpoint erased_pages (l : list Event) : list Z :=
  match l with
  | [] => []
  | SpmErase a :: rest => a :: erased_pages rest
  | _ :: rest => erased_pages rest
  end.

(** The page bases [p - size], [p - 2 size], ... of [n] pages below [p]. *)
Fixpoint pages_below (size p : Z) (n : nat) : list Z :=
  match n with
  | O => []
  | S n' => (p - size) :: pages_below size (p - size) n'
  end.

(** A ring size the driver accepts: a power of two
    ([#if (SIZE & MASK) #error]) whose indices fit the [uint8_t] head and
    tail. *)
Definition ring_size_ok (size : Z) : Prop :=
  0 < size <= 256 /\ Z.land size (size - 1) = 0.

(** The [n] bytes of a ring buffer from slot [start] on, around the end. *)
Definition ring_slice (buf : list Z) (size start : Z) (n : nat) : list Z :=
  map (fun j => aget buf ((start + Z.of_nat j) mod size)) (seq 0 n).

Definition all_bytes (s : list Z) : Prop := Forall is_byte s.

(** The page index after [n] rounds of a fill loop. *)
Fixpoint ix_after (ix : Z) (n : nat) : Z :=
  match n with
  | O => ix
  | S n' => ix_after (wrap8 (ix + 2)) n'
  end.

(** The world after a fill loop: the page index is [ix] and the fill calls
    [evs] are on record. *)
Definition after_fills (w : World) (ix : Z) (evs : list Event) : World :=
  mkWorld (twi w) (usi w) (set_page_ix ix (mem_pack w)) (pgm w) (low_fuse w) (OSCCAL w)
          (factory_osccal w) (events w ++ evs).

(** [command[i] + ... + command[i + n - 1]]. *)
Definition sum_from (cmd : list Z) (i n : nat) : Z :=
  fold_right Z.add 0 (map (fun k => aget cmd (Z.of_nat k)) (seq i n)).

(** No fill call of the record targets flash word 0. *)
Definition fill_misses_word0 (e : Event) : bool :=
  match e with
  | SpmFill a _ => negb (a =? 0)
  | _ => true
  end.

(** An initialized bootloader that was told to delete the application and
    has completed the handshake. *)
Definition sample_delflash_main : Main :=
  mkMain (with_mem_pack (set_flags 5) sample_world) true 0 0 AtSupervisor.

(** The engine after the address byte of another slave (0x20, write). *)
Definition sample_foreign_address : World := with_usi (set_USIDR 0x40) sample_world.

(** [l] is what a ring of [size] slots holds from slot [start] on. *)
Definition ring_view (size : Z) (buf : list Z) (start : Z) (l : list Z) : Prop :=
  Z.of_nat (length buf) = size /\ 0 <= start < size /\
  Z.of_nat (length l) <= size /\ ring_slice buf size start (length l) = l.

(** The unread bytes of the rings of [timonel.c]: the tail index lies one
    slot before the oldest byte, the head index on the newest. *)
Definition tx_holds (cfg : Config) (t : Twi) (l : list Z) : Prop :=
  let size := TWI_TX_BUFFER_SIZE cfg in
  ring_view size (tx_buffer t) ((tx_tail t + 1) mod size) l /\
  0 <= tx_tail t < size /\
  tx_head t = (tx_tail t + Z.of_nat (length l)) mod size /\
  Z.of_nat (length l) < size.

Definition rx_holds (cfg : Config) (t : Twi) (l : list Z) : Prop :=
  let size := TWI_RX_BUFFER_SIZE cfg in
  ring_view size (rx_buffer t) ((rx_tail t + 1) mod size) l /\
  0 <= rx_tail t < size /\
  rx_head t = (rx_tail t + Z.of_nat (length l)) mod size /\
  rx_byte_count t = Z.of_nat (length l) /\
  Z.of_nat (length l) < 256.

(** The unread bytes of the rings of [nb-usitwisl-if3.h]: the tail index
    lies on the oldest byte, the head index one slot after the newest. *)
Definition gl_tx_holds (size : Z) (d : GoodLine.Driver) (l : list Z) : Prop :=
  ring_view size (GoodLine.tx_buffer d) (GoodLine.tx_tail d) l /\
  GoodLine.tx_head d = (GoodLine.tx_tail d + Z.of_nat (length l)) mod size /\
  GoodLine.tx_count d = Z.of_nat (length l) /\
  Z.of_nat (length l) < 256.

Definition gl_rx_holds (size : Z) (d : GoodLine.Driver) (l : list Z) : Prop :=
  ring_view size (GoodLine.rx_buffer d) (GoodLine.rx_tail d) l /\
  GoodLine.rx_head d = (GoodLine.rx_tail d + Z.of_nat (length l)) mod size /\
  GoodLine.rx_count d = Z.of_nat (length l) /\
  Z.of_nat (length l) < 256.

(** Events other than a page erase or write. *)
Definition quiet (e : Event) : bool := negb (is_erase_or_write e).

(** The program points inside the main loop. *)
Definition polling (p : Pc) : bool :=
  match p with AtStartPoll | AtOverflowPoll | AtSupervisor => true | _ => false end.

(** The invariant of [main]: the record obeys the slow-op discipline, and
    a set [slow_ops_enabled] was stored by the last call of the overflow
    handler, after which nothing was recorded. *)
Definition main_inv (m : Main) : Prop :=
  deferred (events (world m)) /\
  (slow_ops_enabled m = true -> polling (pc m) = true ->
   exists a, events (world m) = a ++ [OverflowReturn true]).

(** Byte sequences of the capacity of the sample rings, and one byte less. *)
Definition sample_15_bytes : list Z := map (fun k => 0x10 + Z.of_nat k) (seq 0 15).
Definition sample_16_bytes : list Z := map (fun k => 0x10 + Z.of_nat k) (seq 0 16).

(** The engine in STATE_PUT_BYTE_IN_RX_BUFFER_AND_SEND_ACK with sixteen
    unread bytes in the sixteen-slot RX ring and the byte 0xAA in USIDR. *)
Definition sample_rx_overrun : World :=
  with_usi (set_USIDR 0xAA)
    (with_twi (fun t => set_device_state STATE_PUT_BYTE_IN_RX_BUFFER_AND_SEND_ACK
                          (rx_push_all sample_cfg sample_16_bytes t))
       sample_world).

(** The sample build with a 32-byte RX ring: the ring is larger than the
    16-byte command frame. *)
Definition wide_rx_cfg : Config :=
  mkConfig 11 0x1A00 64 0 8 32 16
           true false true false false true false true
           0 1 2 3
           0x82 0x7D 0x86 0x79 0x83 0x7C 0x84 0x7B 0x85 0x7A 0x87 0x78 0x81 0x7E
           84 0 0 250 65535
           false 0x62 2 0x4C.

Definition wide_rx_world : World :=
  mkWorld (startup_twi wide_rx_cfg) sample_usi (mkMemPack 0 0 0 0 0) (fun _ => 0xFF) 0x62 0x80 0 [].

(** ** Runs of the main loop *)

(** One step of [main] from wherever it stands, the lines being settled at
    [pin] when the start handler runs. *)
Definition advance (cfg : Config) (pin : Z) (m : Main) : Main :=
  match pc m with
  | AtReset => main_setup cfg (world m)
  | AtStartPoll => poll_start [] pin m
  | AtOverflowPoll => poll_overflow cfg m
  | AtSupervisor => supervisor cfg m
  | InApplication => m
  | Stopped => m
  end.

(** What the bus master makes the USI see: a start condition, or a byte or
    acknowledge bit shifted in and the counter overflow that ends it. *)
Inductive BusEvent :=
| BusStart
| BusByte (data : Z).

Definition bus (ev : BusEvent) (m : Main) : Main :=
  let w := world m in
  let u := usi w in
  let u' := match ev with
            | BusStart => set_USISR (Z.lor (USISR u) (Z.shiftl 1 TWI_START_COND_FLAG)) u
            | BusByte data => set_USIDR data (set_USISR (Z.lor (USISR u) (Z.shiftl 1 USI_OVERFLOW_FLAG)) u)
            end in
  io_change u' (pgm w) (low_fuse w) (OSCCAL w) m.

(** A bus event followed by one round of the main loop, with SDA low when
    the start handler samples it. *)
Definition loop_round (cfg : Config) (ev : BusEvent) (m : Main) : Main :=
  advance cfg 0 (advance cfg 0 (advance cfg 0 (bus ev m))).

Definition play (cfg : Config) (script : list BusEvent) (m : Main) : Main :=
  fold_left (fun m ev => loop_round cfg ev m) script m.

(** The master identifies the bootloader (GETTMNLV), then orders the
    deletion of the application (DELFLASH); each command is a write of the
    opcode, a repeated start, and a read that the master ends with NACK. *)
Definition sample_delete_session : list BusEvent :=
  [ BusStart; BusByte 0x16; BusByte 0; BusByte 0x82;
    BusStart; BusByte 0x17; BusByte 0; BusByte 0; BusByte 1;
    BusStart; BusByte 0x16; BusByte 0; BusByte 0x83;
    BusStart; BusByte 0x17; BusByte 0; BusByte 0; BusByte 1 ].

Definition sample_power_on : Main := mkMain sample_world false 0 0 AtReset.

Definition sample_after_delete : Main :=
  play sample_cfg sample_delete_session (advance sample_cfg 0 sample_power_on).

(** What the master does on the bus to write one frame and to read the two
    bytes of the reply, closing with NACK. *)
Definition frame_script (frame : list Z) : list BusEvent :=
  [BusStart; BusByte 0x16]
  ++ flat_map (fun b => [BusByte 0; BusByte b]) frame
  ++ [BusStart; BusByte 0x17; BusByte 0; BusByte 0; BusByte 0; BusByte 0; BusByte 1].

(** The main loop of the sample build after power-on and thirty-one WRITPAGE
    frames of eight bytes, sent to a bootloader that was never initialized,
    so that no page commit came in between. *)
Definition sample_after_31_frames : Main :=
  play sample_cfg (concat (repeat (frame_script (firstn 10 sample_writpage)) 31))
       (advance sample_cfg 0 sample_power_on).

(** ** Vocabulary of the command handlers *)

(** A reply fits when the TX ring has room for it: the free slots are what is
    left of the capacity minus the slot that [UsiTwiTransmitByte] never
    fills. *)
Definition tx_fits (cfg : Config) (unread reply : list Z) : Prop :=
  Z.of_nat (length unread) + Z.of_nat (length reply) < TWI_TX_BUFFER_SIZE cfg.

(** The flash bytes that [Reply_READFLSH] reads: [n] bytes from [addr] on. *)
Definition flash_bytes (w : World) (addr : Z) (n : nat) : list Z :=
  map (fun k => Z.land (pgm w (addr + Z.of_nat k)) 0xFF) (seq 0 n).


Definition sample_readflsh : list Z := [0x87; 0x19; 0xC0; 4].
Definition sample_readflsh_254 : list Z := [0x87; 0x19; 0xC0; 254].

(** ** Vocabulary of the main loop *)

(** The engine after the acknowledge bit of a reply byte was shifted in: a
    non-zero USIDR is the master's NACK. *)
Definition sample_nack : World :=
  with_usi (set_USIDR 1) (with_twi (set_device_state STATE_CHECK_RECEIVED_ACK) sample_world).

(** No start condition and no counter overflow is pending. *)
Definition bus_idle (w : World) : Prop :=
  bit_of (USISR (usi w)) TWI_START_COND_FLAG = false /\
  bit_of (USISR (usi w)) USI_OVERFLOW_FLAG = false.

(** One round of the main loop from its top. *)
Definition idle_round (cfg : Config) (m : Main) : Main :=
  supervisor cfg (poll_overflow cfg (poll_start [] 0 m)).

(** The rounds left before the round that leaves to the application. *)
Definition rounds_left (m : Main) : Z := led_delay m + 65536 * exit_delay m.

(** The main loop waits, not initialized, with no bus activity. *)
Definition waiting (cfg : Config) (m : Main) : Prop :=
  pc m = AtStartPoll /\ bus_idle (world m) /\
  initialized cfg (mem_pack (world m)) = false /\
  0 <= led_delay m < 65536 /\ 0 <= exit_delay m < 256.

Definition sample_waiting : Main := mkMain sample_world false 2 0 AtStartPoll.

(** [m] keeps the property [I] of the world, whatever the outcome of the
    call. *)
Definition keeps {A} (I : World -> Prop) (m : M A) : Prop :=
  forall w, I w -> I (world_of (m w)).

(** [page_addr] holds a [uint16_t]. *)
Definition page_addr_ok (w : World) : Prop := 0 <= page_addr (mem_pack w) < 65536.

(** A page erase or page write below the bootloader. *)
Definition protects (cfg : Config) (e : Event) : bool :=
  match e with
  | SpmErase a | SpmWrite a => (0 <=? a) && (a <? TIMONEL_START cfg)
  | _ => true
  end.

(** The flash layout the delete loop is written for: the bootloader starts
    on a page boundary of the 16-bit address space and the reset page is
    page 0. *)
Definition flash_geometry_ok (cfg : Config) : Prop :=
  RESET_PAGE cfg = 0 /\ 0 < SPM_PAGESIZE cfg /\
  0 < TIMONEL_START cfg < 65536 /\ TIMONEL_START cfg mod SPM_PAGESIZE cfg = 0.

Definition protect_inv (cfg : Config) (m : Main) : Prop :=
  forallb (protects cfg) (events (world m)) = true /\
  (pc m <> AtReset -> page_addr_ok (world m)).

(** The SPM calls that program the trampoline page: every word but the last
    is left erased, the last word is the trampoline. *)
Definition trampoline_page (cfg : Config) (m : MemPack) : list Event :=
  map (fun i => SpmFill (TIMONEL_START cfg - SPM_PAGESIZE cfg + i) 0xFFFF)
      (even_indices (SPM_PAGESIZE cfg - 2))
  ++ [ SpmFill (TIMONEL_START cfg - 2) (trampoline_word cfg m);
       SpmWrite (TIMONEL_START cfg - SPM_PAGESIZE cfg) ].

(** The supervisor is about to run a slow operation other than the exit
    and the deletion. *)
Definition commit_pending (cfg : Config) (m : Main) : Prop :=
  initialized cfg (mem_pack (world m)) = true /\
  slow_ops_enabled m = true /\
  bit_of (flags (mem_pack (world m))) (FL_EXIT_TML cfg) = false /\
  bit_of (flags (mem_pack (world m))) (FL_DEL_FLASH cfg) = false.

(** A build with the automatic page addressing only. *)
Definition auto_page_build (cfg : Config) : Prop :=
  AUTO_PAGE_ADDR cfg = true /\ APP_USE_TPL_PG cfg = false /\ FORCE_ERASE_PG cfg = false.

Definition sample_full_page : Main :=
  mkMain (with_mem_pack (fun _ => mkMemPack 0 64 1 0x10 0xC0) sample_world) true 0 0 AtSupervisor.

(** ** Vocabulary of the bus transactions *)

(** The USI has shifted a byte, or an acknowledge bit, into USIDR. *)
Definition shifted_in (v : Z) : M unit := act (with_usi (set_USIDR v)).

(** The engine while the master writes the bytes [s]: per byte, the overflow
    that ends the acknowledge bit and the overflow that ends the byte. *)
Fixpoint master_writes (cfg : Config) (s : list Z) : M unit :=
  match s with
  | [] => ret tt
  | b :: rest =>
      UsiOverflowHandler cfg ;; shifted_in b ;; UsiOverflowHandler cfg ;;
      master_writes cfg rest
  end.

(** The engine while the master reads [n] bytes and acknowledges each: per
    byte, the overflow that loads USIDR and the overflow that ends the byte.
    The result lists what USIDR held when each byte went out. *)
Fixpoint read_bytes (cfg : Config) (n : nat) : M (list Z) :=
  match n with
  | O => ret []
  | S n' =>
      UsiOverflowHandler cfg ;;
      b <- (fun w => Done (USIDR (usi w)) w) ;;
      UsiOverflowHandler cfg ;;
      shifted_in 0 ;;
      l <- read_bytes cfg n' ;;
      ret (b :: l)
  end.

(** A read of [n] bytes that the master ends with NACK; the boolean is the
    result of the last call of the overflow handler. *)
Definition master_reads (cfg : Config) (n : nat) : M (list Z * bool) :=
  l <- read_bytes cfg n ;;
  shifted_in 1 ;;
  r <- UsiOverflowHandler cfg ;;
  ret (l, r).

(** The engine is about to load a reply byte: after the acknowledge of the
    address, or after the master's ACK of the previous byte. *)
Definition sending (w : World) : Prop :=
  device_state (twi w) = STATE_SEND_DATA_BYTE \/
  (device_state (twi w) = STATE_CHECK_RECEIVED_ACK /\ USIDR (usi w) = 0).

(** What the engine leaves alone while it moves bytes through the RX ring. *)
Definition rx_frame (w w' : World) : Prop :=
  tx_buffer (twi w') = tx_buffer (twi w) /\ tx_head (twi w') = tx_head (twi w) /\
  tx_tail (twi w') = tx_tail (twi w) /\
  mem_pack w' = mem_pack w /\ events w' = events w.

(** A write transaction after the start condition: the address byte, then
    the bytes [s]. *)
Definition master_write_transaction (cfg : Config) (address : Z) (s : list Z) : M unit :=
  shifted_in address ;; UsiOverflowHandler cfg ;; master_writes cfg s.

(** The address bytes the slave answers when it is written to: its own
    address with the write bit, and the general call. *)
Definition write_address (cfg : Config) (address : Z) : Prop :=
  address = 2 * TWI_ADDR cfg \/ address = 0.

Definition sample_started : World :=
  with_twi (set_device_state STATE_CHECK_RECEIVED_ADDRESS) sample_world.

(** What the overflow handler does once the frame is in [command]. *)
Definition dispatch (cfg : Config) (cmd : list Z) (command_size : Z) : M bool :=
  ReceiveEvent cfg cmd command_size ;;
  set_state STATE_SEND_DATA_BYTE ;;
  SET_USI_TO_SEND_ACK ;;
  ret false.

(** The engine after a write of the one-byte frame DELFLASH and a repeated
    start, with the read address in USIDR. *)
Definition sample_read_request : World :=
  with_usi (set_USIDR 0x17) (with_twi (rx_push sample_cfg 0x83) sample_started).

(** What the engine leaves alone while it moves bytes out of the TX ring. *)
Definition tx_frame (w w' : World) : Prop :=
  rx_buffer (twi w') = rx_buffer (twi w) /\ rx_head (twi w') = rx_head (twi w) /\
  rx_tail (twi w') = rx_tail (twi w) /\ rx_byte_count (twi w') = rx_byte_count (twi w) /\
  command (twi w') = command (twi w) /\
  mem_pack w' = mem_pack w /\ events w' = events w.

(** The engine after the read address was acknowledged, with the reply of
    DELFLASH and a stale byte queued. *)
Definition sample_reply_queued : World :=
  with_twi (set_device_state STATE_SEND_DATA_BYTE)
    (world_of (transmit_reply sample_cfg [0x7C; 0x55] sample_world)).

(** The USI registers are what they were in [u]. *)
Definition usi_is (u : Usi) (w : World) : Prop := usi w = u.


(** ** The start side of [nb-usitwisl-if3.h] *)

Module GoodLineStart.

Definition UsiTwiDataInTransmitBuffer (d : GoodLine.Driver) : bool :=
  negb (GoodLine.tx_count d =? 0).

Definition SET_USI_SDA_AND_SCL_AS_OUTPUT (d : GoodLine.Driver) : GoodLine.Driver :=
  GoodLine.store (fun u => set_DDR_USI
    (wrap8 (Z.lor (DDR_USI u) (Z.lor (Z.shiftl 1 PORT_USI_SDA) (Z.shiftl 1 PORT_USI_SCL)))) u) d.

Definition SET_USI_SDA_AS_INPUT (d : GoodLine.Driver) : GoodLine.Driver :=
  GoodLine.store
    (fun u => set_DDR_USI (wrap8 (Z.land (DDR_USI u) (Z.lnot (Z.shiftl 1 PORT_USI_SDA)))) u) d.

Definition UsiTwiSlaveInit (d : GoodLine.Driver) : GoodLine.Driver :=
  let d1 := GoodLine.FlushTwiBuffers d in
  let d2 := SET_USI_SDA_AND_SCL_AS_OUTPUT d1 in
  let d3 := GoodLine.store
              (fun u => set_PORT_USI (wrap8 (Z.lor (PORT_USI u) (Z.shiftl 1 PORT_USI_SCL))) u) d2 in
  let d4 := GoodLine.store
              (fun u => set_PORT_USI (wrap8 (Z.lor (PORT_USI u) (Z.shiftl 1 PORT_USI_SDA))) u) d3 in
  let d5 := SET_USI_SDA_AS_INPUT d4 in
  GoodLine.SET_USI_TO_WAIT_FOR_START_COND_AND_ADDRESS d5.

(** [UsiStartHandler], with the same busy-wait as [TwiStartHandler] of
    [timonel.c]: [None] when the wait is never left.  [reads] and [pin] are
    what the handler reads from the port, as for [start_wait]. *)
Definition UsiStartHandler (reads : list Z) (pin : Z) (d : GoodLine.Driver)
    : option GoodLine.Driver :=
  let d1 := GoodLine.set_device_state GoodLine.STATE_CHECK_ADDRESS d in
  let d2 := SET_USI_SDA_AS_INPUT d1 in
  match start_wait reads pin with
  | None => None
  | Some p =>
      let d3 := if Z.land p (Z.shiftl 1 PIN_USI_SDA) =? 0
                then GoodLine.store (set_USICR (wrap8 USICR_DETECT_TWI_RESTART)) d2
                else GoodLine.store (set_USICR (wrap8 USICR_DETECT_TWI_START)) d2 in
      Some (GoodLine.store
              (fun u => set_USISR (store_USISR USISR_SHIFT_8_ADDRESS_BITS (USISR u)) u) d3)
  end.

End GoodLineStart.

(** ** Vocabulary of the ring invariants *)

(** Every ring index lies inside its buffer: the accesses
    [rx_buffer[rx_head]], [rx_buffer[rx_tail]], [tx_buffer[tx_head]] and
    [tx_buffer[tx_tail]] stay inside the arrays. *)
Definition ring_indices_ok (cfg : Config) (t : Twi) : Prop :=
  0 <= rx_head t < TWI_RX_BUFFER_SIZE cfg /\
  0 <= rx_tail t < TWI_RX_BUFFER_SIZE cfg /\
  0 <= tx_head t < TWI_TX_BUFFER_SIZE cfg /\
  0 <= tx_tail t < TWI_TX_BUFFER_SIZE cfg.

(** The invariant that carries it through the calls: in the listing of the
    arrays the buffers keep the sizes they were declared with, and every
    index lies inside its buffer. *)
Definition rings_in_bounds (cfg : Config) (w : World) : Prop :=
  let t := twi w in
  Z.of_nat (length (rx_buffer t)) = TWI_RX_BUFFER_SIZE cfg /\
  Z.of_nat (length (tx_buffer t)) = TWI_TX_BUFFER_SIZE cfg /\
  length (command t) = Z.to_nat (MST_PACKET_SIZE cfg * 2) /\
  0 <= rx_head t < TWI_RX_BUFFER_SIZE cfg /\
  0 <= rx_tail t < TWI_RX_BUFFER_SIZE cfg /\
  0 <= tx_head t < TWI_TX_BUFFER_SIZE cfg /\
  0 <= tx_tail t < TWI_TX_BUFFER_SIZE cfg /\
  0 <= rx_byte_count t < 256.

(** The main loop after the master has written the one-byte frame
    GETTMNLV. *)
Definition sample_after_write : Main :=
  play sample_cfg [BusStart; BusByte 0x16; BusByte 0; BusByte 0x82]
       (advance sample_cfg 0 sample_power_on).

(** The calls of the overflow handler of [nb-usitwisl-if3.h] that return
    before its last statement. *)
Definition returns_early (d : GoodLine.Driver) : bool :=
  match GoodLine.device_state d with
  | GoodLine.STATE_CHECK_ACK_AFTER_SEND_DATA =>
      negb (USIDR (GoodLine.regs d) =? 0) || (GoodLine.tx_count d =? 0)
  | GoodLine.STATE_SEND_DATA => GoodLine.tx_count d =? 0
  | _ => false
  end.

(** A driver whose TX ring is empty, about to load a reply byte. *)
Definition sample_driver : GoodLine.Driver :=
  GoodLine.set_device_state GoodLine.STATE_SEND_DATA (GoodLine.empty_driver 16 16).

(** The RX ring of [nb-usitwisl-if3.h] after an overrun: it holds [l] and
    counts one byte more. *)
Definition gl_rx_over (size : Z) (d : GoodLine.Driver) (l : list Z) : Prop :=
  ring_view size (GoodLine.rx_buffer d) (GoodLine.rx_tail d) l /\
  GoodLine.rx_head d = (GoodLine.rx_tail d + Z.of_nat (length l)) mod size /\
  GoodLine.rx_count d = Z.of_nat (length l) + 1 /\
  Z.of_nat (length l) + 1 < 256.

(** A driver whose sixteen-slot RX ring is full. *)
Definition sample_full_driver : GoodLine.Driver :=
  GoodLine.push_all 16 sample_16_bytes (GoodLine.empty_driver 16 16).

(** A driver with a pending start condition, in the state that waits for a
    byte. *)
Definition sample_pending_start : GoodLine.Driver :=
  GoodLine.with_regs (set_USISR 0x80)
    (GoodLine.set_device_state GoodLine.STATE_WAIT_DATA_RECEPTION (GoodLine.empty_driver 16 16)).

(** A driver as the C start-up code leaves it, with rings that were used. *)
Definition sample_used_driver : GoodLine.Driver :=
  GoodLine.mkDriver GoodLine.STATE_SEND_DATA (repeat 7 16) 3 9 6 (repeat 9 16) 5 2 3 sample_usi.

(** ** Vocabulary of a page upload *)






(** ** Vocabulary of a whole session *)

(** The identification of the bootloader as the engine sees it: a start
    condition, the write of the one-byte frame GETTMNLV, a repeated start, the
    read address, and the read of the twelve reply bytes that the master ends
    with NACK.  The result is what the master has read and the value the
    last call of the overflow handler returned.  [reads1], [pin1] and
    [reads2], [pin2] are what the two start handlers read from the port. *)
Definition identify_session (cfg : Config) (reads1 : list Z) (pin1 : Z)
    (reads2 : list Z) (pin2 : Z) : M (list Z * bool) :=
  TwiStartHandler reads1 pin1 ;;
  master_write_transaction cfg (2 * TWI_ADDR cfg) [GETTMNLV cfg] ;;
  TwiStartHandler reads2 pin2 ;;
  shifted_in (2 * TWI_ADDR cfg + 1) ;;
  UsiOverflowHandler cfg ;;
  master_reads cfg 12.

(** ** Arithmetic of the machine integers *)

Lemma wrap8_range x : 0 <= wrap8 x < 256.
Proof. unfold wrap8. apply Z.mod_pos_bound. lia. Qed.

Lemma wrap16_range x : 0 <= wrap16 x < 65536.
Proof. unfold wrap16. apply Z.mod_pos_bound. lia. Qed.

Lemma wrap8_small x : 0 <= x < 256 -> wrap8 x = x.
Proof. intros. unfold wrap8. apply Z.mod_small. lia. Qed.

Lemma wrap16_small x : 0 <= x < 65536 -> wrap16 x = x.
Proof. intros. unfold wrap16. apply Z.mod_small. lia. Qed.

Lemma wrap8_idem x : wrap8 (wrap8 x) = wrap8 x.
Proof. apply wrap8_small, wrap8_range. Qed.

Lemma wrap8_add_l a b : wrap8 (wrap8 a + b) = wrap8 (a + b).
Proof. unfold wrap8. apply Zplus_mod_idemp_l. Qed.

Lemma wrap8_add_r a b : wrap8 (a + wrap8 b) = wrap8 (a + b).
Proof. unfold wrap8. apply Zplus_mod_idemp_r. Qed.

(** [a + b] and [a | b] agree when no bit is set in both. *)
Lemma add_lor_disjoint a b : Z.land a b = 0 -> a + b = Z.lor a b.
Proof.
  intros H. rewrite Z.add_nocarry_lxor by exact H. apply Z.lxor_lor. exact H.
Qed.

Lemma land_C000_small x : 0 <= x < 16384 -> Z.land 0xC000 x = 0.
Proof.
  intros Hx. apply Z.bits_inj'. intros n Hn.
  rewrite Z.land_spec, Z.bits_0.
  destruct (Z.ltb_spec n 14) as [Hlt | Hge].
  - change 0xC000 with (Z.shiftl 3 14).
    rewrite Z.shiftl_spec_low by exact Hlt. reflexivity.
  - replace (Z.testbit x n) with false; [apply andb_false_r |].
    symmetry. destruct (Z.eq_dec x 0) as [-> | Hx0]; [apply Z.bits_0 |].
    apply Z.bits_above_log2; [lia |].
    assert (Z.log2 x < 14); [| lia].
    apply Z.log2_lt_pow2; lia.
Qed.

(** ** The clock settings *)

(** The clock tweak and its restore touch [OSCCAL] and its saved copy
    only. *)
Lemma restore_clock_frame cfg w :
  twi (restore_clock cfg w) = twi w /\ usi (restore_clock cfg w) = usi w /\
  mem_pack (restore_clock cfg w) = mem_pack w /\ events (restore_clock cfg w) = events w.
Proof. unfold restore_clock. destruct (rc_oscillator cfg w); repeat split; reflexivity. Qed.

Lemma tweak_clock_frame cfg w :
  twi (tweak_clock cfg w) = twi w /\ usi (tweak_clock cfg w) = usi w /\
  mem_pack (tweak_clock cfg w) = mem_pack w /\ events (tweak_clock cfg w) = events w.
Proof.
  unfold tweak_clock.
  destruct (AUTO_CLK_TWEAK cfg || rc_oscillator cfg w), (rc_oscillator cfg w);
    repeat split; reflexivity.
Qed.

Lemma events_restore_clock cfg w : events (restore_clock cfg w) = events w.
Proof. apply restore_clock_frame. Qed.

Lemma events_tweak_clock cfg w : events (tweak_clock cfg w) = events w.
Proof. apply tweak_clock_frame. Qed.

(** ** The byte rings *)

Lemma pow2_of_land n : 0 < n -> Z.land n (n - 1) = 0 -> n = 2 ^ Z.log2 n.
Proof.
  intros Hn Hl.
  destruct (Z.log2_spec n Hn) as [Hlo Hhi].
  destruct (Z.eq_dec n (2 ^ Z.log2 n)) as [He | Hne]; [exact He | exfalso].
  assert (Hk : 0 <= Z.log2 n) by apply Z.log2_nonneg.
  assert (H1 : Z.testbit n (Z.log2 n) = true) by (apply Z.bit_log2; exact Hn).
  assert (H2 : Z.log2 (n - 1) = Z.log2 n).
  { apply Z.log2_unique; [exact Hk |]. rewrite <- Z.add_1_r in Hhi. lia. }
  assert (H3 : Z.testbit (n - 1) (Z.log2 n) = true).
  { rewrite <- H2. apply Z.bit_log2. lia. }
  assert (H4 : Z.testbit (Z.land n (n - 1)) (Z.log2 n) = true).
  { rewrite Z.land_spec, H1, H3. reflexivity. }
  rewrite Hl, Z.bits_0 in H4. discriminate.
Qed.

Lemma ring_mask size i : ring_size_ok size -> Z.land i (size - 1) = i mod size.
Proof.
  intros [[Hpos _] Hland].
  pose proof (pow2_of_land size Hpos Hland) as Hp.
  replace (size - 1) with (Z.ones (Z.log2 size)) by (rewrite Z.ones_equiv; lia).
  rewrite Z.land_ones by apply Z.log2_nonneg. rewrite <- Hp. reflexivity.
Qed.

Lemma ring_next size i : ring_size_ok size ->
  wrap8 (Z.land (i + 1) (size - 1)) = (i + 1) mod size.
Proof.
  intros Hs. rewrite ring_mask by exact Hs.
  destruct Hs as [[Hpos Hle] _].
  apply wrap8_small. pose proof (Z.mod_pos_bound (i + 1) size Hpos). lia.
Qed.

Lemma upd_nat_length a : forall i v, length (upd_nat a i v) = length a.
Proof. induction a as [| x a IH]; intros [| i] v; cbn; try reflexivity. rewrite IH. reflexivity. Qed.

Lemma nth_upd_nat_eq a : forall i v, (i < length a)%nat -> nth i (upd_nat a i v) 0 = v.
Proof.
  induction a as [| x a IH]; intros [| i] v Hi; cbn in *; try lia; try reflexivity.
  apply IH. lia.
Qed.

Lemma nth_upd_nat_ne a : forall i j v, i <> j -> nth j (upd_nat a i v) 0 = nth j a 0.
Proof.
  induction a as [| x a IH]; intros [| i] [| j] v Hij; cbn; try reflexivity; try congruence.
  apply IH. congruence.
Qed.

Lemma aset_length a i v : length (aset a i v) = length a.
Proof. apply upd_nat_length. Qed.

Lemma aget_aset_eq a i v : 0 <= i < Z.of_nat (length a) -> aget (aset a i v) i = v.
Proof. intros Hi. unfold aget, aset. apply nth_upd_nat_eq. lia. Qed.

Lemma aget_aset_ne a i j v : 0 <= i -> 0 <= j -> i <> j -> aget (aset a i v) j = aget a j.
Proof. intros Hi Hj Hij. unfold aget, aset. apply nth_upd_nat_ne. lia. Qed.

Lemma mod_shift_inj size s d :
  0 < size -> 0 <= d < size -> (s + d) mod size = s mod size -> d = 0.
Proof.
  intros Hs Hd He.
  pose proof (Z.div_mod (s + d) size ltac:(lia)) as H1.
  pose proof (Z.div_mod s size ltac:(lia)) as H2.
  rewrite He in H1.
  set (q := (s + d) / size - s / size).
  assert (Hq : d = size * q) by (unfold q; lia).
  assert (q = 0); [| subst q; lia].
  destruct (Z_lt_le_dec q 1) as [Hlt | Hge]; [| nia].
  destruct (Z_lt_le_dec (-1) q) as [Hgt | Hle]; [lia | nia].
Qed.

Lemma ring_slice_cons buf size start n :
  ring_slice buf size start (S n) =
  aget buf (start mod size) :: ring_slice buf size (start + 1) n.
Proof.
  unfold ring_slice. cbn [seq map]. rewrite Z.add_0_r. f_equal.
  rewrite <- seq_shift, map_map. apply map_ext. intros j. do 2 f_equal. lia.
Qed.

Lemma ring_slice_mod buf size start n :
  ring_slice buf size (start mod size) n = ring_slice buf size start n.
Proof.
  unfold ring_slice. apply map_ext. intros j. f_equal. apply Zplus_mod_idemp_l.
Qed.

Lemma ring_slice_snoc buf size start n b :
  0 < size -> Z.of_nat (length buf) = size -> Z.of_nat n < size ->
  ring_slice (aset buf ((start + Z.of_nat n) mod size) b) size start (S n) =
  ring_slice buf size start n ++ [b].
Proof.
  intros Hs Hlen Hn. unfold ring_slice.
  rewrite seq_S, map_app. cbn [map Nat.add]. f_equal.
  - apply map_ext_in. intros j Hj. apply in_seq in Hj.
    pose proof (Z.mod_pos_bound (start + Z.of_nat n) size Hs).
    pose proof (Z.mod_pos_bound (start + Z.of_nat j) size Hs).
    apply aget_aset_ne; try lia.
    intros He.
    assert (Z.of_nat n - Z.of_nat j = 0); [| lia].
    apply (mod_shift_inj size (start + Z.of_nat j)); [lia | lia |].
    rewrite <- He. f_equal. lia.
  - f_equal. apply aget_aset_eq.
    pose proof (Z.mod_pos_bound (start + Z.of_nat n) size Hs). lia.
Qed.

Lemma ring_view_empty size buf start :
  Z.of_nat (length buf) = size -> 0 <= start < size -> ring_view size buf start [].
Proof. intros Hl Hs. unfold ring_view. cbn. repeat split; try lia. Qed.

Lemma ring_view_snoc size buf start l b :
  ring_view size buf start l -> Z.of_nat (length l) < size ->
  ring_view size (aset buf ((start + Z.of_nat (length l)) mod size) b) start (l ++ [b]).
Proof.
  intros (Hlen & Hs & Hn & Hsl) Hlt. unfold ring_view.
  rewrite aset_length, length_app. cbn [length].
  replace (length l + 1)%nat with (S (length l)) by lia.
  repeat split; try lia.
  rewrite ring_slice_snoc by lia. rewrite Hsl. reflexivity.
Qed.

Lemma ring_view_pop size buf start b l :
  ring_view size buf start (b :: l) ->
  aget buf start = b /\ ring_view size buf ((start + 1) mod size) l.
Proof.
  intros (Hlen & Hs & Hn & Hsl). cbn [length] in *.
  rewrite ring_slice_cons in Hsl. injection Hsl as Hb Hrest.
  rewrite Z.mod_small in Hb by lia.
  split; [exact Hb |].
  unfold ring_view. rewrite ring_slice_mod.
  pose proof (Z.mod_pos_bound (start + 1) size ltac:(lia)).
  repeat split; try lia. exact Hrest.
Qed.

Lemma mod_succ_l size a : 0 < size -> (a mod size + 1) mod size = (a + 1) mod size.
Proof. intros Hs. apply Zplus_mod_idemp_l. Qed.

Lemma mod_add_mod_l size a b : (a mod size + b) mod size = (a + b) mod size.
Proof. apply Zplus_mod_idemp_l. Qed.

Section TimonelRings.
Variable cfg : Config.

Section Tx.
Hypothesis Hsize : ring_size_ok (TWI_TX_BUFFER_SIZE cfg).

Lemma tx_holds_empty t :
  Z.of_nat (length (tx_buffer t)) = TWI_TX_BUFFER_SIZE cfg ->
  0 <= tx_tail t < TWI_TX_BUFFER_SIZE cfg ->
  tx_head t = tx_tail t ->
  tx_holds cfg t [].
Proof.
  intros Hlen Ht Hh. destruct Hsize as [[Hpos _] _].
  unfold tx_holds. cbn [length Z.of_nat]. rewrite Z.add_0_r, (Z.mod_small (tx_tail t)) by lia.
  split; [| repeat split; lia].
  apply ring_view_empty; [exact Hlen |]. apply Z.mod_pos_bound. lia.
Qed.

Lemma tx_holds_nil_inv t : tx_holds cfg t [] -> tx_head t = tx_tail t.
Proof.
  intros (_ & Ht & Hh & _). cbn [length Z.of_nat] in Hh.
  rewrite Z.add_0_r, Z.mod_small in Hh by lia. exact Hh.
Qed.

Lemma tx_enqueue b w l :
  tx_holds cfg (twi w) l ->
  Z.of_nat (length l) + 1 < TWI_TX_BUFFER_SIZE cfg ->
  exists w', UsiTwiTransmitByte cfg b w = Done tt w' /\
             tx_holds cfg (twi w') (l ++ [wrap8 b]).
Proof.
  intros (Hv & Ht & Hh & Hn) Hroom.
  pose proof Hsize as [[Hpos _] _].
  set (size := TWI_TX_BUFFER_SIZE cfg) in *.
  assert (Hnext : wrap8 (Z.land (tx_head (twi w) + 1) (TWI_TX_BUFFER_MASK cfg)) =
                  (tx_tail (twi w) + Z.of_nat (length l) + 1) mod size).
  { unfold TWI_TX_BUFFER_MASK. fold size. rewrite ring_next by exact Hsize.
    rewrite Hh. apply mod_succ_l. exact Hpos. }
  unfold UsiTwiTransmitByte. rewrite Hnext.
  cbn [twi with_twi set_tx_head tx_tail].
  destruct (Z.eqb_spec ((tx_tail (twi w) + Z.of_nat (length l) + 1) mod size) (tx_tail (twi w)))
    as [He | Hne].
  - exfalso.
    assert (Z.of_nat (length l) + 1 = 0); [| lia].
    apply (mod_shift_inj size (tx_tail (twi w))); [lia | lia |].
    rewrite Z.add_assoc, He. symmetry. apply Z.mod_small. lia.
  - eexists. split; [reflexivity |].
    unfold tx_holds. fold size.
    cbn [twi with_twi set_tx_head set_tx_buffer tx_buffer tx_tail tx_head].
    rewrite length_app. cbn [length].
    split; [| split; [lia | split; [f_equal; lia | lia]]].
    replace ((tx_tail (twi w) + Z.of_nat (length l) + 1) mod size)
      with (((tx_tail (twi w) + 1) mod size + Z.of_nat (length l)) mod size)
      by (rewrite mod_add_mod_l; f_equal; lia).
    apply ring_view_snoc; [exact Hv | lia].
Qed.

Lemma tx_enqueue_all : forall s w l,
  tx_holds cfg (twi w) l ->
  Z.of_nat (length l) + Z.of_nat (length s) < TWI_TX_BUFFER_SIZE cfg ->
  exists w', transmit_reply cfg s w = Done tt w' /\
             tx_holds cfg (twi w') (l ++ map wrap8 s).
Proof.
  induction s as [| b s IH]; intros w l Hl Hroom.
  - exists w. cbn [map]. rewrite app_nil_r. split; [reflexivity | exact Hl].
  - cbn [length] in Hroom.
    destruct (tx_enqueue b w l Hl) as (w1 & Hb & H1); [lia |].
    destruct (IH w1 (l ++ [wrap8 b]) H1) as (w2 & Hs & H2).
    { rewrite length_app. cbn [length]. lia. }
    exists w2. split.
    + cbn [transmit_reply]. unfold bind. rewrite Hb. exact Hs.
    + cbn [map]. rewrite <- app_assoc in H2. exact H2.
Qed.

Lemma tx_dequeue b l t :
  tx_holds cfg t (b :: l) ->
  exists t', tx_pop cfg t = Some (b, t') /\ tx_holds cfg t' l.
Proof.
  intros (Hv & Ht & Hh & Hn).
  pose proof Hsize as [[Hpos _] _].
  set (size := TWI_TX_BUFFER_SIZE cfg) in *.
  cbn [length] in *.
  destruct (ring_view_pop _ _ _ _ _ Hv) as [Hb Hv'].
  unfold tx_pop.
  destruct (Z.eqb_spec (tx_head t) (tx_tail t)) as [He | Hne].
  - exfalso.
    assert (Z.of_nat (S (length l)) = 0); [| lia].
    apply (mod_shift_inj size (tx_tail t)); [lia | lia |].
    rewrite <- Hh, He. symmetry. apply Z.mod_small. lia.
  - cbn [negb]. unfold TWI_TX_BUFFER_MASK. fold size. rewrite ring_next by exact Hsize.
    eexists. split; [rewrite Hb; reflexivity |].
    unfold tx_holds. fold size. cbn [set_tx_tail tx_buffer tx_tail tx_head].
    pose proof (Z.mod_pos_bound (tx_tail t + 1) size Hpos).
    split; [exact Hv' | split; [lia | split; [| lia]]].
    rewrite Hh, mod_add_mod_l. f_equal. lia.
Qed.

Lemma tx_dequeue_all : forall l1 l2 t,
  tx_holds cfg t (l1 ++ l2) ->
  exists t', tx_pop_n cfg (length l1) t = (l1, t') /\ tx_holds cfg t' l2.
Proof.
  induction l1 as [| b l1 IH]; intros l2 t Hl.
  - exists t. split; [reflexivity | exact Hl].
  - destruct (tx_dequeue b (l1 ++ l2) t Hl) as (t1 & Hp & H1).
    destruct (IH l2 t1 H1) as (t2 & Hn & H2).
    exists t2. split; [| exact H2].
    cbn [length tx_pop_n]. rewrite Hp, Hn. reflexivity.
Qed.

End Tx.

Section Rx.
Hypothesis Hsize : ring_size_ok (TWI_RX_BUFFER_SIZE cfg).

Lemma rx_holds_empty t :
  Z.of_nat (length (rx_buffer t)) = TWI_RX_BUFFER_SIZE cfg ->
  0 <= rx_tail t < TWI_RX_BUFFER_SIZE cfg ->
  rx_head t = rx_tail t ->
  rx_byte_count t = 0 ->
  rx_holds cfg t [].
Proof.
  intros Hlen Ht Hh Hc. destruct Hsize as [[Hpos _] _].
  unfold rx_holds. cbn [length Z.of_nat]. rewrite Z.add_0_r, (Z.mod_small (rx_tail t)) by lia.
  split; [| repeat split; lia].
  apply ring_view_empty; [exact Hlen |]. apply Z.mod_pos_bound. lia.
Qed.

Lemma rx_enqueue b t l :
  rx_holds cfg t l ->
  Z.of_nat (length l) < TWI_RX_BUFFER_SIZE cfg ->
  Z.of_nat (length l) + 1 < 256 ->
  rx_holds cfg (rx_push cfg b t) (l ++ [b]).
Proof.
  intros (Hv & Ht & Hh & Hc & Hn) Hroom Hcnt.
  pose proof Hsize as [[Hpos _] _].
  set (size := TWI_RX_BUFFER_SIZE cfg) in *.
  unfold rx_push, rx_holds. fold size.
  cbn [set_rx_byte_count set_rx_head set_rx_buffer rx_buffer rx_head rx_tail rx_byte_count].
  unfold TWI_RX_BUFFER_MASK. fold size. rewrite ring_next by exact Hsize.
  rewrite length_app. cbn [length].
  rewrite Hh, mod_succ_l by exact Hpos.
  split; [| split; [lia | split; [f_equal; lia | split; [| lia]]]].
  - replace ((rx_tail t + Z.of_nat (length l) + 1) mod size)
      with (((rx_tail t + 1) mod size + Z.of_nat (length l)) mod size)
      by (rewrite mod_add_mod_l; f_equal; lia).
    apply ring_view_snoc; [exact Hv | lia].
  - rewrite Hc. rewrite wrap8_small by lia. lia.
Qed.

Lemma rx_enqueue_all : forall s t l,
  rx_holds cfg t l ->
  Z.of_nat (length l) + Z.of_nat (length s) <= TWI_RX_BUFFER_SIZE cfg ->
  Z.of_nat (length l) + Z.of_nat (length s) < 256 ->
  rx_holds cfg (rx_push_all cfg s t) (l ++ s).
Proof.
  induction s as [| b s IH]; intros t l Hl Hroom Hcnt.
  - cbn. rewrite app_nil_r. exact Hl.
  - cbn [length] in *. cbn [rx_push_all fold_left].
    replace (l ++ b :: s) with ((l ++ [b]) ++ s) by (rewrite <- app_assoc; reflexivity).
    apply IH.
    + apply rx_enqueue; [exact Hl | lia | lia].
    + rewrite length_app. cbn [length]. lia.
    + rewrite length_app. cbn [length]. lia.
Qed.

Lemma firstn_aset_snoc : forall c i b,
  (i < length c)%nat ->
  firstn (S i) (upd_nat c i b) = firstn i c ++ [b].
Proof.
  induction c as [| x c IH]; intros [| i] b Hi; cbn in *; try lia; try reflexivity.
  rewrite IH by lia. reflexivity.
Qed.

Lemma rx_dequeue b l i w :
  rx_holds cfg (twi w) (b :: l) ->
  0 <= i < Z.of_nat (length (command (twi w))) ->
  exists w', rx_drain_step cfg i w = Done tt w' /\
             rx_holds cfg (twi w') l /\
             command (twi w') = aset (command (twi w)) i b.
Proof.
  intros (Hv & Ht & Hh & Hc & Hn) Hi.
  pose proof Hsize as [[Hpos _] _].
  set (size := TWI_RX_BUFFER_SIZE cfg) in *.
  cbn [length] in *.
  destruct (ring_view_pop _ _ _ _ _ Hv) as [Hb Hv'].
  unfold rx_drain_step, rx_wait. rewrite Hc.
  replace (Z.of_nat (S (length l)) =? 0) with false by (symmetry; apply Z.eqb_neq; lia).
  cbn [set_rx_byte_count set_rx_tail rx_tail rx_buffer command].
  unfold TWI_RX_BUFFER_MASK. fold size. rewrite ring_next by exact Hsize.
  replace (i <? Z.of_nat (length (command (twi w)))) with true by (symmetry; apply Z.ltb_lt; lia).
  eexists. split; [reflexivity |].
  cbn [twi with_twi set_command command]. split; [| rewrite Hb; reflexivity].
  unfold rx_holds. fold size.
  cbn [set_command set_rx_byte_count set_rx_tail rx_tail rx_buffer rx_head rx_byte_count].
  pose proof (Z.mod_pos_bound (rx_tail (twi w) + 1) size Hpos).
  split; [exact Hv' | split; [lia | split; [| split; [| lia]]]].
  - rewrite Hh, mod_add_mod_l. f_equal. lia.
  - rewrite wrap8_small by lia. lia.
Qed.

Lemma rx_dequeue_all : forall l w i,
  rx_holds cfg (twi w) l ->
  (i + length l <= length (command (twi w)))%nat ->
  exists w', rx_drain cfg (length l) (Z.of_nat i) w = Done tt w' /\
             rx_holds cfg (twi w') [] /\
             firstn (i + length l) (command (twi w')) = firstn i (command (twi w)) ++ l.
Proof.
  induction l as [| b l IH]; intros w i Hl Hlen.
  - exists w. cbn [length rx_drain]. rewrite Nat.add_0_r, app_nil_r.
    split; [reflexivity |]. split; [exact Hl | reflexivity].
  - cbn [length] in Hlen.
    destruct (rx_dequeue b l (Z.of_nat i) w Hl) as (w1 & Hs & H1 & Hcmd); [lia |].
    destruct (IH w1 (S i) H1) as (w2 & Hd & H2 & Hf).
    { rewrite Hcmd, aset_length. lia. }
    exists w2. split; [| split; [exact H2 |]].
    + cbn [length rx_drain]. unfold bind. rewrite Hs.
      replace (Z.of_nat i + 1) with (Z.of_nat (S i)) by lia. exact Hd.
    + cbn [length]. replace (i + S (length l))%nat with (S i + length l)%nat by lia.
      rewrite Hf, Hcmd. unfold aset. rewrite Nat2Z.id.
      rewrite firstn_aset_snoc by lia. rewrite <- app_assoc. reflexivity.
Qed.

End Rx.
End TimonelRings.

Section GoodLineRings.
Variable size : Z.
Hypothesis Hsize : ring_size_ok size.

Lemma gl_tx_enqueue b d l :
  gl_tx_holds size d l ->
  Z.of_nat (length l) < size -> Z.of_nat (length l) + 1 < 256 ->
  gl_tx_holds size (GoodLine.UsiTwiTransmitByte size b d) (l ++ [wrap8 b]).
Proof.
  intros (Hv & Hh & Hc & Hn) Hroom Hcnt.
  pose proof Hsize as [[Hpos _] _].
  unfold GoodLine.UsiTwiTransmitByte, GoodLine.tx_wait, gl_tx_holds. rewrite Hc.
  replace (Z.of_nat (length l) =? size) with false by (symmetry; apply Z.eqb_neq; lia).
  cbn [GoodLine.set_tx_count GoodLine.set_tx_buffer GoodLine.set_tx_head
       GoodLine.tx_buffer GoodLine.tx_head GoodLine.tx_tail GoodLine.tx_count].
  unfold GoodLine.TX_MASK. rewrite ring_next by exact Hsize.
  rewrite length_app. cbn [length].
  rewrite Hh, mod_succ_l by exact Hpos.
  split; [| split; [f_equal; lia | split; [| lia]]].
  - apply ring_view_snoc; [exact Hv | lia].
  - rewrite wrap8_small by lia. lia.
Qed.

Lemma gl_tx_enqueue_all : forall s d l,
  gl_tx_holds size d l ->
  Z.of_nat (length l) + Z.of_nat (length s) <= size ->
  Z.of_nat (length l) + Z.of_nat (length s) < 256 ->
  gl_tx_holds size (GoodLine.transmit_all size s d) (l ++ map wrap8 s).
Proof.
  induction s as [| b s IH]; intros d l Hl Hroom Hcnt.
  - cbn. rewrite app_nil_r. exact Hl.
  - cbn [length] in *. cbn [GoodLine.transmit_all fold_left map].
    replace (l ++ wrap8 b :: map wrap8 s) with ((l ++ [wrap8 b]) ++ map wrap8 s)
      by (rewrite <- app_assoc; reflexivity).
    apply IH.
    + apply gl_tx_enqueue; [exact Hl | lia | lia].
    + rewrite length_app. cbn [length]. lia.
    + rewrite length_app. cbn [length]. lia.
Qed.

Lemma gl_tx_dequeue b l d :
  gl_tx_holds size d (b :: l) ->
  exists d', GoodLine.tx_pop size d = (Some b, d') /\ gl_tx_holds size d' l.
Proof.
  intros (Hv & Hh & Hc & Hn).
  pose proof Hsize as [[Hpos _] _].
  cbn [length] in *.
  destruct (ring_view_pop _ _ _ _ _ Hv) as [Hb Hv'].
  unfold GoodLine.tx_pop. rewrite Hc.
  replace (Z.of_nat (S (length l)) =? 0) with false by (symmetry; apply Z.eqb_neq; lia).
  cbn [negb GoodLine.set_tx_count GoodLine.tx_buffer GoodLine.tx_tail].
  unfold GoodLine.TX_MASK. rewrite ring_next by exact Hsize.
  eexists. split; [rewrite Hb; reflexivity |].
  unfold gl_tx_holds.
  cbn [GoodLine.set_tx_count GoodLine.set_tx_tail
       GoodLine.tx_buffer GoodLine.tx_head GoodLine.tx_tail GoodLine.tx_count].
  split; [exact Hv' | split; [| split; [| lia]]].
  - rewrite Hh, mod_add_mod_l. f_equal. lia.
  - rewrite wrap8_small by lia. lia.
Qed.

Lemma gl_tx_dequeue_all : forall l1 l2 d,
  gl_tx_holds size d (l1 ++ l2) ->
  exists d', GoodLine.pop_n size (length l1) d = (l1, d') /\ gl_tx_holds size d' l2.
Proof.
  induction l1 as [| b l1 IH]; intros l2 d Hl.
  - exists d. split; [reflexivity | exact Hl].
  - destruct (gl_tx_dequeue b (l1 ++ l2) d Hl) as (d1 & Hp & H1).
    destruct (IH l2 d1 H1) as (d2 & Hn & H2).
    exists d2. split; [| exact H2].
    cbn [length GoodLine.pop_n]. rewrite Hp, Hn. reflexivity.
Qed.

Lemma gl_rx_enqueue b d l :
  gl_rx_holds size d l ->
  Z.of_nat (length l) < size -> Z.of_nat (length l) + 1 < 256 ->
  gl_rx_holds size (GoodLine.rx_push size b d) (l ++ [b]).
Proof.
  intros (Hv & Hh & Hc & Hn) Hroom Hcnt.
  pose proof Hsize as [[Hpos _] _].
  unfold GoodLine.rx_push, gl_rx_holds. rewrite Hc.
  replace (Z.of_nat (length l) <? size) with true by (symmetry; apply Z.ltb_lt; lia).
  cbn [GoodLine.set_rx_count GoodLine.set_rx_buffer GoodLine.set_rx_head
       GoodLine.rx_buffer GoodLine.rx_head GoodLine.rx_tail GoodLine.rx_count].
  unfold GoodLine.RX_MASK. rewrite ring_next by exact Hsize.
  rewrite length_app. cbn [length].
  rewrite Hh, mod_succ_l by exact Hpos.
  split; [| split; [f_equal; lia | split; [| lia]]].
  - apply ring_view_snoc; [exact Hv | lia].
  - rewrite wrap8_small by lia. lia.
Qed.

Lemma gl_rx_enqueue_all : forall s d l,
  gl_rx_holds size d l ->
  Z.of_nat (length l) + Z.of_nat (length s) <= size ->
  Z.of_nat (length l) + Z.of_nat (length s) < 256 ->
  gl_rx_holds size (GoodLine.push_all size s d) (l ++ s).
Proof.
  induction s as [| b s IH]; intros d l Hl Hroom Hcnt.
  - cbn. rewrite app_nil_r. exact Hl.
  - cbn [length] in *. cbn [GoodLine.push_all fold_left].
    replace (l ++ b :: s) with ((l ++ [b]) ++ s) by (rewrite <- app_assoc; reflexivity).
    apply IH.
    + apply gl_rx_enqueue; [exact Hl | lia | lia].
    + rewrite length_app. cbn [length]. lia.
    + rewrite length_app. cbn [length]. lia.
Qed.

Lemma gl_rx_dequeue b l d :
  gl_rx_holds size d (b :: l) ->
  exists d', GoodLine.UsiTwiReceiveByte size d = (b, d') /\ gl_rx_holds size d' l.
Proof.
  intros (Hv & Hh & Hc & Hn).
  pose proof Hsize as [[Hpos _] _].
  cbn [length] in *.
  destruct (ring_view_pop _ _ _ _ _ Hv) as [Hb Hv'].
  unfold GoodLine.UsiTwiReceiveByte, GoodLine.rx_wait. rewrite Hc.
  replace (Z.of_nat (S (length l)) =? 0) with false by (symmetry; apply Z.eqb_neq; lia).
  cbn [GoodLine.set_rx_count GoodLine.rx_buffer GoodLine.rx_tail].
  unfold GoodLine.RX_MASK. rewrite ring_next by exact Hsize.
  eexists. split; [rewrite Hb; reflexivity |].
  unfold gl_rx_holds.
  cbn [GoodLine.set_rx_count GoodLine.set_rx_tail
       GoodLine.rx_buffer GoodLine.rx_head GoodLine.rx_tail GoodLine.rx_count].
  split; [exact Hv' | split; [| split; [| lia]]].
  - rewrite Hh, mod_add_mod_l. f_equal. lia.
  - rewrite wrap8_small by lia. lia.
Qed.

Lemma gl_rx_dequeue_all : forall l1 l2 d,
  gl_rx_holds size d (l1 ++ l2) ->
  exists d', GoodLine.receive_n size (length l1) d = (l1, d') /\ gl_rx_holds size d' l2.
Proof.
  induction l1 as [| b l1 IH]; intros l2 d Hl.
  - exists d. split; [reflexivity | exact Hl].
  - destruct (gl_rx_dequeue b (l1 ++ l2) d Hl) as (d1 & Hp & H1).
    destruct (IH l2 d1 H1) as (d2 & Hn & H2).
    exists d2. split; [| exact H2].
    cbn [length GoodLine.receive_n]. rewrite Hp, Hn. reflexivity.
Qed.

End GoodLineRings.

Lemma map_wrap8_bytes s : all_bytes s -> map wrap8 s = s.
Proof.
  induction 1 as [| b s Hb _ IH]; [reflexivity |].
  cbn [map]. rewrite IH, wrap8_small by exact Hb. reflexivity.
Qed.

(** Transmitting touches nothing but the TX ring. *)
Lemma transmit_reply_frame cfg : forall s w w',
  transmit_reply cfg s w = Done tt w' ->
  mem_pack w' = mem_pack w /\ events w' = events w /\ usi w' = usi w.
Proof.
  induction s as [| b s IH]; intros w w' Hrun.
  - cbn in Hrun. injection Hrun as <-. repeat split.
  - cbn [transmit_reply] in Hrun. unfold bind in Hrun.
    destruct (UsiTwiTransmitByte cfg b w) as [[] w1 | w1 | w1] eqn:Hb; try discriminate.
    destruct (IH w1 w' Hrun) as (Hm & He & Hu).
    unfold UsiTwiTransmitByte in Hb.
    match type of Hb with context [if ?c then _ else _] => destruct c end; [discriminate |].
    injection Hb as <-. rewrite Hm, He, Hu. repeat split.
Qed.

(** ** The WRITPAGE handler *)

(** Unfolds the state-passing combinators and the field updates. *)
Ltac run_m :=
  cbv beta iota delta
    [bind act ret boot_page_fill boot_page_erase boot_page_write emit
     with_mem_pack with_twi with_usi
     set_app_reset_lsb set_app_reset_msb set_page_ix set_page_addr set_flag set_flags set_events
     mem_pack page_addr page_ix flags app_reset_lsb app_reset_msb
     twi usi pgm low_fuse OSCCAL events].

Lemma ix_after_wrap ix n : (0 < n)%nat -> ix_after ix n = wrap8 (ix + 2 * Z.of_nat n).
Proof.
  revert ix. induction n as [| n IH]; intros ix Hn; [lia |].
  destruct n as [| n'].
  - simpl. reflexivity.
  - change (ix_after ix (S (S n'))) with (ix_after (wrap8 (ix + 2)) (S n')).
    rewrite IH by lia. rewrite wrap8_add_l. f_equal. lia.
Qed.

Lemma fill_checksum_sum cmd : forall n i chk,
  0 <= chk < 256 ->
  fill_checksum cmd (Z.of_nat i) chk n = wrap8 (chk + sum_from cmd i (2 * n)).
Proof.
  induction n as [| n IH]; intros i chk Hc.
  - simpl. unfold sum_from. simpl. rewrite Z.add_0_r. symmetry. apply wrap8_small. exact Hc.
  - simpl fill_checksum.
    replace (Z.of_nat i + 2) with (Z.of_nat (S (S i))) by lia.
    rewrite IH by apply wrap8_range.
    rewrite wrap8_add_l, (Z.add_comm chk), <- Z.add_assoc, wrap8_add_l.
    unfold sum_from. replace (2 * S n)%nat with (S (S (2 * n))) by lia.
    change (seq i (S (S (2 * n)))) with (i :: S i :: seq (S (S i)) (2 * n)).
    cbn [map fold_right].
    replace (Z.of_nat (S i)) with (Z.of_nat i + 1) by lia.
    f_equal. lia.
Qed.

Section WritPage.

Variable cfg : Config.

(** [n] rounds of a fill loop that ends exactly at [MST_PACKET_SIZE + 1]. *)
Lemma writpage_fill_loop_run : forall n fuel cmd i chk w,
  (n < fuel)%nat -> 0 <= i -> i + 2 * Z.of_nat n = MST_PACKET_SIZE cfg + 1 ->
  MST_PACKET_SIZE cfg <= 254 ->
  writpage_fill_loop cfg fuel cmd i chk w =
  Done (fill_checksum cmd i chk n)
       (after_fills w (ix_after (page_ix (mem_pack w)) n)
          (fill_words cmd (page_addr (mem_pack w)) (page_ix (mem_pack w)) i n)).
Proof.
  induction n as [| n IH]; intros fuel cmd i chk w Hf Hi Hn HM;
    (destruct fuel as [| fuel]; [lia |]); simpl writpage_fill_loop.
  - replace (i <? MST_PACKET_SIZE cfg + 1) with false by (symmetry; apply Z.ltb_ge; lia).
    unfold ret, after_fills. simpl. rewrite app_nil_r.
    destruct w as [t u [pa ix fl l m] p f o e]. reflexivity.
  - replace (i <? MST_PACKET_SIZE cfg + 1) with true by (symmetry; apply Z.ltb_lt; lia).
    unfold bind at 1. unfold writpage_fill_word.
    cbn [bind boot_page_fill act ret].
    rewrite (wrap8_small (i + 2)) by lia.
    rewrite IH by (try lia).
    cbn. unfold after_fills. cbn. rewrite <- app_assoc. reflexivity.
Qed.

Hypothesis Hpk : packet_size_ok cfg.

Lemma half_packet : exists h : nat, (1 <= h <= 127)%nat /\
  MST_PACKET_SIZE cfg = 2 * Z.of_nat h /\ Z.to_nat (MST_PACKET_SIZE cfg / 2) = h /\
  Z.to_nat (MST_PACKET_SIZE cfg) = (2 * h)%nat.
Proof.
  destruct Hpk as [He Hr].
  apply Z.even_spec in He. destruct He as [k Hk].
  exists (Z.to_nat k). rewrite Hk.
  replace (2 * k / 2) with k by (symmetry; rewrite Z.mul_comm; apply Z.div_mul; lia).
  repeat split; lia.
Qed.

(** What [Reply_WRITPAGE] does before it transmits its reply. *)
Lemma Reply_WRITPAGE_frame_eq cmd w :
  Reply_WRITPAGE_frame cfg cmd w =
  Done (writpage_reply cfg cmd (mem_pack w))
       (set_events (events w ++ writpage_fills cfg cmd (mem_pack w))
          (with_mem_pack (fun _ => writpage_mem_pack cfg cmd (mem_pack w)) w)).
Proof.
  destruct half_packet as (h & Hh & HM & Hh2 & HMn).
  destruct w as [t u [pa ix fl lsb msb] p f o e].
  unfold Reply_WRITPAGE_frame, writpage_reply, writpage_mem_pack, writpage_fills,
    writpage_refused, at_reset_page, set_events, with_mem_pack.
  run_m. rewrite Hh2.
  destruct (wrap16 (pa + ix) =? RESET_PAGE cfg) eqn:Hreset.
  - (* the reset page *)
    assert (Hloop : forall w0,
      writpage_fill_loop cfg 256 cmd 3 (wrap8 (0 + wrap8 (aget cmd 2 + aget cmd 1))) w0 =
      Done (sum8 (payload cfg cmd))
           (after_fills w0 (ix_after (page_ix (mem_pack w0)) (h - 1))
              (fill_words cmd (page_addr (mem_pack w0)) (page_ix (mem_pack w0)) 3 (h - 1)))).
    { intros w0. rewrite (writpage_fill_loop_run (h - 1)); [| try lia ..].
      f_equal. change 3 with (Z.of_nat 3). rewrite fill_checksum_sum by apply wrap8_range.
      unfold sum8, payload. rewrite HMn.
      replace (2 * h)%nat with (S (S (2 * (h - 1)))) by lia.
      change (seq 1 (S (S (2 * (h - 1))))) with (1%nat :: 2%nat :: seq 3 (2 * (h - 1))).
      cbn [map fold_right]. unfold sum_from.
      rewrite Z.add_0_l, wrap8_add_l, wrap8_add_l. f_equal.
      change (Z.of_nat 1) with 1. change (Z.of_nat 2) with 2. lia. }
    assert (Hix : ix_after (wrap8 (ix + 2)) (h - 1) = wrap8 (ix + MST_PACKET_SIZE cfg)).
    { change (ix_after (wrap8 (ix + 2)) (h - 1)) with (ix_after ix (S (h - 1))).
      rewrite ix_after_wrap by lia. f_equal. lia. }
    destruct (AUTO_PAGE_ADDR cfg);
      run_m; rewrite Hloop; unfold after_fills; run_m; rewrite Hix;
      destruct (negb (sum8 (payload cfg cmd) =? aget cmd (MST_PACKET_SIZE cfg + 1))
                || CHECK_PAGE_IX cfg && (wrap8 (ix + MST_PACKET_SIZE cfg) >? SPM_PAGESIZE cfg));
      run_m; unfold reset_jump; rewrite <- app_assoc; reflexivity.
  - (* any other page *)
    rewrite (writpage_fill_loop_run h) by lia.
    assert (Hchk : fill_checksum cmd 1 0 h = sum8 (payload cfg cmd)).
    { change 1 with (Z.of_nat 1). rewrite fill_checksum_sum by lia.
      rewrite Z.add_0_l, <- HMn. reflexivity. }
    rewrite Hchk.
    unfold after_fills. run_m.
    rewrite ix_after_wrap by lia. replace (2 * Z.of_nat h) with (MST_PACKET_SIZE cfg) by lia.
    destruct (negb (sum8 (payload cfg cmd) =? aget cmd (MST_PACKET_SIZE cfg + 1))
                || CHECK_PAGE_IX cfg && (wrap8 (ix + MST_PACKET_SIZE cfg) >? SPM_PAGESIZE cfg));
      run_m; reflexivity.
Qed.

(** The whole handler transmits the reply of the frame. *)
Lemma Reply_WRITPAGE_eq cmd w :
  Reply_WRITPAGE cfg cmd w =
  transmit_reply cfg (writpage_reply cfg cmd (mem_pack w))
    (set_events (events w ++ writpage_fills cfg cmd (mem_pack w))
       (with_mem_pack (fun _ => writpage_mem_pack cfg cmd (mem_pack w)) w)).
Proof.
  unfold Reply_WRITPAGE, bind. rewrite Reply_WRITPAGE_frame_eq. reflexivity.
Qed.

End WritPage.

Lemma later_fill_misses_word0 pa ix d :
  0 <= pa < 65536 -> 0 <= ix < 256 -> wrap16 (pa + ix) = 0 -> 2 <= d <= 254 ->
  wrap16 (pa + wrap8 (ix + d)) <> 0.
Proof.
  unfold wrap8, wrap16. intros Hpa Hix H0 Hd.
  Z.div_mod_to_equations. lia.
Qed.

Lemma fill_words_miss_word0 cmd pa ix :
  0 <= pa < 65536 -> 0 <= ix < 256 -> wrap16 (pa + ix) = 0 ->
  forall n d i, 2 <= d -> d + 2 * Z.of_nat n <= 256 ->
  forallb fill_misses_word0 (fill_words cmd pa (wrap8 (ix + d)) i n) = true.
Proof.
  intros Hpa Hix H0. induction n as [| n IH]; intros d i Hd Hn; [reflexivity |].
  cbn [fill_words forallb fill_misses_word0].
  apply andb_true_intro. split.
  - apply negb_true_iff, Z.eqb_neq. apply later_fill_misses_word0; try assumption. lia.
  - rewrite wrap8_add_l. replace (ix + d + 2) with (ix + (d + 2)) by lia.
    apply IH; lia.
Qed.

Lemma reset_jump_lor cfg :
  2 <= TIMONEL_START cfg <= 0x8000 ->
  reset_jump cfg = Z.lor 0xC000 (TIMONEL_START cfg / 2 - 1).
Proof.
  intros H. unfold reset_jump.
  assert (Hx : 0 <= TIMONEL_START cfg / 2 - 1 < 16384).
  { Z.div_mod_to_equations. lia. }
  rewrite wrap16_small by lia.
  apply add_lor_disjoint, land_C000_small. exact Hx.
Qed.

Lemma testbit_set_flag fl n : 0 <= n < 8 ->
  bit_of (wrap8 (Z.lor fl (Z.shiftl 1 n))) n = true.
Proof.
  intros Hn. unfold bit_of, wrap8. change 256 with (2 ^ 8).
  rewrite Z.mod_pow2_bits_low by lia.
  rewrite Z.lor_spec, Z.shiftl_spec by lia.
  rewrite Z.sub_diag. change (Z.testbit 1 0) with true. apply orb_true_r.
Qed.

(** C1.  When a WRITPAGE frame arrives while the fill position is the reset
    page and AUTO_PAGE_ADDR is on, [Reply_WRITPAGE] saves [command[1]] and
    [command[2]] as the application's reset vector and fills flash word 0
    with the jump [0xC000 | (TIMONEL_START / 2 - 1)]; the only other fill
    calls are those of [command[3]] onwards, and none of them targets
    word 0. *)
Theorem WRITPAGE_reset_page_substitution (cfg : Config) (cmd : list Z) (w : World) :
  packet_size_ok cfg ->
  AUTO_PAGE_ADDR cfg = true ->
  RESET_PAGE cfg = 0 ->
  2 <= TIMONEL_START cfg <= 0x8000 ->
  0 <= page_addr (mem_pack w) < 65536 ->
  0 <= page_ix (mem_pack w) < 256 ->
  wrap16 (page_addr (mem_pack w) + page_ix (mem_pack w)) = 0 ->
  exists reply w' later,
    Reply_WRITPAGE_frame cfg cmd w = Done reply w' /\
    Reply_WRITPAGE cfg cmd w = transmit_reply cfg reply w' /\
    app_reset_lsb (mem_pack w') = aget cmd 1 /\
    app_reset_msb (mem_pack w') = aget cmd 2 /\
    events w' = events w ++ SpmFill 0 (Z.lor 0xC000 (TIMONEL_START cfg / 2 - 1)) :: later /\
    later = fill_words cmd (page_addr (mem_pack w)) (wrap8 (page_ix (mem_pack w) + 2)) 3
                       (Z.to_nat (MST_PACKET_SIZE cfg / 2) - 1) /\
    forallb fill_misses_word0 later = true.
Proof.
  intros Hpk Hauto Hrp Hts Hpa Hix Hzero.
  eexists _, _, _.
  split; [apply Reply_WRITPAGE_frame_eq; exact Hpk |].
  split; [apply Reply_WRITPAGE_eq; exact Hpk |].
  assert (Hat : at_reset_page cfg (mem_pack w) = true).
  { unfold at_reset_page. rewrite Hzero, Hrp. reflexivity. }
  unfold writpage_mem_pack, writpage_fills, set_events, with_mem_pack.
  rewrite Hat, Hauto, Hrp, (reset_jump_lor cfg Hts).
  cbn [mem_pack app_reset_lsb app_reset_msb events andb].
  repeat split.
  destruct (half_packet cfg Hpk) as (h & Hh & HM & Hh2 & HMn). rewrite Hh2.
  apply fill_words_miss_word0; try assumption; lia.
Qed.

Lemma WRITPAGE_reset_page_substitution_witness :
  exists reply w' later,
    Reply_WRITPAGE_frame sample_cfg sample_writpage sample_world = Done reply w' /\
    Reply_WRITPAGE sample_cfg sample_writpage sample_world = transmit_reply sample_cfg reply w' /\
    app_reset_lsb (mem_pack w') = 0x10 /\
    app_reset_msb (mem_pack w') = 0xC0 /\
    events w' = [] ++ SpmFill 0 0xCCFF :: later /\
    later = [SpmFill 2 0x0403; SpmFill 4 0x0605; SpmFill 6 0x0807] /\
    forallb fill_misses_word0 later = true.
Proof.
  apply (WRITPAGE_reset_page_substitution sample_cfg sample_writpage sample_world).
  - split; [reflexivity | simpl; lia].
  - reflexivity.
  - reflexivity.
  - simpl; lia.
  - simpl; lia.
  - simpl; lia.
  - reflexivity.
Defined.

(** C2.  When the trailing byte of a WRITPAGE frame is the 8-bit sum of its
    payload (and, under CHECK_PAGE_IX, the page index stays within the
    page), the reply is [ACKWTPAG] followed by that checksum and the flags
    are left as they were; with any other trailing byte the reply is
    [ACKWTPAG] followed by 0 and FL_DEL_FLASH is set. *)
Theorem WRITPAGE_checksum_reply (cfg : Config) (cmd : list Z) (w : World) :
  packet_size_ok cfg ->
  is_byte (ACKWTPAG cfg) ->
  0 <= FL_DEL_FLASH cfg < 8 ->
  exists reply w',
    Reply_WRITPAGE_frame cfg cmd w = Done reply w' /\
    Reply_WRITPAGE cfg cmd w = transmit_reply cfg reply w' /\
    (* the reply is what the handler appends to the TX ring *)
    (forall l,
       ring_size_ok (TWI_TX_BUFFER_SIZE cfg) ->
       tx_holds cfg (twi w) l ->
       Z.of_nat (length l) + 2 < TWI_TX_BUFFER_SIZE cfg ->
       exists w'',
         Reply_WRITPAGE cfg cmd w = Done tt w'' /\
         tx_holds cfg (twi w'') (l ++ reply) /\
         mem_pack w'' = mem_pack w' /\
         events w'' = events w') /\
    (aget cmd (MST_PACKET_SIZE cfg + 1) = sum8 (payload cfg cmd) ->
     (CHECK_PAGE_IX cfg = true -> page_ix (mem_pack w') <= SPM_PAGESIZE cfg) ->
     reply = [ACKWTPAG cfg; sum8 (payload cfg cmd)] /\
     flags (mem_pack w') = flags (mem_pack w)) /\
    (aget cmd (MST_PACKET_SIZE cfg + 1) <> sum8 (payload cfg cmd) ->
     reply = [ACKWTPAG cfg; 0] /\
     bit_of (flags (mem_pack w')) (FL_DEL_FLASH cfg) = true).
Proof.
  intros Hpk Hack Hfl.
  eexists _, _.
  split; [apply Reply_WRITPAGE_frame_eq; exact Hpk |].
  split; [apply Reply_WRITPAGE_eq; exact Hpk |].
  split.
  { intros l Hsize Hl Hroom.
    rewrite (Reply_WRITPAGE_eq cfg Hpk).
    set (w' := set_events _ _).
    destruct (tx_enqueue_all cfg Hsize (writpage_reply cfg cmd (mem_pack w)) w' l)
      as (w'' & Hrun & Hl'); [exact Hl | cbn [writpage_reply length]; lia |].
    exists w''. split; [exact Hrun |].
    destruct (transmit_reply_frame cfg _ _ _ Hrun) as (Hm & He & _).
    split; [| split; assumption].
    replace (map wrap8 (writpage_reply cfg cmd (mem_pack w)))
      with (writpage_reply cfg cmd (mem_pack w)) in Hl'; [exact Hl' |].
    unfold writpage_reply. cbn [map]. rewrite wrap8_idem. f_equal. f_equal.
    destruct (writpage_refused cfg cmd (mem_pack w)); [reflexivity |].
    unfold sum8. symmetry. apply wrap8_idem. }
  unfold writpage_reply, writpage_mem_pack, set_events, with_mem_pack, writpage_refused.
  cbn [mem_pack flags page_ix].
  rewrite (wrap8_small (ACKWTPAG cfg)) by exact Hack.
  split.
  - intros Hsum Hix.
    replace (sum8 (payload cfg cmd) =? aget cmd (MST_PACKET_SIZE cfg + 1)) with true
      by (symmetry; apply Z.eqb_eq; congruence).
    replace (CHECK_PAGE_IX cfg &&
             (wrap8 (page_ix (mem_pack w) + MST_PACKET_SIZE cfg) >? SPM_PAGESIZE cfg)) with false.
    + split; reflexivity.
    + symmetry. destruct (CHECK_PAGE_IX cfg); [| reflexivity].
      cbn [andb]. specialize (Hix eq_refl). rewrite Z.gtb_ltb. apply Z.ltb_ge. exact Hix.
  - intros Hsum.
    replace (sum8 (payload cfg cmd) =? aget cmd (MST_PACKET_SIZE cfg + 1)) with false
      by (symmetry; apply Z.eqb_neq; congruence).
    cbn [negb orb]. split; [reflexivity |].
    apply testbit_set_flag. exact Hfl.
Qed.

Lemma WRITPAGE_checksum_reply_witness :
  (exists reply w',
     Reply_WRITPAGE_frame sample_cfg sample_writpage sample_world = Done reply w' /\
     reply = [0x7A; 0xF1] /\ flags (mem_pack w') = 0) /\
  (exists reply w',
     Reply_WRITPAGE_frame sample_cfg sample_writpage_bad sample_world = Done reply w' /\
     reply = [0x7A; 0] /\ bit_of (flags (mem_pack w')) 2 = true).
Proof.
  split.
  - destruct (WRITPAGE_checksum_reply sample_cfg sample_writpage sample_world)
      as (reply & w' & Hf & _ & _ & Hok & _).
    + split; [reflexivity | simpl; lia].
    + unfold is_byte; simpl; lia.
    + simpl; lia.
    + exists reply, w'. split; [exact Hf |].
      apply Hok; [reflexivity |].
      intros _. rewrite Reply_WRITPAGE_frame_eq in Hf by (split; [reflexivity | simpl; lia]).
      inversion Hf. vm_compute. discriminate.
  - destruct (WRITPAGE_checksum_reply sample_cfg sample_writpage_bad sample_world)
      as (reply & w' & Hf & _ & _ & _ & Hbad).
    + split; [reflexivity | simpl; lia].
    + unfold is_byte; simpl; lia.
    + simpl; lia.
    + exists reply, w'. split; [exact Hf |].
      apply Hbad. vm_compute. discriminate.
Defined.

(** C9, as amended.  Every [Reply_WRITPAGE] leaves [page_ix] at
    [(page_ix + MST_PACKET_SIZE) mod 256], the field being a [uint8_t]: an
    increase by exactly MST_PACKET_SIZE as long as the sum stays below 256, a
    wrap-around otherwise.  It records one fill call per payload word,
    whatever the trailing byte is; a checksum failure sets FL_DEL_FLASH and
    zeroes the checksum byte of the reply and takes nothing back. *)
Theorem WRITPAGE_advances_page_ix (cfg : Config) (cmd : list Z) (w : World) :
  packet_size_ok cfg ->
  0 <= FL_DEL_FLASH cfg < 8 ->
  exists reply w',
    Reply_WRITPAGE_frame cfg cmd w = Done reply w' /\
    Reply_WRITPAGE cfg cmd w = transmit_reply cfg reply w' /\
    page_ix (mem_pack w') = wrap8 (page_ix (mem_pack w) + MST_PACKET_SIZE cfg) /\
    (0 <= page_ix (mem_pack w) -> page_ix (mem_pack w) + MST_PACKET_SIZE cfg < 256 ->
     page_ix (mem_pack w') = page_ix (mem_pack w) + MST_PACKET_SIZE cfg) /\
    events w' = events w ++ writpage_fills cfg cmd (mem_pack w) /\
    length (writpage_fills cfg cmd (mem_pack w)) = Z.to_nat (MST_PACKET_SIZE cfg / 2) /\
    forallb is_fill (writpage_fills cfg cmd (mem_pack w)) = true /\
    (aget cmd (MST_PACKET_SIZE cfg + 1) <> sum8 (payload cfg cmd) ->
     bit_of (flags (mem_pack w')) (FL_DEL_FLASH cfg) = true /\ aget reply 1 = 0).
Proof.
  intros Hpk Hfl.
  eexists _, _.
  split; [apply Reply_WRITPAGE_frame_eq; exact Hpk |].
  split; [apply Reply_WRITPAGE_eq; exact Hpk |].
  unfold writpage_reply, writpage_mem_pack, set_events, with_mem_pack, writpage_refused.
  cbn [mem_pack flags page_ix events].
  split; [reflexivity |].
  split; [intros H0 H1; apply wrap8_small; destruct Hpk as [_ ?]; lia |].
  split; [reflexivity |].
  assert (Hlen : forall n pa ix i, length (fill_words cmd pa ix i n) = n /\
                                   forallb is_fill (fill_words cmd pa ix i n) = true).
  { induction n as [| n IH]; intros pa ix i; [split; reflexivity |].
    destruct (IH pa (wrap8 (ix + 2)) (i + 2)) as [IH1 IH2].
    cbn [fill_words length forallb is_fill]. rewrite IH1, IH2. split; reflexivity. }
  destruct (half_packet cfg Hpk) as (h & Hh & HM & Hh2 & HMn).
  unfold writpage_fills. rewrite Hh2.
  split; [| split].
  - destruct (at_reset_page cfg (mem_pack w)); cbn [length];
      rewrite (proj1 (Hlen _ _ _ _)); lia.
  - destruct (at_reset_page cfg (mem_pack w)); cbn [forallb is_fill];
      apply (proj2 (Hlen _ _ _ _)).
  - intros Hsum.
    replace (sum8 (payload cfg cmd) =? aget cmd (MST_PACKET_SIZE cfg + 1)) with false
      by (symmetry; apply Z.eqb_neq; congruence).
    cbn [negb orb]. split; [| reflexivity].
    apply testbit_set_flag. exact Hfl.
Qed.

Lemma WRITPAGE_advances_page_ix_witness :
  exists reply w',
    Reply_WRITPAGE_frame sample_cfg sample_writpage_bad sample_world = Done reply w' /\
    page_ix (mem_pack w') = 8 /\
    events w' = [SpmFill 0 0xCCFF; SpmFill 2 0x0403; SpmFill 4 0x0605; SpmFill 6 0x0807] /\
    bit_of (flags (mem_pack w')) 2 = true /\ aget reply 1 = 0.
Proof.
  destruct (WRITPAGE_advances_page_ix sample_cfg sample_writpage_bad sample_world)
    as (reply & w' & Hf & _ & Hix & _ & Hev & _ & _ & Hbad).
  - split; [reflexivity | simpl; lia].
  - simpl; lia.
  - exists reply, w'. split; [exact Hf |].
    split; [exact Hix |]. split; [exact Hev |].
    apply Hbad. vm_compute. discriminate.
Defined.

(** ** The DELFLASH slow op *)

Lemma set_events_same w : set_events (events w ++ []) w = w.
Proof. destruct w. unfold set_events. cbn. rewrite app_nil_r. reflexivity. Qed.

Section Erase.
Variable cfg : Config.
Hypothesis Hreset : RESET_PAGE cfg = 0.
Hypothesis Hsize : 0 < SPM_PAGESIZE cfg.

Lemma erase_loop_run : forall n fuel p w,
  p = Z.of_nat n * SPM_PAGESIZE cfg -> p < 65536 -> (n < fuel)%nat ->
  erase_loop cfg fuel p w =
  Done tt (set_events (events w ++ map SpmErase (pages_below (SPM_PAGESIZE cfg) p n)) w).
Proof.
  induction n as [| n IH]; intros fuel p w Hp Hlt Hf;
    (destruct fuel as [| fuel]; [lia |]); cbn [erase_loop]; rewrite Hreset.
  - replace (p =? 0) with true by (symmetry; apply Z.eqb_eq; lia).
    cbn [negb pages_below map]. rewrite set_events_same. reflexivity.
  - replace (p =? 0) with false by (symmetry; apply Z.eqb_neq; nia).
    cbn [negb]. rewrite (wrap16_small (p - SPM_PAGESIZE cfg)) by nia.
    unfold bind, boot_page_erase, act.
    rewrite (wrap16_small (p - SPM_PAGESIZE cfg)) by nia.
    rewrite (IH fuel (p - SPM_PAGESIZE cfg)) by nia.
    unfold set_events, emit. cbn. rewrite <- app_assoc. reflexivity.
Qed.



Lemma pages_below_In size : forall n p a,
  In a (pages_below size p n) <->
  exists k, (1 <= k <= n)%nat /\ a = p - Z.of_nat k * size.
Proof.
  induction n as [| n IH]; intros p a; cbn [pages_below In].
  - split; [tauto | intros (k & Hk & _); lia].
  - rewrite IH. split.
    + intros [<- | (k & Hk & ->)]; [exists 1%nat | exists (S k)]; split; lia.
    + intros (k & Hk & ->). destruct k as [| k]; [lia |].
      destruct k as [| k]; [left; lia |].
      right. exists (S k). split; lia.
Qed.

Lemma pages_below_NoDup size : 0 < size -> forall n p, NoDup (pages_below size p n).
Proof.
  intros Hs. induction n as [| n IH]; intros p; cbn [pages_below]; constructor.
  - rewrite pages_below_In. intros (k & Hk & Heq). nia.
  - apply IH.
Qed.



Lemma page_count :
  0 < TIMONEL_START cfg -> TIMONEL_START cfg mod SPM_PAGESIZE cfg = 0 ->
  TIMONEL_START cfg = Z.of_nat (Z.to_nat (TIMONEL_START cfg / SPM_PAGESIZE cfg)) * SPM_PAGESIZE cfg
  /\ (0 < Z.to_nat (TIMONEL_START cfg / SPM_PAGESIZE cfg))%nat.
Proof.
  intros Hpos Hmod.
  pose proof (Z.div_mod (TIMONEL_START cfg) (SPM_PAGESIZE cfg) ltac:(lia)) as Hdm.
  rewrite Hmod, Z.add_0_r in Hdm.
  assert (0 < TIMONEL_START cfg / SPM_PAGESIZE cfg) by nia.
  split; [rewrite Z2Nat.id by lia; lia | lia].
Qed.

End Erase.



(** C4.  With TIMONEL_START a positive multiple of SPM_PAGESIZE and
    RESET_PAGE = 0, the DELFLASH slow op of the main loop calls
    [boot_page_erase] exactly once for each page base address 0,
    SPM_PAGESIZE, ..., TIMONEL_START - SPM_PAGESIZE and for no other
    address, so for none at or above TIMONEL_START. *)
Theorem DELFLASH_erases_application (cfg : Config) (m : Main) :
  RESET_PAGE cfg = 0 ->
  0 < SPM_PAGESIZE cfg ->
  0 < TIMONEL_START cfg < 65536 ->
  TIMONEL_START cfg mod SPM_PAGESIZE cfg = 0 ->
  initialized cfg (mem_pack (world m)) = true ->
  slow_ops_enabled m = true ->
  bit_of (flags (mem_pack (world m))) (FL_EXIT_TML cfg) = false ->
  bit_of (flags (mem_pack (world m))) (FL_DEL_FLASH cfg) = true ->
  exists w' erased,
    supervisor cfg m = mkMain w' false (led_delay m) (exit_delay m) AtReset /\
    events w' = events (world m) ++ SlowOpsTaken :: map SpmErase erased ++ [JumpRestartTimonel] /\
    erased = pages_below (SPM_PAGESIZE cfg) (TIMONEL_START cfg)
                         (Z.to_nat (TIMONEL_START cfg / SPM_PAGESIZE cfg)) /\
    NoDup erased /\
    (forall a, In a erased <-> 0 <= a < TIMONEL_START cfg /\ a mod SPM_PAGESIZE cfg = 0).
Proof.
  intros Hreset Hsize Hts Hmod Hinit Hslow Hexit Hdel.
  destruct (page_count cfg Hsize (proj1 Hts) Hmod) as [Hn Hn0].
  set (n := Z.to_nat (TIMONEL_START cfg / SPM_PAGESIZE cfg)) in *.
  eexists _, _. split; [| split; [| split; [reflexivity | split]]].
  - unfold supervisor. rewrite Hinit, Hslow.
    cbn [emit mem_pack]. rewrite Hexit, Hdel.
    unfold slow_op_delete_flash. rewrite wrap16_small by lia.
    rewrite (erase_loop_run cfg Hreset Hsize n) by (try assumption; try lia; nia).
    reflexivity.
  - cbn [emit events]. rewrite events_restore_clock.
    unfold set_events, emit. cbn [events]. rewrite <- !app_assoc. reflexivity.
  - apply pages_below_NoDup. exact Hsize.
  - intros a. rewrite pages_below_In. split.
    + intros (k & Hk & ->). split; [nia |].
      replace (TIMONEL_START cfg - Z.of_nat k * SPM_PAGESIZE cfg)
        with ((Z.of_nat n - Z.of_nat k) * SPM_PAGESIZE cfg) by lia.
      apply Z.mod_mul. lia.
    + intros [Ha Hm].
      pose proof (Z.div_mod a (SPM_PAGESIZE cfg) ltac:(lia)) as Hdm.
      rewrite Hm, Z.add_0_r in Hdm.
      exists (n - Z.to_nat (a / SPM_PAGESIZE cfg))%nat.
      assert (0 <= a / SPM_PAGESIZE cfg) by (apply Z.div_pos; lia).
      assert (a / SPM_PAGESIZE cfg < Z.of_nat n) by nia.
      split; [lia |]. rewrite Nat2Z.inj_sub by lia. rewrite Z2Nat.id by lia. lia.
Qed.

Lemma DELFLASH_erases_application_witness :
  exists w' erased,
    supervisor sample_cfg sample_delflash_main = mkMain w' false 0 0 AtReset /\
    events w' = [] ++ SlowOpsTaken :: map SpmErase erased ++ [JumpRestartTimonel] /\
    erased = pages_below 64 0x1A00 104 /\
    NoDup erased /\
    (forall a, In a erased <-> 0 <= a < 0x1A00 /\ a mod 64 = 0).
Proof.
  apply (DELFLASH_erases_application sample_cfg sample_delflash_main).
  - reflexivity.
  - simpl; lia.
  - simpl; lia.
  - reflexivity.
  - reflexivity.
  - reflexivity.
  - reflexivity.
  - reflexivity.
Defined.

(** ** The trampoline word *)

Lemma trampoline_word_formula cfg m :
  trampoline_word cfg m = tpl_formula (TIMONEL_START cfg) (app_vec m).
Proof. reflexivity. Qed.

(** C5 (amended).  The trampoline formula, instantiated with
    TIMONEL_START = 0x1A00 and app_vec = 0x0000, yields 0xC301. *)
Theorem trampoline_0x1A00_is_C301 (cfg : Config) (m : MemPack) :
  TIMONEL_START cfg = 0x1A00 ->
  app_reset_msb m = 0x00 -> app_reset_lsb m = 0x00 ->
  app_vec m = 0x0000 /\
  trampoline_word cfg m = tpl_formula 0x1A00 0x0000 /\
  tpl_formula 0x1A00 0x0000 = 0xC301.
Proof.
  intros Hts Hm Hl.
  assert (Hv : app_vec m = 0) by (unfold app_vec; rewrite Hm, Hl; reflexivity).
  split; [exact Hv |]. split; [| reflexivity].
  rewrite trampoline_word_formula, Hts, Hv. reflexivity.
Qed.

Lemma trampoline_0x1A00_is_C301_witness :
  app_vec (mkMemPack 0 0 0 0 0) = 0x0000 /\
  trampoline_word sample_cfg (mkMemPack 0 0 0 0 0) = tpl_formula 0x1A00 0x0000 /\
  tpl_formula 0x1A00 0x0000 = 0xC301.
Proof.
  apply (trampoline_0x1A00_is_C301 sample_cfg (mkMemPack 0 0 0 0 0)); reflexivity.
Defined.

(** C5 as stated fails: the formula does not yield 0xC0FF there. *)
Lemma trampoline_0x1A00_is_not_C0FF :
  tpl_formula 0x1A00 0x0000 <> 0xC0FF.
Proof. vm_compute. discriminate. Qed.

(** ** The address filter *)

Lemma store_USISR_counter old :
  Z.land (store_USISR USISR_SHIFT_8_DATA_BITS old) 0x0F = 0.
Proof.
  unfold store_USISR.
  rewrite !Z.land_lor_distr_l, <- !Z.land_assoc.
  change (Z.land (Z.land (Z.lnot USISR_SHIFT_8_DATA_BITS) 224) 15) with 0.
  change (Z.land 16 15) with 0.
  change (Z.land (Z.land USISR_SHIFT_8_DATA_BITS 15) 15) with 0.
  rewrite !Z.land_0_r. reflexivity.
Qed.

(** C8.  An address byte other than 0x00 whose upper seven bits are not
    TWI_ADDR makes the overflow handler, in STATE_CHECK_RECEIVED_ADDRESS,
    re-arm the USI for the next start condition without sending ACK and
    return false; the rings, their indices and every MemPack field are left
    as they were. *)
Theorem foreign_address_rearms (cfg : Config) (w : World) (a : Z) :
  device_state (twi w) = STATE_CHECK_RECEIVED_ADDRESS ->
  USIDR (usi w) = a ->
  Z.shiftr a 1 <> TWI_ADDR cfg ->
  a <> 0x00 ->
  exists w',
    UsiOverflowHandler cfg w = Done false w' /\
    twi w' = twi w /\
    mem_pack w' = mem_pack w /\
    events w' = events w /\
    (* no ACK: the data register and the SDA direction are not touched *)
    USIDR (usi w') = a /\
    DDR_USI (usi w') = DDR_USI (usi w) /\
    PORT_USI (usi w') = PORT_USI (usi w) /\
    (* armed for the next start condition *)
    USICR (usi w') = USICR_DETECT_TWI_START /\
    bit_of (USICR (usi w')) TWI_START_COND_INT = true /\
    bit_of (USICR (usi w')) USI_OVERFLOW_INT = false /\
    USISR (usi w') = store_USISR USISR_SHIFT_8_DATA_BITS (USISR (usi w)) /\
    Z.land (USISR (usi w')) 0x0F = 0.
Proof.
  intros Hst Ha Haddr Hnz.
  eexists. split.
  - unfold UsiOverflowHandler. rewrite Hst, Ha.
    replace (a =? 0) with false by (symmetry; apply Z.eqb_neq; exact Hnz).
    replace (Z.shiftr a 1 =? TWI_ADDR cfg) with false by (symmetry; apply Z.eqb_neq; exact Haddr).
    cbn [orb]. reflexivity.
  - cbn. rewrite Ha. repeat split. apply store_USISR_counter.
Qed.

Lemma foreign_address_rearms_witness :
  exists w',
    UsiOverflowHandler sample_cfg sample_foreign_address = Done false w' /\
    twi w' = twi sample_foreign_address /\
    mem_pack w' = mem_pack sample_foreign_address /\
    events w' = events sample_foreign_address /\
    USIDR (usi w') = 0x40 /\
    DDR_USI (usi w') = DDR_USI (usi sample_foreign_address) /\
    PORT_USI (usi w') = PORT_USI (usi sample_foreign_address) /\
    USICR (usi w') = USICR_DETECT_TWI_START /\
    bit_of (USICR (usi w')) TWI_START_COND_INT = true /\
    bit_of (USICR (usi w')) USI_OVERFLOW_INT = false /\
    USISR (usi w') = store_USISR USISR_SHIFT_8_DATA_BITS (USISR (usi sample_foreign_address)) /\
    Z.land (USISR (usi w')) 0x0F = 0.
Proof.
  apply (foreign_address_rearms sample_cfg sample_foreign_address 0x40).
  - reflexivity.
  - reflexivity.
  - vm_compute. discriminate.
  - lia.
Defined.

(** ** The reply array of READFLSH *)

(** Building the reply array changes nothing outside the array. *)
Lemma reply_store_world reply i v w : world_of (reply_store reply i v w) = w.
Proof. unfold reply_store. destruct (_ && _); reflexivity. Qed.

Lemma readflsh_fill_loop_world : forall fuel cmd reply_len reply i pos w,
  world_of (readflsh_fill_loop fuel cmd reply_len reply i pos w) = w.
Proof.
  induction fuel as [| fuel IH]; intros cmd reply_len reply i pos w; [reflexivity |].
  cbn [readflsh_fill_loop]. destruct (i <? aget cmd 3 + 1); [| reflexivity].
  unfold bind, reply_store.
  destruct (_ && _); [| reflexivity]. destruct (_ && _); [| reflexivity].
  apply IH.
Qed.

Lemma Reply_READFLSH_frame_world cfg cmd w :
  world_of (Reply_READFLSH_frame cfg cmd w) = w.
Proof.
  unfold Reply_READFLSH_frame, bind.
  unfold reply_store at 1. destruct (_ && _); [| reflexivity].
  unfold reply_store at 1. destruct (_ && _); [| reflexivity].
  pose proof (readflsh_fill_loop_world 256 cmd (wrap8 (aget cmd 3 + 2))
                (aset (aset (repeat 0 (Z.to_nat (wrap8 (aget cmd 3 + 2)))) 0 (wrap8 (ACKRDFSH cfg)))
                      (wrap8 (aget cmd 3 + 2) - 1) 0)
                1 (Z.shiftl (aget cmd 1) 8 + aget cmd 2) w) as Hloop.
  destruct (readflsh_fill_loop _ _ _ _ _ _ w) as [r2 w2 | w2 | w2];
    cbn [world_of] in Hloop; subst w2; [| reflexivity | reflexivity].
  unfold reply_store at 1. destruct (_ && _); [| reflexivity].
  apply reply_store_world.
Qed.

(** The handler either stops in the array computation, with the world as it
    was, or runs its transmit loop on the reply. *)
Lemma Reply_READFLSH_cases cfg cmd w :
  Reply_READFLSH cfg cmd w = Fault w \/ Reply_READFLSH cfg cmd w = Spin w \/
  exists reply, Reply_READFLSH cfg cmd w = transmit_reply cfg reply w.
Proof.
  pose proof (Reply_READFLSH_frame_world cfg cmd w) as Hw.
  unfold Reply_READFLSH, bind.
  destruct (Reply_READFLSH_frame cfg cmd w) as [r w' | w' | w'];
    cbn [world_of] in Hw; subst w'.
  - right. right. exists r. reflexivity.
  - right. left. reflexivity.
  - left. reflexivity.
Qed.

(** ** Deferred flash operations *)

Lemma emits_ret {A} P (a : A) : emits P (ret a).
Proof. intros w. exists []. cbn. rewrite app_nil_r. split; reflexivity. Qed.

Lemma emits_act P f : (forall w, events (f w) = events w) -> emits P (act f).
Proof. intros Hf w. exists []. cbn. rewrite app_nil_r, Hf. split; reflexivity. Qed.

Lemma emits_bind {A B} P (m : M A) (k : A -> M B) :
  emits P m -> (forall a, emits P (k a)) -> emits P (bind m k).
Proof.
  intros Hm Hk w. unfold bind.
  destruct (Hm w) as (e1 & He1 & Hp1).
  destruct (m w) as [a w1 | w1 | w1] eqn:Hmw; cbn [world_of] in He1.
  - destruct (Hk a w1) as (e2 & He2 & Hp2).
    exists (e1 ++ e2). rewrite He2, He1, app_assoc, forallb_app, Hp1, Hp2. split; reflexivity.
  - exists e1. split; assumption.
  - exists e1. split; assumption.
Qed.

Lemma emits_read {A B} P (f : World -> A) (k : A -> M B) :
  (forall a, emits P (k a)) -> emits P (bind (fun w => Done (f w) w) k).
Proof.
  intros Hk. apply emits_bind; [| exact Hk].
  intros w. exists []. cbn. rewrite app_nil_r. split; reflexivity.
Qed.

Lemma emits_at {A} P (m : M A) :
  (forall w, exists m', m w = m' w /\ emits P m') -> emits P m.
Proof.
  intros H w. destruct (H w) as (m' & He & Hm'). rewrite He. apply Hm'.
Qed.

Lemma emits_weaken {A} (P Q : Event -> bool) (m : M A) :
  (forall e, P e = true -> Q e = true) -> emits P m -> emits Q m.
Proof.
  intros HPQ Hm w. destruct (Hm w) as (evs & He & Hp).
  exists evs. split; [exact He |].
  rewrite forallb_forall in *. intros e Hin. apply HPQ, Hp, Hin.
Qed.

Lemma emits_emit P e : P e = true -> emits P (act (emit e)).
Proof. intros He w. exists [e]. cbn. rewrite He. split; reflexivity. Qed.

Lemma emits_stop {A} P (f : World -> World) (stop : World -> Result A) :
  (forall w, world_of (stop w) = w) -> emits P (fun w => stop w).
Proof. intros Hs w. exists []. rewrite Hs, app_nil_r. split; reflexivity. Qed.

Ltac emits_step :=
  first
    [ apply emits_ret
    | apply emits_read; intros ?
    | apply emits_bind; [| intros ?]
    | apply emits_act; intros ?; reflexivity
    | apply emits_emit; reflexivity ].

Ltac emits_auto := repeat (emits_step || match goal with
  | |- emits _ (if ?c then _ else _) => destruct c
  end).

Section Emits.
Variable cfg : Config.

Lemma emits_UsiTwiTransmitByte P b : emits P (UsiTwiTransmitByte cfg b).
Proof.
  intros w. exists []. rewrite app_nil_r. unfold UsiTwiTransmitByte.
  match goal with |- context [if ?c then _ else _] => destruct c end; split; reflexivity.
Qed.

Lemma emits_transmit_reply P reply : emits P (transmit_reply cfg reply).
Proof.
  induction reply as [| b reply IH]; cbn [transmit_reply].
  - apply emits_ret.
  - apply emits_bind; [apply emits_UsiTwiTransmitByte | intros _; exact IH].
Qed.

Lemma emits_set_flag P n : emits P (set_flag n).
Proof. unfold set_flag. emits_auto. Qed.

Lemma emits_usi_setup P :
  emits P SET_USI_TO_SEND_ACK /\ emits P SET_USI_TO_RECEIVE_ACK /\
  emits P SET_USI_TO_WAIT_FOR_TWI_ADDRESS /\ emits P SET_USI_TO_SEND_BYTE /\
  emits P SET_USI_TO_RECEIVE_BYTE.
Proof.
  repeat split; intros w; exists []; rewrite app_nil_r; split; reflexivity.
Qed.

Lemma emits_set_state P s : emits P (set_state s).
Proof. unfold set_state. emits_auto. Qed.

Lemma emits_rx_drain P : forall n i, emits P (rx_drain cfg n i).
Proof.
  induction n as [| n IH]; intros i; cbn [rx_drain].
  - apply emits_ret.
  - apply emits_bind; [| intros _; apply IH].
    intros w. exists []. rewrite app_nil_r. unfold rx_drain_step.
    match goal with |- context [if ?c then _ else _] => destruct c end; split; reflexivity.
Qed.

Lemma emits_boot_page_fill a d : emits is_fill (boot_page_fill a d).
Proof. unfold boot_page_fill. emits_auto. Qed.

Lemma emits_writpage_fill_loop cmd : forall fuel i chk,
  emits is_fill (writpage_fill_loop cfg fuel cmd i chk).
Proof.
  induction fuel as [| fuel IH]; intros i chk; cbn [writpage_fill_loop].
  - intros w. exists []. rewrite app_nil_r. split; reflexivity.
  - destruct (i <? MST_PACKET_SIZE cfg + 1); [| apply emits_ret].
    apply emits_bind; [| intros chk'; apply IH].
    unfold writpage_fill_word. emits_auto.
Qed.

Lemma emits_Reply_WRITPAGE cmd : emits is_fill (Reply_WRITPAGE cfg cmd).
Proof.
  unfold Reply_WRITPAGE, Reply_WRITPAGE_frame.
  apply emits_bind; [| intros reply; apply emits_transmit_reply].
  apply emits_read. intros m.
  apply emits_bind.
  - destruct (wrap16 (page_addr m + page_ix m) =? RESET_PAGE cfg).
    + apply emits_bind; [destruct (AUTO_PAGE_ADDR cfg); emits_auto | intros _].
      apply emits_bind; [apply emits_boot_page_fill | intros _].
      apply emits_bind; [emits_auto | intros _].
      apply emits_writpage_fill_loop.
    + apply emits_writpage_fill_loop.
  - intros chk. apply emits_read. intros m'.
    match goal with |- emits _ (if ?c then _ else _) => destruct c end.
    + apply emits_bind; [apply emits_set_flag | intros _; apply emits_ret].
    + apply emits_ret.
Qed.

Lemma emits_ReceiveEvent cmd n : emits is_fill (ReceiveEvent cfg cmd n).
Proof.
  unfold ReceiveEvent.
  repeat match goal with |- emits _ (if ?c then _ else _) => destruct c end.
  - assert (H : forall r, emits is_fill (set_flag (FL_INIT_1 cfg) ;; transmit_reply cfg r)).
    { intros r. apply emits_bind; [apply emits_set_flag | intros _; apply emits_transmit_reply]. }
    intros w. unfold Reply_GETTMNLV. apply H.
  - apply emits_bind; [apply emits_UsiTwiTransmitByte | intros _; apply emits_set_flag].
  - apply emits_bind; [apply emits_UsiTwiTransmitByte | intros _; apply emits_set_flag].
  - unfold Reply_STPGADDR.
    apply emits_bind; [emits_auto | intros _].
    apply emits_bind; [emits_auto | intros _].
    apply emits_transmit_reply.
  - apply emits_Reply_WRITPAGE.
  - intros w.
    destruct (Reply_READFLSH_cases cfg cmd w) as [-> | [-> | [reply ->]]].
    + exists []. rewrite app_nil_r. split; reflexivity.
    + exists []. rewrite app_nil_r. split; reflexivity.
    + apply emits_transmit_reply.
  - apply emits_bind; [apply emits_set_flag | intros _; apply emits_UsiTwiTransmitByte].
  - apply emits_ret.
Qed.

Lemma emits_send_data_byte : emits is_fill (send_data_byte cfg).
Proof.
  destruct (emits_usi_setup is_fill) as (Hack & Hrack & Hwait & Hsend & Hrecv).
  apply emits_at. intros w. unfold send_data_byte.
  destruct (tx_pop cfg (twi w)) as [[b t'] |].
  - exists (fun w0 => (write_USIDR b ;; set_state STATE_RECEIVE_ACK_AFTER_SENDING_DATA ;;
                         SET_USI_TO_SEND_BYTE ;; ret false) (with_twi (fun _ => t') w0)).
    split; [reflexivity |].
    intros w0. 
    assert (He : emits is_fill (write_USIDR b ;; set_state STATE_RECEIVE_ACK_AFTER_SENDING_DATA ;;
                         SET_USI_TO_SEND_BYTE ;; ret false)).
    { apply emits_bind; [unfold write_USIDR; emits_auto | intros _].
      apply emits_bind; [apply emits_set_state | intros _].
      apply emits_bind; [exact Hsend | intros _; apply emits_ret]. }
    destruct (He (with_twi (fun _ => t') w0)) as (evs & Hev & Hp).
    exists evs. split; [exact Hev | exact Hp].
  - eexists. split; [reflexivity |].
    apply emits_bind; [exact Hrack | intros _].
    apply emits_bind; [exact Hwait | intros _; apply emits_ret].
Qed.

Lemma emits_UsiOverflowHandler : emits is_fill (UsiOverflowHandler cfg).
Proof.
  destruct (emits_usi_setup is_fill) as (Hack & Hrack & Hwait & Hsend & Hrecv).
  apply emits_at. intros w. unfold UsiOverflowHandler.
  destruct (device_state (twi w)).
  - match goal with |- context [if ?c then _ else _] => destruct c end.
    + eexists. split; [reflexivity |].
      apply emits_bind; [| intros _; apply emits_bind; [exact Hack | intros _; apply emits_ret]].
      match goal with |- emits _ (if ?c then _ else _) => destruct c end.
      * apply emits_bind; [apply emits_rx_drain | intros _].
        apply emits_read. intros cmd.
        apply emits_bind; [apply emits_ReceiveEvent | intros _; apply emits_set_state].
      * apply emits_set_state.
    + eexists. split; [reflexivity |].
      apply emits_bind; [exact Hwait | intros _; apply emits_ret].
  - exists (send_data_byte cfg). split; [reflexivity | apply emits_send_data_byte].
  - eexists. split; [reflexivity |].
    apply emits_bind; [apply emits_set_state | intros _].
    apply emits_bind; [exact Hrack | intros _; apply emits_ret].
  - match goal with |- context [if ?c then _ else _] => destruct c end.
    + eexists. split; [reflexivity |].
      apply emits_bind; [exact Hwait | intros _; apply emits_ret].
    + exists (send_data_byte cfg). split; [reflexivity | apply emits_send_data_byte].
  - eexists. split; [reflexivity |].
    apply emits_bind; [apply emits_set_state | intros _].
    apply emits_bind; [exact Hrecv | intros _; apply emits_ret].
  - eexists. split; [reflexivity |].
    apply emits_bind; [emits_auto | intros _].
    apply emits_bind; [apply emits_set_state | intros _].
    apply emits_bind; [exact Hack | intros _; apply emits_ret].
Qed.

End Emits.

Section SlowOps.
Variable cfg : Config.

Lemma emits_erase_loop : forall fuel p, emits is_spm (erase_loop cfg fuel p).
Proof.
  induction fuel as [| fuel IH]; intros p; cbn [erase_loop].
  - intros w. exists []. rewrite app_nil_r. split; reflexivity.
  - destruct (negb (p =? RESET_PAGE cfg)); [| apply emits_ret].
    apply emits_bind; [unfold boot_page_erase; emits_auto | intros _; apply IH].
Qed.

Lemma emits_slow_op_delete_flash : emits is_spm (slow_op_delete_flash cfg).
Proof. unfold slow_op_delete_flash. apply emits_erase_loop. Qed.

Lemma emits_for_each P body : (forall i, emits P (body i)) ->
  forall l, emits P (for_each l body).
Proof.
  intros Hb. induction l as [| i l IH]; cbn [for_each].
  - apply emits_ret.
  - apply emits_bind; [apply Hb | intros _; exact IH].
Qed.

Lemma emits_slow_op_write_page : emits is_spm (slow_op_write_page cfg).
Proof.
  unfold slow_op_write_page. apply emits_read. intros m.
  match goal with |- emits _ (if ?c then _ else _) => destruct c end; [| apply emits_ret].
  apply emits_bind; [destruct (FORCE_ERASE_PG cfg); unfold boot_page_erase; emits_auto | intros _].
  apply emits_bind; [unfold boot_page_write; emits_auto | intros _].
  apply emits_bind; [| intros _; emits_auto].
  destruct (AUTO_PAGE_ADDR cfg); [| apply emits_ret].
  apply emits_bind; [| intros _; apply emits_bind; [| intros _; emits_auto]].
  - destruct (page_addr m =? RESET_PAGE cfg); [| apply emits_ret].
    unfold write_trampoline_page.
    apply emits_bind; [| intros _; unfold boot_page_fill, boot_page_write; emits_auto].
    apply emits_for_each. intros i. unfold boot_page_fill. emits_auto.
  - match goal with |- emits _ (if ?c then _ else _) => destruct c end; [| apply emits_ret].
    intros w. unfold check_trampoline_page.
    match goal with |- context [world_of (?f w)] =>
      assert (He : emits is_spm f); [| apply He] end.
    apply emits_bind.
    + apply emits_for_each. intros i. unfold boot_page_fill. emits_auto.
    + intros _. match goal with |- emits _ (if ?c then _ else _) => destruct c end;
        [apply emits_set_flag | apply emits_ret].
Qed.

End SlowOps.

Lemma deferred_nil : deferred [].
Proof. intros pre e post H. destruct pre; discriminate. Qed.

Lemma deferred_snoc l e :
  deferred l -> (is_erase_or_write e = true -> in_slow_section l) -> deferred (l ++ [e]).
Proof.
  intros Hl He pre e' post Heq He'.
  destruct (app_eq_app _ _ _ _ Heq) as [x [[H1 H2] | [H1 H2]]].
  - (* e' lies in l, or is the new event *)
    destruct x as [| y x].
    + cbn in H2. injection H2 as E1 E2. subst e' post.
      rewrite app_nil_r in H1. subst pre. apply He, He'.
    + cbn in H2. injection H2 as E1 E2. subst y.
      apply (Hl pre e' x); [exact H1 | exact He'].
  - destruct x as [| y x].
    + cbn in H2. injection H2 as E1 E2. subst e' post.
      rewrite app_nil_r in H1. subst pre. apply He, He'.
    + cbn in H2. injection H2 as E1 E2. destruct x; discriminate.
Qed.

Lemma deferred_app_quiet : forall l' l,
  deferred l -> forallb quiet l' = true -> deferred (l ++ l').
Proof.
  induction l' as [| e l' IH]; intros l Hl Hq.
  - rewrite app_nil_r. exact Hl.
  - cbn [forallb] in Hq. apply andb_true_iff in Hq. destruct Hq as [He Hq].
    replace (l ++ e :: l') with ((l ++ [e]) ++ l') by (rewrite <- app_assoc; reflexivity).
    apply IH; [| exact Hq].
    apply deferred_snoc; [exact Hl |].
    intros Hc. unfold quiet in He. rewrite Hc in He. discriminate.
Qed.

Lemma in_slow_section_snoc l e :
  in_slow_section l -> is_spm e = true -> in_slow_section (l ++ [e]).
Proof.
  intros (a & c & -> & Hc) He. exists a, (c ++ [e]). split.
  - rewrite <- app_assoc. reflexivity.
  - rewrite forallb_app, Hc. cbn. rewrite He. reflexivity.
Qed.

Lemma deferred_app_slow : forall c l,
  deferred l -> in_slow_section l -> forallb is_spm c = true -> deferred (l ++ c).
Proof.
  induction c as [| e c IH]; intros l Hl Hs Hc.
  - rewrite app_nil_r. exact Hl.
  - cbn [forallb] in Hc. apply andb_true_iff in Hc. destruct Hc as [He Hc].
    replace (l ++ e :: c) with ((l ++ [e]) ++ c) by (rewrite <- app_assoc; reflexivity).
    apply IH; [| | exact Hc].
    + apply deferred_snoc; [exact Hl | intros _; exact Hs].
    + apply in_slow_section_snoc; assumption.
Qed.

Lemma fills_are_quiet evs : forallb is_fill evs = true -> forallb quiet evs = true.
Proof.
  rewrite !forallb_forall. intros H e Hin. specialize (H e Hin).
  destruct e; try discriminate. reflexivity.
Qed.

Section MainLoop.
Variable cfg : Config.

Lemma events_UsiTwiDriverInit w : events (world_of (UsiTwiDriverInit w)) = events w.
Proof. reflexivity. Qed.

Lemma events_TwiStartHandler reads pin w :
  events (world_of (TwiStartHandler reads pin w)) = events w.
Proof.
  unfold TwiStartHandler, bind. cbn [SET_USI_SDA_AS_INPUT set_state act].
  destruct (start_wait reads pin) as [p |]; [| reflexivity].
  destruct (Z.land p (Z.shiftl 1 PIN_USI_SDA) =? 0); reflexivity.
Qed.

(** The start poll runs the start handler or nothing, and stops when the
    handler does not return. *)
Lemma poll_start_cases reads pin m :
  exists w' p,
    poll_start reads pin m = mkMain w' (slow_ops_enabled m) (led_delay m) (exit_delay m) p /\
    (p = AtOverflowPoll \/ p = Stopped) /\
    (w' = world m \/ w' = world_of (TwiStartHandler reads pin (world m))).
Proof.
  unfold poll_start. destruct (_ && _).
  - destruct (TwiStartHandler reads pin (world m)) as [[] w' | w' | w']; cbn [world_of];
      eexists _, _; (split; [reflexivity |]); split; auto.
  - eexists _, _. split; [reflexivity |]. split; auto.
Qed.

Lemma main_inv_reset m : main_inv m -> main_inv (main_setup cfg (world m)).
Proof.
  intros [Hd _]. unfold main_inv, main_setup.
  cbn [world slow_ops_enabled pc]. split; [| discriminate].
  cbn [with_mem_pack emit events]. rewrite events_UsiTwiDriverInit. cbn [with_twi events].
  rewrite events_tweak_clock.
  apply deferred_app_quiet; [exact Hd | reflexivity].
Qed.

Lemma main_inv_start reads pin m :
  pc m = AtStartPoll -> main_inv m -> main_inv (poll_start reads pin m).
Proof.
  intros Hpc [Hd Hs]. unfold main_inv, poll_start.
  destruct (_ && _).
  - pose proof (events_TwiStartHandler reads pin (world m)) as He.
    destruct (TwiStartHandler reads pin (world m)) as [[] w' | w' | w'];
      cbn [world_of] in He; cbn [world slow_ops_enabled pc polling]; rewrite He;
      (split; [exact Hd |]); try (intros _ Hp; discriminate Hp).
    intros Hslow _. apply Hs; [exact Hslow | rewrite Hpc; reflexivity].
  - cbn [world slow_ops_enabled pc]. split; [exact Hd |].
    intros Hslow _. apply Hs; [exact Hslow | rewrite Hpc; reflexivity].
Qed.

Lemma main_inv_overflow m :
  pc m = AtOverflowPoll -> main_inv m -> main_inv (poll_overflow cfg m).
Proof.
  intros Hpc [Hd Hs]. unfold poll_overflow.
  destruct (_ && _).
  - destruct (emits_UsiOverflowHandler cfg (emit OverflowEnter (world m))) as (evs & Hev & Hfill).
    cbn [emit events] in Hev.
    assert (Hd' : deferred (events (world m) ++ [OverflowEnter] ++ evs)).
    { apply deferred_app_quiet; [exact Hd |]. cbn [app forallb quiet is_erase_or_write negb andb].
      apply fills_are_quiet. exact Hfill. }
    destruct (UsiOverflowHandler cfg (emit OverflowEnter (world m))) as [r w' | w' | w'];
      cbn [world_of] in Hev; unfold main_inv; cbn [world slow_ops_enabled pc emit events polling].
    + rewrite Hev. split.
      * rewrite <- app_assoc. rewrite app_assoc.
        apply deferred_app_quiet; [| reflexivity].
        rewrite <- app_assoc. exact Hd'.
      * intros -> _. eexists. reflexivity.
    + rewrite Hev, <- app_assoc. split; [exact Hd' | discriminate].
    + rewrite Hev, <- app_assoc. split; [exact Hd' | discriminate].
  - unfold main_inv. cbn [world slow_ops_enabled pc]. split; [exact Hd |].
    intros Hslow _. apply Hs; [exact Hslow | rewrite Hpc; reflexivity].
Qed.

Lemma main_inv_supervisor m :
  pc m = AtSupervisor -> main_inv m -> main_inv (supervisor cfg m).
Proof.
  intros Hpc [Hd Hs]. unfold supervisor.
  destruct (initialized cfg (mem_pack (world m))).
  - destruct (slow_ops_enabled m) eqn:Hslow.
    + destruct (Hs eq_refl) as (a & Ha); [rewrite Hpc; reflexivity |].
      assert (Hd1 : deferred (events (emit SlowOpsTaken (world m)))).
      { cbn [emit events]. apply deferred_app_quiet; [exact Hd | reflexivity]. }
      assert (Hs1 : in_slow_section (events (emit SlowOpsTaken (world m)))).
      { cbn [emit events]. rewrite Ha. exists a, []. split; [| reflexivity].
        rewrite <- app_assoc. reflexivity. }
      destruct (bit_of (flags (mem_pack (emit SlowOpsTaken (world m)))) (FL_EXIT_TML cfg)).
      * unfold main_inv. cbn [world slow_ops_enabled pc]. split; [| discriminate].
        change (events (emit JumpRunApplication (restore_clock cfg (emit SlowOpsTaken (world m)))))
          with (events (restore_clock cfg (emit SlowOpsTaken (world m))) ++ [JumpRunApplication]).
        rewrite events_restore_clock.
        apply deferred_app_quiet; [exact Hd1 | reflexivity].
      * destruct (bit_of (flags (mem_pack (emit SlowOpsTaken (world m)))) (FL_DEL_FLASH cfg)).
        -- destruct (emits_slow_op_delete_flash cfg (emit SlowOpsTaken (world m)))
             as (evs & Hev & Hspm).
           assert (Hd2 : deferred (events (emit SlowOpsTaken (world m)) ++ evs))
             by (apply deferred_app_slow; assumption).
           destruct (slow_op_delete_flash cfg (emit SlowOpsTaken (world m))) as [r w' | w' | w'];
             cbn [world_of] in Hev; unfold main_inv; cbn [world slow_ops_enabled pc];
             (split; [| discriminate]).
           ++ change (events (emit JumpRestartTimonel (restore_clock cfg w')))
                with (events (restore_clock cfg w') ++ [JumpRestartTimonel]).
              rewrite events_restore_clock, Hev.
              apply deferred_app_quiet; [exact Hd2 | reflexivity].
           ++ rewrite Hev. exact Hd2.
           ++ rewrite Hev. exact Hd2.
        -- destruct (emits_slow_op_write_page cfg (emit SlowOpsTaken (world m)))
             as (evs & Hev & Hspm).
           unfold main_inv; cbn [world slow_ops_enabled pc]. split; [| discriminate].
           rewrite Hev. apply deferred_app_slow; assumption.
    + unfold main_inv. cbn [world slow_ops_enabled pc]. split; [exact Hd | discriminate].
  - assert (Hkeep : forall l e,
      main_inv (mkMain (world m) (slow_ops_enabled m) l e AtStartPoll)).
    { intros l e. unfold main_inv. cbn [world slow_ops_enabled pc]. split; [exact Hd |].
      intros Hslow _. apply Hs; [exact Hslow | rewrite Hpc; reflexivity]. }
    destruct (led_delay m =? 0); [| apply Hkeep].
    destruct (TIMEOUT_EXIT cfg); [| apply Hkeep].
    destruct (exit_delay m =? 0); [| apply Hkeep].
    unfold main_inv. cbn [world slow_ops_enabled pc polling]. split; [| discriminate].
    change (events (emit JumpRunApplication (restore_clock cfg (world m))))
      with (events (restore_clock cfg (world m)) ++ [JumpRunApplication]).
    rewrite events_restore_clock.
    apply deferred_app_quiet; [exact Hd | reflexivity].
Qed.

Lemma main_inv_step m m' : step cfg m m' -> main_inv m -> main_inv m'.
Proof.
  intros Hstep Hinv. destruct Hstep.
  - exact Hinv.
  - apply main_inv_reset. exact Hinv.
  - apply main_inv_start; assumption.
  - apply main_inv_overflow; assumption.
  - apply main_inv_supervisor; assumption.
Qed.

Lemma reachable_main_inv m : reachable cfg m -> main_inv m.
Proof.
  induction 1 as [w s l e Hev | m m' _ IH Hstep].
  - unfold main_inv. cbn [world slow_ops_enabled pc polling]. rewrite Hev.
    split; [apply deferred_nil | discriminate].
  - apply (main_inv_step m m'); assumption.
Qed.

End MainLoop.

(** C3.  [UsiOverflowHandler], with the command handlers it calls, records
    nothing but fill calls; and in every reachable execution each page
    erase or write lies in the slow-op section of the main loop, after the
    handler has returned true and main has taken the [slow_ops_enabled]
    flag it stored. *)
Theorem flash_commits_are_deferred :
  (forall cfg w, exists evs,
     events (world_of (UsiOverflowHandler cfg w)) = events w ++ evs /\
     forallb is_fill evs = true) /\
  (forall cfg m, reachable cfg m -> deferred (events (world m))).
Proof.
  split.
  - intros cfg w. apply emits_UsiOverflowHandler.
  - intros cfg m Hm. apply (reachable_main_inv cfg m Hm).
Qed.

(** At full capacity the busy-wait of [UsiTwiTransmitByte] is never left. *)
Lemma tx_enqueue_full cfg b w l :
  ring_size_ok (TWI_TX_BUFFER_SIZE cfg) ->
  tx_holds cfg (twi w) l ->
  Z.of_nat (length l) + 1 = TWI_TX_BUFFER_SIZE cfg ->
  exists w', UsiTwiTransmitByte cfg b w = Spin w'.
Proof.
  intros Hsize (Hv & Ht & Hh & Hn) Hfull.
  pose proof Hsize as [[Hpos _] _].
  unfold UsiTwiTransmitByte, TWI_TX_BUFFER_MASK.
  rewrite ring_next by exact Hsize.
  rewrite Hh, mod_succ_l by exact Hpos.
  replace (tx_tail (twi w) + Z.of_nat (length l) + 1)
    with (tx_tail (twi w) + 1 * TWI_TX_BUFFER_SIZE cfg) by lia.
  rewrite Z_mod_plus_full, Z.mod_small by lia.
  cbn [twi with_twi set_tx_head tx_tail]. rewrite Z.eqb_refl.
  eexists. reflexivity.
Qed.

Lemma command_rx_push_all cfg : forall s t, command (rx_push_all cfg s t) = command t.
Proof.
  induction s as [| b s IH]; intros t; [reflexivity |].
  change (command (rx_push_all cfg s (rx_push cfg b t)) = command t).
  rewrite IH. reflexivity.
Qed.

(** C6 (amended).  Starting from an empty ring, enqueuing the bytes of [s]
    in order and dequeuing as many yields [s]: in [timonel.c] for a TX
    sequence of at most TWI_TX_BUFFER_SIZE - 1 bytes and for an RX sequence
    that fits the RX ring and the command frame of 2 * MST_PACKET_SIZE
    bytes; in [nb-usitwisl-if3.h] for sequences of at most the capacity of
    the ring.  The byte counters are 8 bits wide, so the sequence has fewer
    than 256 bytes. *)
Theorem ring_fifo_law :
  (* timonel.c, TX ring: UsiTwiTransmitByte, then the pops of STATE_SEND_DATA_BYTE *)
  (forall cfg w s,
     ring_size_ok (TWI_TX_BUFFER_SIZE cfg) ->
     Z.of_nat (length (tx_buffer (twi w))) = TWI_TX_BUFFER_SIZE cfg ->
     0 <= tx_tail (twi w) < TWI_TX_BUFFER_SIZE cfg ->
     tx_head (twi w) = tx_tail (twi w) ->
     all_bytes s ->
     Z.of_nat (length s) <= TWI_TX_BUFFER_SIZE cfg - 1 ->
     exists w' t',
       transmit_reply cfg s w = Done tt w' /\
       tx_pop_n cfg (length s) (twi w') = (s, t') /\
       tx_head t' = tx_tail t') /\
  (* timonel.c, RX ring: the pushes of the engine, then the dispatcher's drain *)
  (forall cfg w s,
     ring_size_ok (TWI_RX_BUFFER_SIZE cfg) ->
     Z.of_nat (length (rx_buffer (twi w))) = TWI_RX_BUFFER_SIZE cfg ->
     0 <= rx_tail (twi w) < TWI_RX_BUFFER_SIZE cfg ->
     rx_head (twi w) = rx_tail (twi w) ->
     rx_byte_count (twi w) = 0 ->
     Z.of_nat (length (command (twi w))) = MST_PACKET_SIZE cfg * 2 ->
     Z.of_nat (length s) <= TWI_RX_BUFFER_SIZE cfg ->
     Z.of_nat (length s) <= MST_PACKET_SIZE cfg * 2 ->
     Z.of_nat (length s) < 256 ->
     exists w',
       rx_drain_all cfg (with_twi (rx_push_all cfg s) w) = Done tt w' /\
       firstn (length s) (command (twi w')) = s /\
       rx_head (twi w') = rx_tail (twi w') /\
       rx_byte_count (twi w') = 0) /\
  (* nb-usitwisl-if3.h, TX ring: UsiTwiTransmitByte, then the pops of STATE_SEND_DATA *)
  (forall size d s,
     ring_size_ok size ->
     Z.of_nat (length (GoodLine.tx_buffer d)) = size ->
     0 <= GoodLine.tx_tail d < size ->
     GoodLine.tx_head d = GoodLine.tx_tail d ->
     GoodLine.tx_count d = 0 ->
     all_bytes s ->
     Z.of_nat (length s) <= size ->
     Z.of_nat (length s) < 256 ->
     exists d',
       GoodLine.pop_n size (length s) (GoodLine.transmit_all size s d) = (s, d') /\
       GoodLine.tx_head d' = GoodLine.tx_tail d' /\
       GoodLine.tx_count d' = 0) /\
  (* nb-usitwisl-if3.h, RX ring: the pushes of the engine, then UsiTwiReceiveByte *)
  (forall size d s,
     ring_size_ok size ->
     Z.of_nat (length (GoodLine.rx_buffer d)) = size ->
     0 <= GoodLine.rx_tail d < size ->
     GoodLine.rx_head d = GoodLine.rx_tail d ->
     GoodLine.rx_count d = 0 ->
     Z.of_nat (length s) <= size ->
     Z.of_nat (length s) < 256 ->
     exists d',
       GoodLine.receive_n size (length s) (GoodLine.push_all size s d) = (s, d') /\
       GoodLine.rx_head d' = GoodLine.rx_tail d' /\
       GoodLine.rx_count d' = 0).
Proof.
  split; [| split; [| split]].
  - intros cfg w s Hsize Hlen Ht Hh Hs Hn.
    pose proof (tx_holds_empty cfg Hsize (twi w) Hlen Ht Hh) as H0.
    destruct (tx_enqueue_all cfg Hsize s w [] H0) as (w' & Hrun & H1); [cbn [length]; lia |].
    cbn [app] in H1. rewrite (map_wrap8_bytes s Hs) in H1.
    rewrite <- (app_nil_r s) in H1.
    destruct (tx_dequeue_all cfg Hsize s [] (twi w') H1) as (t' & Hpop & H2).
    exists w', t'. split; [exact Hrun |]. split; [exact Hpop |].
    apply (tx_holds_nil_inv cfg t' H2).
  - intros cfg w s Hsize Hlen Ht Hh Hc Hcmd Hn Hm Hcnt.
    pose proof (rx_holds_empty cfg Hsize (twi w) Hlen Ht Hh Hc) as H0.
    pose proof (rx_enqueue_all cfg Hsize s (twi w) [] H0) as H1.
    cbn [app length] in H1. specialize (H1 ltac:(lia) ltac:(lia)).
    set (w1 := with_twi (rx_push_all cfg s) w).
    assert (Hcmd1 : command (twi w1) = command (twi w)).
    { unfold w1. cbn [twi with_twi]. apply command_rx_push_all. }
    destruct (rx_dequeue_all cfg Hsize s w1 0%nat H1) as (w' & Hrun & H2 & Hf).
    { rewrite Hcmd1. lia. }
    exists w'. split; [| split; [exact Hf |]].
    + unfold rx_drain_all. destruct H1 as (_ & _ & _ & Hc1 & _).
      fold w1. change (twi w1) with (rx_push_all cfg s (twi w)).
      rewrite Hc1, Nat2Z.id. exact Hrun.
    + destruct H2 as (_ & Ht2 & Hh2 & Hc2 & _). cbn [length Z.of_nat] in *.
      rewrite Z.add_0_r, Z.mod_small in Hh2 by lia. split; assumption.
  - intros size d s Hsize Hlen Ht Hh Hc Hs Hn Hcnt.
    assert (H0 : gl_tx_holds size d []).
    { unfold gl_tx_holds. cbn [length Z.of_nat].
      rewrite Z.add_0_r, Z.mod_small by lia.
      split; [apply ring_view_empty; assumption | repeat split; try assumption; lia]. }
    pose proof (gl_tx_enqueue_all size Hsize s d [] H0) as H1.
    cbn [app length] in H1. specialize (H1 ltac:(lia) ltac:(lia)).
    rewrite (map_wrap8_bytes s Hs) in H1.
    assert (H1' : gl_tx_holds size (GoodLine.transmit_all size s d) (s ++ []))
      by (rewrite app_nil_r; exact H1).
    destruct (gl_tx_dequeue_all size Hsize s [] _ H1') as (d' & Hpop & H2).
    exists d'. split; [exact Hpop |].
    destruct H2 as ((_ & Ht2 & _) & Hh2 & Hc2 & _). cbn [length Z.of_nat] in *.
    rewrite Z.add_0_r, Z.mod_small in Hh2 by lia. split; assumption.
  - intros size d s Hsize Hlen Ht Hh Hc Hn Hcnt.
    assert (H0 : gl_rx_holds size d []).
    { unfold gl_rx_holds. cbn [length Z.of_nat].
      rewrite Z.add_0_r, Z.mod_small by lia.
      split; [apply ring_view_empty; assumption | repeat split; try assumption; lia]. }
    pose proof (gl_rx_enqueue_all size Hsize s d [] H0) as H1.
    cbn [app length] in H1. specialize (H1 ltac:(lia) ltac:(lia)).
    assert (H1' : gl_rx_holds size (GoodLine.push_all size s d) (s ++ []))
      by (rewrite app_nil_r; exact H1).
    destruct (gl_rx_dequeue_all size Hsize s [] _ H1') as (d' & Hpop & H2).
    exists d'. split; [exact Hpop |].
    destruct H2 as ((_ & Ht2 & _) & Hh2 & Hc2 & _). cbn [length Z.of_nat] in *.
    rewrite Z.add_0_r, Z.mod_small in Hh2 by lia. split; assumption.
Qed.

Lemma ring_fifo_law_witness :
  (exists w' t',
     transmit_reply sample_cfg sample_15_bytes sample_world = Done tt w' /\
     tx_pop_n sample_cfg 15 (twi w') = (sample_15_bytes, t') /\
     tx_head t' = tx_tail t') /\
  (exists w',
     rx_drain_all sample_cfg (with_twi (rx_push_all sample_cfg sample_16_bytes) sample_world)
       = Done tt w' /\
     firstn 16 (command (twi w')) = sample_16_bytes /\
     rx_head (twi w') = rx_tail (twi w') /\
     rx_byte_count (twi w') = 0) /\
  (exists d',
     GoodLine.pop_n 16 16 (GoodLine.transmit_all 16 sample_16_bytes (GoodLine.empty_driver 16 16))
       = (sample_16_bytes, d') /\
     GoodLine.tx_head d' = GoodLine.tx_tail d' /\
     GoodLine.tx_count d' = 0) /\
  (exists d',
     GoodLine.receive_n 16 16 (GoodLine.push_all 16 sample_16_bytes (GoodLine.empty_driver 16 16))
       = (sample_16_bytes, d') /\
     GoodLine.rx_head d' = GoodLine.rx_tail d' /\
     GoodLine.rx_count d' = 0).
Proof.
  destruct ring_fifo_law as (Htx & Hrx & Hgtx & Hgrx).
  assert (Hsize : ring_size_ok 16) by (split; [lia | reflexivity]).
  assert (H16 : all_bytes sample_16_bytes)
    by (unfold sample_16_bytes; cbn; repeat constructor; unfold is_byte; lia).
  assert (H15 : all_bytes sample_15_bytes)
    by (unfold sample_15_bytes; cbn; repeat constructor; unfold is_byte; lia).
  split; [| split; [| split]].
  - apply (Htx sample_cfg sample_world sample_15_bytes);
      [exact Hsize | reflexivity | simpl; lia | reflexivity | exact H15 | simpl; lia].
  - apply (Hrx sample_cfg sample_world sample_16_bytes);
      [exact Hsize | reflexivity | simpl; lia | reflexivity | reflexivity | reflexivity
      | simpl; lia | simpl; lia | simpl; lia].
  - apply (Hgtx 16 (GoodLine.empty_driver 16 16) sample_16_bytes);
      [exact Hsize | reflexivity | simpl; lia | reflexivity | reflexivity | exact H16
      | simpl; lia | simpl; lia].
  - apply (Hgrx 16 (GoodLine.empty_driver 16 16) sample_16_bytes);
      [exact Hsize | reflexivity | simpl; lia | reflexivity | reflexivity
      | simpl; lia | simpl; lia].
Defined.

(** C6 as stated fails: in [timonel.c] a TX sequence of TWI_TX_BUFFER_SIZE
    bytes is never enqueued, the last [UsiTwiTransmitByte] spins forever. *)
Lemma tx_ring_never_holds_its_capacity :
  Z.of_nat (length sample_16_bytes) = TWI_TX_BUFFER_SIZE sample_cfg /\
  (exists w', transmit_reply sample_cfg sample_16_bytes sample_world = Spin w') /\
  ~ (exists w' t',
       transmit_reply sample_cfg sample_16_bytes sample_world = Done tt w' /\
       tx_pop_n sample_cfg 16 (twi w') = (sample_16_bytes, t')).
Proof.
  split; [reflexivity |].
  assert (Hspin : exists w', transmit_reply sample_cfg sample_16_bytes sample_world = Spin w').
  { eexists. vm_compute. reflexivity. }
  split; [exact Hspin |].
  destruct Hspin as (w0 & Hspin). intros (w' & t' & Hdone & _).
  rewrite Hspin in Hdone. discriminate.
Qed.

(** The dispatcher's drain copies [rx_byte_count] bytes into the command
    frame without a bound: seventeen bytes in a 32-byte RX ring run past the
    sixteen slots of the frame. *)
Lemma rx_drain_overruns_command_frame :
  exists w',
    rx_drain_all wide_rx_cfg
      (with_twi (rx_push_all wide_rx_cfg (sample_16_bytes ++ [17])) wide_rx_world) = Fault w'.
Proof. eexists. vm_compute. reflexivity. Qed.

(** RX overrun in timonel.c: the push is unconditional. *)
Lemma rx_push_always_stores cfg w :
  device_state (twi w) = STATE_PUT_BYTE_IN_RX_BUFFER_AND_SEND_ACK ->
  exists w',
    UsiOverflowHandler cfg w = Done false w' /\
    rx_byte_count (twi w') = wrap8 (rx_byte_count (twi w) + 1) /\
    rx_head (twi w') = wrap8 (Z.land (rx_head (twi w) + 1) (TWI_RX_BUFFER_MASK cfg)) /\
    rx_buffer (twi w') = aset (rx_buffer (twi w)) (rx_head (twi w')) (USIDR (usi w)).
Proof.
  intros Hst. unfold UsiOverflowHandler. rewrite Hst.
  eexists. split; [reflexivity |]. cbn. repeat split.
Qed.

(** RX overrun in nb-usitwisl-if3.h: a byte that finds the ring full is
    dropped, and ACK is sent all the same. *)
Lemma GoodLine_rx_overrun_drops rx_size tx_size addr receive request d :
  GoodLine.device_state d = GoodLine.STATE_RECEIVE_DATA_AND_SEND_ACK ->
  rx_size <= GoodLine.rx_count d ->
  exists d',
    GoodLine.UsiOverflowHandler rx_size tx_size addr receive request d = (false, d') /\
    GoodLine.rx_buffer d' = GoodLine.rx_buffer d /\
    GoodLine.rx_head d' = GoodLine.rx_head d /\
    GoodLine.rx_tail d' = GoodLine.rx_tail d /\
    USIDR (GoodLine.regs d') = 0 /\
    bit_of (DDR_USI (GoodLine.regs d')) PORT_USI_SDA = true.
Proof.
  intros Hst Hfull. unfold GoodLine.UsiOverflowHandler. rewrite Hst.
  eexists. split; [reflexivity |].
  unfold GoodLine.rx_push.
  replace (GoodLine.rx_count d <? rx_size) with false by (symmetry; apply Z.ltb_ge; lia).
  cbn. repeat split.
  apply (testbit_set_flag (DDR_USI (GoodLine.regs d)) 0). lia.
Qed.

(** C7, at the failing input.  In [timonel.c] a byte that arrives in
    STATE_PUT_BYTE_IN_RX_BUFFER_AND_SEND_ACK while the RX ring holds its
    full capacity of unread bytes is not dropped: it replaces the oldest
    unread byte and the byte count passes the capacity.  ACK is sent. *)
Theorem rx_overrun_overwrites_unread_byte :
  rx_byte_count (twi sample_rx_overrun) = TWI_RX_BUFFER_SIZE sample_cfg /\
  ring_slice (rx_buffer (twi sample_rx_overrun)) 16 (rx_tail (twi sample_rx_overrun) + 1) 16
    = sample_16_bytes /\
  exists w',
    UsiOverflowHandler sample_cfg sample_rx_overrun = Done false w' /\
    ring_slice (rx_buffer (twi w')) 16 (rx_tail (twi w') + 1) 16 = 0xAA :: tl sample_16_bytes /\
    rx_buffer (twi w') <> rx_buffer (twi sample_rx_overrun) /\
    rx_byte_count (twi w') = 17 /\
    USIDR (usi w') = 0 /\
    bit_of (DDR_USI (usi w')) PORT_USI_SDA = true /\
    Z.land (USISR (usi w')) 0x0F = 0x0E.
Proof.
  split; [reflexivity |]. split; [reflexivity |].
  eexists. split; [vm_compute; reflexivity |].
  repeat split; try reflexivity.
  vm_compute. discriminate.
Qed.

(** ** A session on the bus *)

Lemma reachable_advance cfg pin m : reachable cfg m -> reachable cfg (advance cfg pin m).
Proof.
  intros Hm. unfold advance. destruct (pc m) eqn:Hpc; try exact Hm;
    apply (reach_step cfg m); try exact Hm.
  - apply step_reset. exact Hpc.
  - apply step_start. exact Hpc.
  - apply step_overflow. exact Hpc.
  - apply step_supervisor. exact Hpc.
Qed.

Lemma reachable_play cfg : forall script m,
  reachable cfg m -> reachable cfg (play cfg script m).
Proof.
  induction script as [| ev script IH]; intros m Hm; [exact Hm |].
  cbn [play fold_left]. apply IH. unfold loop_round.
  do 3 apply reachable_advance.
  apply (reach_step cfg m); [exact Hm |]. unfold bus. apply step_io.
Qed.

(** The sample session is an execution of the model, and it ends with the
    application erased page by page. *)
Lemma delete_session_erases_application :
  reachable sample_cfg sample_after_delete /\
  pc sample_after_delete = AtReset /\
  erased_pages (events (world sample_after_delete)) = pages_below 64 0x1A00 104.
Proof.
  split; [| split].
  - unfold sample_after_delete. apply reachable_play, reachable_advance.
    apply reach_power_on. reflexivity.
  - vm_compute. reflexivity.
  - vm_compute. reflexivity.
Qed.

(** The discipline at work: in the sample session every one of the 104
    erase calls lies in a slow-op section, and the overflow handler, run on
    the address byte of another slave, records only fill calls. *)
Lemma flash_commits_are_deferred_witness :
  reachable sample_cfg sample_after_delete /\
  deferred (events (world sample_after_delete)) /\
  length (erased_pages (events (world sample_after_delete))) = 104%nat /\
  exists evs,
    events (world_of (UsiOverflowHandler sample_cfg sample_foreign_address))
      = events sample_foreign_address ++ evs /\
    forallb is_fill evs = true.
Proof.
  destruct flash_commits_are_deferred as [Hhandler Hmain].
  destruct delete_session_erases_application as (Hreach & _ & Herased).
  split; [exact Hreach |].
  split; [apply (Hmain sample_cfg sample_after_delete Hreach) |].
  split; [rewrite Herased; reflexivity |].
  apply (Hhandler sample_cfg sample_foreign_address).
Defined.

(** C9 as stated fails: thirty-one frames of eight bytes take [page_ix] to
    248 in an execution of [main], and the next frame takes it to 0, not to
    256. *)
Lemma WRITPAGE_page_ix_wraps_at_256 :
  reachable sample_cfg sample_after_31_frames /\
  page_ix (mem_pack (world sample_after_31_frames)) = 248 /\
  exists w',
    Reply_WRITPAGE sample_cfg sample_writpage (world sample_after_31_frames) = Done tt w' /\
    page_ix (mem_pack w') = 0 /\
    page_ix (mem_pack w')
      <> page_ix (mem_pack (world sample_after_31_frames)) + MST_PACKET_SIZE sample_cfg.
Proof.
  split; [apply reachable_play, reachable_advance, reach_power_on; reflexivity |].
  split; [vm_compute; reflexivity |].
  eexists. split; [vm_compute; reflexivity |].
  split; [reflexivity | vm_compute; discriminate].
Qed.

(** ** The transmit loop and the room in the TX ring *)

(** A reply that does not fit: the call that meets the full ring spins. *)
Lemma tx_enqueue_overflow cfg :
  ring_size_ok (TWI_TX_BUFFER_SIZE cfg) ->
  forall s w l,
  tx_holds cfg (twi w) l ->
  TWI_TX_BUFFER_SIZE cfg <= Z.of_nat (length l) + Z.of_nat (length s) ->
  exists w', transmit_reply cfg s w = Spin w' /\
             mem_pack w' = mem_pack w /\ events w' = events w.
Proof.
  intros Hsize. induction s as [| b s IH]; intros w l Hl Hover.
  - destruct Hl as (_ & _ & _ & Hn). cbn [length] in Hover. lia.
  - cbn [length] in Hover. cbn [transmit_reply]. unfold bind.
    destruct (Z_lt_le_dec (Z.of_nat (length l) + 1) (TWI_TX_BUFFER_SIZE cfg)) as [Hroom | Hfull].
    + destruct (tx_enqueue cfg Hsize b w l Hl Hroom) as (w1 & Hb & H1).
      rewrite Hb.
      destruct (IH w1 (l ++ [wrap8 b]) H1) as (w' & Hs & Hm & He).
      { rewrite length_app. cbn [length]. lia. }
      exists w'. split; [exact Hs |].
      unfold UsiTwiTransmitByte in Hb.
      match type of Hb with context [if ?c then _ else _] => destruct c end; [discriminate |].
      injection Hb as <-. rewrite Hm, He. split; reflexivity.
    + assert (Hlen : Z.of_nat (length l) + 1 = TWI_TX_BUFFER_SIZE cfg).
      { destruct Hl as (_ & _ & _ & Hn). lia. }
      destruct (tx_enqueue_full cfg b w l Hsize Hl Hlen) as (w' & Hspin).
      rewrite Hspin. exists w'. split; [reflexivity |].
      unfold UsiTwiTransmitByte in Hspin.
      match type of Hspin with context [if ?c then _ else _] => destruct c end; [| discriminate].
      injection Hspin as <-. split; reflexivity.
Qed.

(** X1.  A reply loop [for (...) UsiTwiTransmitByte(reply[i])] returns exactly
    when the reply fits into the slots the TX ring has left, one less than its
    capacity minus the unread bytes: it then appends the reply, as bytes, behind
    the unread bytes and touches neither the record, the USI registers nor the
    flash; otherwise it never returns. *)
Theorem transmit_reply_returns_iff_fits (cfg : Config) (s : list Z) (w : World) (l : list Z) :
  ring_size_ok (TWI_TX_BUFFER_SIZE cfg) ->
  tx_holds cfg (twi w) l ->
  (tx_fits cfg l s ->
   exists w', transmit_reply cfg s w = Done tt w' /\
              tx_holds cfg (twi w') (l ++ map wrap8 s) /\
              mem_pack w' = mem_pack w /\ events w' = events w /\ usi w' = usi w) /\
  (~ tx_fits cfg l s ->
   exists w', transmit_reply cfg s w = Spin w' /\
              mem_pack w' = mem_pack w /\ events w' = events w).
Proof.
  intros Hsize Hl. split.
  - intros Hfit. destruct (tx_enqueue_all cfg Hsize s w l Hl Hfit) as (w' & Hrun & Hl').
    exists w'. split; [exact Hrun |]. split; [exact Hl' |].
    apply (transmit_reply_frame cfg s w w' Hrun).
  - intros Hno. apply (tx_enqueue_overflow cfg Hsize s w l Hl). unfold tx_fits in Hno. lia.
Qed.

Lemma transmit_reply_returns_iff_fits_witness :
  (exists w', transmit_reply sample_cfg sample_15_bytes sample_world = Done tt w' /\
              tx_holds sample_cfg (twi w') ([] ++ map wrap8 sample_15_bytes) /\
              mem_pack w' = mem_pack sample_world /\ events w' = events sample_world /\
              usi w' = usi sample_world) /\
  (exists w', transmit_reply sample_cfg sample_16_bytes sample_world = Spin w' /\
              mem_pack w' = mem_pack sample_world /\ events w' = events sample_world).
Proof.
  assert (Hsize : ring_size_ok (TWI_TX_BUFFER_SIZE sample_cfg)) by (split; [simpl; lia | reflexivity]).
  assert (Hl : tx_holds sample_cfg (twi sample_world) [])
    by (apply (tx_holds_empty sample_cfg Hsize); [reflexivity | simpl; lia | reflexivity]).
  split.
  - apply (transmit_reply_returns_iff_fits sample_cfg sample_15_bytes sample_world [] Hsize Hl).
    unfold tx_fits; simpl; lia.
  - apply (transmit_reply_returns_iff_fits sample_cfg sample_16_bytes sample_world [] Hsize Hl).
    unfold tx_fits; simpl; lia.
Defined.

(** ** The command handlers *)


Lemma land_FF x : Z.land x 0xFF = x mod 256.
Proof. change 0xFF with (Z.ones 8). rewrite Z.land_ones by lia. reflexivity. Qed.





Lemma start_address_bytes ts : 0 <= ts < 65536 ->
  256 * wrap8 (Z.shiftr (Z.land ts 0xFF00) 8) + wrap8 (Z.land ts 0xFF) = ts.
Proof.
  intros H. rewrite Z.shiftr_land. change (Z.shiftr 0xFF00 8) with 0xFF.
  rewrite !land_FF, Z.shiftr_div_pow2 by lia. change (2 ^ 8) with 256.
  unfold wrap8. rewrite !Z.mod_mod by lia.
  rewrite (Z.mod_small (ts / 256)) by (split; [apply Z.div_pos; lia | apply Z.div_lt_upper_bound; lia]).
  pose proof (Z.div_mod ts 256 ltac:(lia)). lia.
Qed.

Lemma fold_add_app a b :
  fold_right Z.add 0 (a ++ b) = fold_right Z.add 0 a + fold_right Z.add 0 b.
Proof. induction a as [| x a IH]; cbn [app fold_right]; lia. Qed.

Lemma flash_bytes_all_bytes w addr n : all_bytes (flash_bytes w addr n).
Proof.
  unfold all_bytes, flash_bytes. apply Forall_forall. intros x Hx.
  apply in_map_iff in Hx. destruct Hx as (k & <- & _).
  rewrite land_FF. unfold is_byte. apply Z.mod_pos_bound. lia.
Qed.




Lemma upd_nat_middle pre x t v : upd_nat (pre ++ x :: t) (length pre) v = pre ++ v :: t.
Proof. induction pre as [| p pre IH]; cbn [app length upd_nat]; [| rewrite IH]; reflexivity. Qed.

Lemma aget_middle pre x t : aget (pre ++ x :: t) (Z.of_nat (length pre)) = x.
Proof. unfold aget. rewrite Nat2Z.id. apply nth_middle. Qed.

Lemma reply_store_middle pre x t v w :
  reply_store (pre ++ x :: t) (Z.of_nat (length pre)) v w = Done (pre ++ v :: t) w.
Proof.
  unfold reply_store, aset. rewrite Nat2Z.id, upd_nat_middle.
  replace ((0 <=? Z.of_nat (length pre)) && (Z.of_nat (length pre) <? Z.of_nat (length (pre ++ x :: t))))
    with true; [reflexivity |].
  symmetry. apply andb_true_intro. split; [apply Z.leb_le; lia |].
  apply Z.ltb_lt. rewrite length_app. cbn [length]. lia.
Qed.

Lemma flash_bytes_succ w addr n :
  flash_bytes w addr (S n) = Z.land (pgm w addr) 0xFF :: flash_bytes w (addr + 1) n.
Proof.
  unfold flash_bytes. cbn [seq map]. rewrite Z.add_0_r. f_equal.
  rewrite <- seq_shift, map_map. apply map_ext. intros k.
  replace (addr + Z.of_nat (S k)) with (addr + 1 + Z.of_nat k) by lia. reflexivity.
Qed.

(** The fill loop of READFLSH on an array that is large enough: [pre] is
    what has been stored so far, [junk] the slots still to fill and [acc] the
    checksum accumulator in the last slot. *)
Lemma readflsh_fill_loop_run cmd w : forall junk pre acc pos fuel,
  aget cmd 3 + 1 = Z.of_nat (length pre) + Z.of_nat (length junk) ->
  aget cmd 3 < 254 ->
  (length junk < fuel)%nat ->
  is_byte acc ->
  readflsh_fill_loop fuel cmd (aget cmd 3 + 2) (pre ++ junk ++ [acc])
    (Z.of_nat (length pre)) pos w
  = Done (pre ++ flash_bytes w pos (length junk)
              ++ [wrap8 (acc + fold_right Z.add 0 (flash_bytes w pos (length junk)))]) w.
Proof.
  induction junk as [| j junk IH]; intros pre acc pos fuel Hn Hlt Hfuel Hacc;
    (destruct fuel as [| fuel]; [cbn [length] in Hfuel; lia |]); cbn [readflsh_fill_loop].
  - cbn [length] in Hn.
    destruct (Z.ltb_spec (Z.of_nat (length pre)) (aget cmd 3 + 1)) as [H | _]; [lia |].
    cbn [flash_bytes length seq map fold_right app]. unfold flash_bytes. cbn [seq map fold_right app].
    rewrite Z.add_0_r, wrap8_small by exact Hacc. reflexivity.
  - cbn [length] in Hn, Hfuel.
    destruct (Z.ltb_spec (Z.of_nat (length pre)) (aget cmd 3 + 1)) as [_ | H]; [| lia].
    set (v := Z.land (pgm w pos) 0xFF).
    assert (Hlast : aget cmd 3 + 2 - 1 = Z.of_nat (length (pre ++ v :: junk))).
    { rewrite length_app. cbn [length]. lia. }
    unfold bind at 1. cbn [app]. rewrite reply_store_middle.
    unfold bind at 1.
    replace (pre ++ v :: junk ++ [acc]) with ((pre ++ v :: junk) ++ [acc])
      by (rewrite <- app_assoc; reflexivity).
    rewrite Hlast, reply_store_middle, aget_middle.
    assert (Hv : aget ((pre ++ v :: junk) ++ [acc]) (Z.of_nat (length pre)) = v).
    { rewrite <- app_assoc. cbn [app]. apply aget_middle. }
    rewrite Hv. rewrite <- app_assoc. cbn [app].
    replace (wrap8 (Z.of_nat (length pre) + 1)) with (Z.of_nat (length (pre ++ [v])))
      by (rewrite length_app; cbn [length]; rewrite wrap8_small; unfold is_byte; lia).
    replace (pre ++ v :: junk ++ [wrap8 (acc + v)]) with ((pre ++ [v]) ++ junk ++ [wrap8 (acc + v)])
      by (rewrite <- app_assoc; reflexivity).
    rewrite IH; [| rewrite length_app; cbn [length]; lia | exact Hlt | lia | apply wrap8_range].
    change (length (j :: junk)) with (S (length junk)).
    rewrite flash_bytes_succ. fold v. cbn [fold_right].
    rewrite wrap8_add_l, <- app_assoc, Z.add_assoc. reflexivity.
Qed.

(** For a length below 254 no store leaves the array and the reply is the
    acknowledge, the flash bytes and the checksum. *)
Lemma Reply_READFLSH_frame_eq cfg cmd w :
  is_byte (aget cmd 1) -> is_byte (aget cmd 2) -> 0 <= aget cmd 3 < 254 ->
  let data := flash_bytes w (256 * aget cmd 1 + aget cmd 2) (Z.to_nat (aget cmd 3)) in
  Reply_READFLSH_frame cfg cmd w
  = Done (wrap8 (ACKRDFSH cfg) :: data ++ [sum8 (data ++ [aget cmd 1; aget cmd 2])]) w.
Proof.
  intros Hhi Hlo Hn data.
  set (n := Z.to_nat (aget cmd 3)).
  assert (Hnn : aget cmd 3 = Z.of_nat n) by (unfold n; lia).
  unfold Reply_READFLSH_frame.
  rewrite (wrap8_small (aget cmd 3 + 2)) by (unfold is_byte; lia).
  replace (Z.to_nat (aget cmd 3 + 2)) with (S (n + 1)) by lia.
  cbn [repeat]. rewrite repeat_app. cbn [repeat].
  unfold bind at 1.
  assert (H0 : reply_store (0 :: repeat 0 n ++ [0]) 0 (wrap8 (ACKRDFSH cfg)) w
               = Done (wrap8 (ACKRDFSH cfg) :: repeat 0 n ++ [0]) w)
    by exact (reply_store_middle [] 0 (repeat 0 n ++ [0]) (wrap8 (ACKRDFSH cfg)) w).
  rewrite H0. clear H0.
  unfold bind at 1.
  assert (Hix : forall l, length l = n ->
            aget cmd 3 + 2 - 1 = Z.of_nat (length (wrap8 (ACKRDFSH cfg) :: l))).
  { intros l Hl. cbn [length]. lia. }
  set (ack := wrap8 (ACKRDFSH cfg)).
  assert (Hmid : forall l x v, length l = n ->
            reply_store (ack :: l ++ [x]) (aget cmd 3 + 2 - 1) v w = Done (ack :: l ++ [v]) w).
  { intros l x v Hl. rewrite (Hix l Hl). exact (reply_store_middle (ack :: l) x [] v w). }
  assert (Hget : forall l x, length l = n -> aget (ack :: l ++ [x]) (aget cmd 3 + 2 - 1) = x).
  { intros l x Hl. rewrite (Hix l Hl). exact (aget_middle (ack :: l) x []). }
  rewrite Hmid by apply repeat_length.
  unfold bind at 1.
  rewrite Z.shiftl_mul_pow2 by lia. change (2 ^ 8) with 256.
  rewrite (Z.mul_comm (aget cmd 1) 256).
  pose proof (readflsh_fill_loop_run cmd w (repeat 0 n) [ack] 0
                (256 * aget cmd 1 + aget cmd 2) 256) as Hloop.
  rewrite repeat_length in Hloop. cbn [length app] in Hloop.
  change (Z.of_nat 1) with 1 in Hloop.
  rewrite Hloop; [| lia | lia | lia | unfold is_byte; lia].
  fold n. fold data. clear Hloop.
  assert (Hdl : length data = n).
  { unfold data, flash_bytes. rewrite length_map, length_seq. reflexivity. }
  unfold bind at 1.
  rewrite (Hget data _ Hdl), (Hmid data _ _ Hdl), (Hget data _ Hdl), (Hmid data _ _ Hdl).
  do 3 f_equal.
  unfold sum8. rewrite fold_add_app. cbn [fold_right].
  rewrite (wrap8_small (aget cmd 1)), (wrap8_small (aget cmd 2)) by assumption.
  rewrite !wrap8_add_l. fold data. f_equal.
  rewrite <- Z.add_assoc, wrap8_add_l. f_equal. unfold data, n. lia.
Qed.

(** X4.  READFLSH with a length [n] below 254, the bytes read lying inside
    the 64 KiB that the 16-bit flash pointer addresses: no store leaves the
    reply array and the reply is the acknowledge, the [n] flash bytes in
    address order and a checksum that is the 8-bit sum of these bytes and of
    the two address bytes of the request.  The handler queues the reply and
    returns exactly when the TX ring has room for its [n + 2] bytes; when it
    has not, the transmit loop never returns.  The record and the flash
    operations are untouched in both cases. *)
Theorem READFLSH_reply_and_checksum (cfg : Config) (cmd : list Z) (w : World) (l : list Z) :
  let hi := aget cmd 1 in
  let lo := aget cmd 2 in
  let n := aget cmd 3 in
  is_byte hi -> is_byte lo -> 0 <= n < 254 ->
  256 * hi + lo + n <= 65536 ->
  ring_size_ok (TWI_TX_BUFFER_SIZE cfg) ->
  tx_holds cfg (twi w) l ->
  let data := flash_bytes w (256 * hi + lo) (Z.to_nat n) in
  let reply := wrap8 (ACKRDFSH cfg) :: data ++ [sum8 (data ++ [hi; lo])] in
  Reply_READFLSH_frame cfg cmd w = Done reply w /\
  Z.of_nat (length reply) = n + 2 /\
  (tx_fits cfg l reply ->
   exists w',
     Reply_READFLSH cfg cmd w = Done tt w' /\
     tx_holds cfg (twi w') (l ++ reply) /\
     mem_pack w' = mem_pack w /\ events w' = events w) /\
  (~ tx_fits cfg l reply ->
   exists w',
     Reply_READFLSH cfg cmd w = Spin w' /\
     mem_pack w' = mem_pack w /\ events w' = events w).
Proof.
  intros hi lo n Hhi Hlo Hn Hrange Hsize Hl data reply.
  pose proof (Reply_READFLSH_frame_eq cfg cmd w Hhi Hlo Hn) as Hframe.
  cbv zeta in Hframe. fold hi lo n in Hframe. fold data in Hframe. fold reply in Hframe.
  assert (Hrun : Reply_READFLSH cfg cmd w = transmit_reply cfg reply w).
  { unfold Reply_READFLSH, bind. rewrite Hframe. reflexivity. }
  assert (Hbytes : all_bytes reply).
  { unfold reply. constructor; [apply wrap8_range |].
    apply Forall_app. split; [apply flash_bytes_all_bytes |].
    constructor; [unfold sum8; apply wrap8_range | constructor]. }
  split; [exact Hframe |]. split; [| split].
  - unfold reply, data, flash_bytes. cbn [length].
    rewrite length_app, length_map, length_seq. cbn [length]. lia.
  - intros Hfits.
    destruct (tx_enqueue_all cfg Hsize reply w l Hl Hfits) as (w' & Hdone & Hl').
    destruct (transmit_reply_frame cfg _ _ _ Hdone) as (Hm & He & _).
    exists w'. rewrite Hrun. rewrite (map_wrap8_bytes reply Hbytes) in Hl'.
    split; [exact Hdone |]. split; [exact Hl' |]. split; assumption.
  - intros Hover.
    destruct (tx_enqueue_overflow cfg Hsize reply w l Hl) as (w' & Hspin & Hm & He);
      [unfold tx_fits in Hover; lia |].
    exists w'. rewrite Hrun. split; [exact Hspin |]. split; assumption.
Qed.

Lemma READFLSH_reply_and_checksum_witness :
  let data := flash_bytes sample_world (256 * 0x19 + 0xC0) 4 in
  let reply := wrap8 0x78 :: data ++ [sum8 (data ++ [0x19; 0xC0])] in
  Reply_READFLSH_frame sample_cfg sample_readflsh sample_world = Done reply sample_world /\
  Z.of_nat (length reply) = 4 + 2 /\
  (tx_fits sample_cfg [] reply ->
   exists w',
     Reply_READFLSH sample_cfg sample_readflsh sample_world = Done tt w' /\
     tx_holds sample_cfg (twi w') ([] ++ reply) /\
     mem_pack w' = mem_pack sample_world /\ events w' = events sample_world) /\
  (~ tx_fits sample_cfg [] reply ->
   exists w',
     Reply_READFLSH sample_cfg sample_readflsh sample_world = Spin w' /\
     mem_pack w' = mem_pack sample_world /\ events w' = events sample_world).
Proof.
  assert (Hsize : ring_size_ok 16) by (split; [lia | reflexivity]).
  apply (READFLSH_reply_and_checksum sample_cfg sample_readflsh sample_world []).
  - unfold is_byte, aget; simpl; lia.
  - unfold is_byte, aget; simpl; lia.
  - unfold aget; simpl; lia.
  - unfold aget; simpl; lia.
  - exact Hsize.
  - apply (tx_holds_empty sample_cfg Hsize); [reflexivity | simpl; lia | reflexivity].
Defined.

(** X5.  A READFLSH request for 254 or 255 bytes makes the 8-bit reply
    length [command[3] + 2] wrap to 0 or 1, and the handler stores outside
    the reply array of that length ([reply[0]] of an empty array for 254,
    [reply[1]] of a one-byte array for 255) before a single byte is queued or
    the record is changed.  For 255 the guard of the fill loop holds of every
    [uint8_t] index. *)
Theorem READFLSH_length_overflow (cfg : Config) (cmd : list Z) (w : World) :
  254 <= aget cmd 3 < 256 ->
  wrap8 (aget cmd 3 + 2) = aget cmd 3 - 254 /\
  Reply_READFLSH_frame cfg cmd w = Fault w /\
  Reply_READFLSH cfg cmd w = Fault w /\
  (aget cmd 3 = 255 -> forall i, is_byte i -> (i <? aget cmd 3 + 1) = true).
Proof.
  intros Hn.
  assert (Hframe : Reply_READFLSH_frame cfg cmd w = Fault w).
  { assert (Hcase : aget cmd 3 = 254 \/ aget cmd 3 = 255) by lia.
    unfold Reply_READFLSH_frame.
    destruct Hcase as [H | H]; rewrite H.
    - reflexivity.
    - change (wrap8 (255 + 2)) with 1. change (Z.to_nat 1) with 1%nat.
      cbn [repeat]. unfold bind at 1.
      assert (H0 : reply_store [0] 0 (wrap8 (ACKRDFSH cfg)) w = Done [wrap8 (ACKRDFSH cfg)] w)
        by reflexivity.
      rewrite H0. unfold bind at 1.
      assert (H1 : reply_store [wrap8 (ACKRDFSH cfg)] (1 - 1) 0 w = Done [0] w) by reflexivity.
      rewrite H1. unfold bind at 1.
      cbn [readflsh_fill_loop]. rewrite H.
      change (1 <? 255 + 1) with true. cbv iota.
      unfold bind at 1. reflexivity. }
  split; [| split; [exact Hframe | split]].
  - unfold wrap8. assert (Hcase : aget cmd 3 = 254 \/ aget cmd 3 = 255) by lia.
    destruct Hcase as [-> | ->]; reflexivity.
  - unfold Reply_READFLSH, bind. rewrite Hframe. reflexivity.
  - intros H i Hi. apply Z.ltb_lt. unfold is_byte in Hi. lia.
Qed.

Lemma READFLSH_length_overflow_witness :
  wrap8 (aget sample_readflsh_254 3 + 2) = aget sample_readflsh_254 3 - 254 /\
  Reply_READFLSH_frame sample_cfg sample_readflsh_254 sample_world = Fault sample_world /\
  Reply_READFLSH sample_cfg sample_readflsh_254 sample_world = Fault sample_world /\
  (aget sample_readflsh_254 3 = 255 ->
   forall i, is_byte i -> (i <? aget sample_readflsh_254 3 + 1) = true).
Proof.
  apply (READFLSH_length_overflow sample_cfg sample_readflsh_254 sample_world).
  unfold aget; simpl; lia.
Defined.



(** ** The handshake that enables the slow operations *)

Lemma bind_Done {A B} (m : M A) (k : A -> M B) w r w' :
  bind m k w = Done r w' -> exists a w1, m w = Done a w1 /\ k a w1 = Done r w'.
Proof.
  unfold bind. destruct (m w) as [a w1 | w1 | w1]; [| discriminate | discriminate].
  intros H. exists a, w1. split; [reflexivity | exact H].
Qed.

Lemma send_data_byte_false cfg w r w' : send_data_byte cfg w = Done r w' -> r = false.
Proof.
  unfold send_data_byte. destruct (tx_pop cfg (twi w)) as [[b t'] |]; intros H.
  - injection H as <- _. reflexivity.
  - injection H as <- _. reflexivity.
Qed.

(** X7.  The overflow handler returns [true], which is what lets the main
    loop run a slow operation, in one case only: the acknowledge bit that
    follows a reply byte is a NACK.  The handler then re-arms the start
    detector with a cleared counter and leaves the rings, the record and the
    flash alone; the bytes still queued stay in the TX ring. *)
Theorem slow_ops_enabled_only_by_nack (cfg : Config) (w : World) (r : bool) (w' : World) :
  UsiOverflowHandler cfg w = Done r w' ->
  (r = true <->
   device_state (twi w) = STATE_CHECK_RECEIVED_ACK /\ USIDR (usi w) <> 0) /\
  (r = true ->
   twi w' = twi w /\ mem_pack w' = mem_pack w /\ events w' = events w /\
   USICR (usi w') = USICR_DETECT_TWI_START /\ Z.land (USISR (usi w')) 0x0F = 0).
Proof.
  intros H. unfold UsiOverflowHandler in H.
  destruct (device_state (twi w)) eqn:Hst.
  - assert (Hr : r = false).
    { match type of H with (if ?c then _ else _) = _ => destruct c end.
      + apply bind_Done in H. destruct H as (a & w1 & _ & H).
        apply bind_Done in H. destruct H as (a2 & w2 & _ & H).
        injection H as <- _. reflexivity.
      + injection H as <- _. reflexivity. }
    subst r. split; [split; [discriminate | intros [Hc _]; discriminate] | discriminate].
  - apply send_data_byte_false in H. subst r.
    split; [split; [discriminate | intros [Hc _]; discriminate] | discriminate].
  - injection H as <- _.
    split; [split; [discriminate | intros [Hc _]; discriminate] | discriminate].
  - destruct (Z.eqb_spec (USIDR (usi w)) 0) as [Hz | Hnz]; cbn [negb] in H.
    + apply send_data_byte_false in H. subst r.
      split; [split; [discriminate | intros [_ Hc]; contradiction] | discriminate].
    + injection H as <- <-.
      split; [split; [intros _; split; [reflexivity | exact Hnz] | reflexivity] |].
      intros _. split; [reflexivity |]. split; [reflexivity |]. split; [reflexivity |].
      split; [reflexivity |]. apply store_USISR_counter.
  - injection H as <- _.
    split; [split; [discriminate | intros [Hc _]; discriminate] | discriminate].
  - injection H as <- _.
    split; [split; [discriminate | intros [Hc _]; discriminate] | discriminate].
Qed.

Lemma slow_ops_enabled_only_by_nack_witness :
  exists w',
    UsiOverflowHandler sample_cfg sample_nack = Done true w' /\
    (true = true <->
     device_state (twi sample_nack) = STATE_CHECK_RECEIVED_ACK /\ USIDR (usi sample_nack) <> 0) /\
    (true = true ->
     twi w' = twi sample_nack /\ mem_pack w' = mem_pack sample_nack /\
     events w' = events sample_nack /\
     USICR (usi w') = USICR_DETECT_TWI_START /\ Z.land (USISR (usi w')) 0x0F = 0).
Proof.
  eexists. split; [reflexivity |].
  apply (slow_ops_enabled_only_by_nack sample_cfg sample_nack true). reflexivity.
Defined.

(** ** The exit by timeout *)

Section Timeout.
Variable cfg : Config.
Hypothesis Htimeout : TIMEOUT_EXIT cfg = true.

Lemma idle_round_supervisor m :
  pc m = AtStartPoll -> bus_idle (world m) ->
  idle_round cfg m =
  supervisor cfg (mkMain (world m) (slow_ops_enabled m) (led_delay m) (exit_delay m) AtSupervisor).
Proof.
  intros Hpc [Hs Ho]. unfold idle_round, poll_start, poll_overflow.
  rewrite Hs. cbn [andb world slow_ops_enabled led_delay exit_delay].
  rewrite Ho. cbn [andb]. reflexivity.
Qed.

Lemma idle_round_counts m :
  waiting cfg m -> 0 < rounds_left m ->
  waiting cfg (idle_round cfg m) /\
  rounds_left (idle_round cfg m) = rounds_left m - 1 /\
  world (idle_round cfg m) = world m /\
  slow_ops_enabled (idle_round cfg m) = slow_ops_enabled m.
Proof.
  intros (Hpc & Hidle & Hinit & Hled & Hexit) Hpos.
  rewrite idle_round_supervisor by assumption.
  pose proof Hidle as [Hs Ho].
  unfold supervisor, rounds_left in *. cbn [world slow_ops_enabled led_delay exit_delay].
  rewrite Hinit, Htimeout.
  destruct (Z.eqb_spec (led_delay m) 0) as [Hl0 | Hl0].
  - destruct (Z.eqb_spec (exit_delay m) 0) as [He0 | He0]; [lia |].
    cbn [world slow_ops_enabled led_delay exit_delay pc]. unfold waiting.
    cbn [world slow_ops_enabled led_delay exit_delay pc].
    rewrite Hl0. change (wrap16 (0 - 1)) with 65535.
    unfold wrap8. rewrite Z.mod_small by lia.
    repeat split; try assumption; try reflexivity; try lia.
  - cbn [world slow_ops_enabled led_delay exit_delay pc]. unfold waiting.
    cbn [world slow_ops_enabled led_delay exit_delay pc].
    unfold wrap16. rewrite Z.mod_small by lia.
    repeat split; try assumption; try reflexivity; try lia.
Qed.

Lemma idle_rounds_count : forall n m,
  waiting cfg m -> rounds_left m = Z.of_nat n ->
  (forall k, (k <= n)%nat ->
     pc (Nat.iter k (idle_round cfg) m) = AtStartPoll /\
     world (Nat.iter k (idle_round cfg) m) = world m) /\
  waiting cfg (Nat.iter n (idle_round cfg) m) /\
  rounds_left (Nat.iter n (idle_round cfg) m) = 0 /\
  world (Nat.iter n (idle_round cfg) m) = world m.
Proof.
  induction n as [| n IH]; intros m Hw Hn.
  - split.
    + intros k Hk. assert (k = 0%nat) by lia. subst k. cbn [Nat.iter].
      split; [apply Hw | reflexivity].
    + cbn [Nat.iter]. split; [exact Hw |]. split; [exact Hn | reflexivity].
  - destruct (idle_round_counts m Hw) as (Hw1 & Hn1 & Hworld1 & _); [lia |].
    destruct (IH (idle_round cfg m) Hw1) as (Hall & Hwn & Hzero & Hworld); [lia |].
    split.
    + intros k Hk. destruct k as [| k].
      * cbn [Nat.iter]. split; [apply Hw | reflexivity].
      * rewrite Nat.iter_succ_r. destruct (Hall k) as (Hp & Hwk); [lia |].
        split; [exact Hp | rewrite Hwk; exact Hworld1].
    + rewrite Nat.iter_succ_r. split; [exact Hwn |]. split; [exact Hzero |].
      rewrite Hworld. exact Hworld1.
Qed.

Lemma idle_round_leaves m :
  waiting cfg m -> rounds_left m = 0 ->
  pc (idle_round cfg m) = InApplication /\
  events (world (idle_round cfg m)) = events (world m) ++ [JumpRunApplication].
Proof.
  intros (Hpc & Hidle & Hinit & Hled & Hexit) Hz.
  rewrite idle_round_supervisor by assumption.
  unfold supervisor, rounds_left in *. cbn [world slow_ops_enabled led_delay exit_delay].
  rewrite Hinit, Htimeout.
  assert (Hl0 : led_delay m = 0) by lia. assert (He0 : exit_delay m = 0) by lia.
  rewrite Hl0, He0. cbn [Z.eqb world pc emit events].
  rewrite events_restore_clock. split; reflexivity.
Qed.

End Timeout.

(** X8.  A bootloader that is not initialized and sees no bus activity
    leaves to the application by itself: from the top of the loop with the
    counters [led_delay] and [exit_delay], it stays in the loop, with nothing
    recorded, for [led_delay + 65536 * exit_delay] rounds, and the next round
    calls RunApplication. *)
Theorem timeout_exit_round_count (cfg : Config) (m : Main) :
  TIMEOUT_EXIT cfg = true ->
  pc m = AtStartPoll ->
  bus_idle (world m) ->
  initialized cfg (mem_pack (world m)) = false ->
  0 <= led_delay m < 65536 -> 0 <= exit_delay m < 256 ->
  let n := Z.to_nat (rounds_left m) in
  (forall k, (k <= n)%nat ->
     pc (Nat.iter k (idle_round cfg) m) = AtStartPoll /\
     world (Nat.iter k (idle_round cfg) m) = world m) /\
  pc (Nat.iter (S n) (idle_round cfg) m) = InApplication /\
  events (world (Nat.iter (S n) (idle_round cfg) m)) = events (world m) ++ [JumpRunApplication].
Proof.
  intros Ht Hpc Hidle Hinit Hled Hexit n.
  assert (Hw : waiting cfg m) by (unfold waiting; auto).
  assert (Hn : rounds_left m = Z.of_nat n) by (unfold n, rounds_left; lia).
  destruct (idle_rounds_count cfg Ht n m Hw Hn) as (Hall & Hwn & Hzero & Hworld).
  split; [exact Hall |].
  rewrite !Nat.iter_succ.
  destruct (idle_round_leaves cfg Ht _ Hwn Hzero) as (Hp & He).
  split; [exact Hp |]. rewrite He, Hworld. reflexivity.
Qed.

Lemma timeout_exit_round_count_witness :
  (forall k, (k <= 2)%nat ->
     pc (Nat.iter k (idle_round sample_cfg) sample_waiting) = AtStartPoll /\
     world (Nat.iter k (idle_round sample_cfg) sample_waiting) = world sample_waiting) /\
  pc (Nat.iter 3 (idle_round sample_cfg) sample_waiting) = InApplication /\
  events (world (Nat.iter 3 (idle_round sample_cfg) sample_waiting))
    = events (world sample_waiting) ++ [JumpRunApplication].
Proof.
  apply (timeout_exit_round_count sample_cfg sample_waiting).
  - reflexivity.
  - reflexivity.
  - split; reflexivity.
  - reflexivity.
  - simpl; lia.
  - simpl; lia.
Defined.

(** ** The page commit *)

Lemma for_each_fills (f : Z -> Z) d : forall l w,
  for_each l (fun i => boot_page_fill (f i) d) w =
  Done tt (set_events (events w ++ map (fun i => SpmFill (wrap16 (f i)) (wrap16 d)) l) w).
Proof.
  induction l as [| i l IH]; intros w; cbn [for_each map].
  - rewrite set_events_same. reflexivity.
  - unfold bind at 1. unfold boot_page_fill at 1. unfold act. rewrite IH.
    unfold set_events, emit. cbn. rewrite <- app_assoc. reflexivity.
Qed.

Lemma even_indices_range n i : In i (even_indices n) -> 0 <= i < n.
Proof.
  unfold even_indices. intros H. apply in_map_iff in H.
  destruct H as (k & <- & Hk). apply in_seq in Hk.
  assert (Hz : 2 * ((n + 1) / 2) <= n + 1) by (Z.div_mod_to_equations; lia).
  lia.
Qed.

Lemma start_above_page cfg : flash_geometry_ok cfg -> SPM_PAGESIZE cfg <= TIMONEL_START cfg.
Proof.
  intros (_ & Hp & Hts & Hmod).
  pose proof (Z.div_mod (TIMONEL_START cfg) (SPM_PAGESIZE cfg) ltac:(lia)) as Hdm.
  rewrite Hmod, Z.add_0_r in Hdm.
  assert (0 < TIMONEL_START cfg / SPM_PAGESIZE cfg) by nia. nia.
Qed.

Lemma write_trampoline_page_run cfg m w :
  flash_geometry_ok cfg -> 2 <= SPM_PAGESIZE cfg ->
  write_trampoline_page cfg m w =
  Done tt (set_events (events w ++ trampoline_page cfg m) w).
Proof.
  intros Hgeo Hp2. pose proof (start_above_page cfg Hgeo) as Hge.
  destruct Hgeo as (Hreset & Hp & Hts & Hmod).
  unfold write_trampoline_page. unfold bind at 1. rewrite for_each_fills.
  unfold bind, boot_page_fill, boot_page_write, act, trampoline_page.
  unfold set_events, emit. cbn [events twi usi mem_pack pgm low_fuse OSCCAL].
  rewrite !(wrap16_small (TIMONEL_START cfg - 2)) by lia.
  rewrite !(wrap16_small (TIMONEL_START cfg - SPM_PAGESIZE cfg)) by lia.
  rewrite (wrap16_small (trampoline_word cfg m)) by apply wrap16_range.
  change (wrap16 0xFFFF) with 0xFFFF.
  assert (Hmap : map (fun i => SpmFill (wrap16 (TIMONEL_START cfg - SPM_PAGESIZE cfg + i)) 0xFFFF)
                   (even_indices (SPM_PAGESIZE cfg - 2)) =
                 map (fun i => SpmFill (TIMONEL_START cfg - SPM_PAGESIZE cfg + i) 0xFFFF)
                   (even_indices (SPM_PAGESIZE cfg - 2))).
  { apply map_ext_in. intros i Hi. apply even_indices_range in Hi.
    rewrite wrap16_small by lia. reflexivity. }
  rewrite Hmap, <- !app_assoc. reflexivity.
Qed.

(** X9.  The page commit of a build with automatic page addressing.  When the
    supervisor runs the write slow operation with a full page buffer
    ([page_ix = SPM_PAGESIZE]) below the trampoline page, it programs exactly
    that page, moves the page address one page up and resets the page index;
    after page 0 it also programs the trampoline page, whose words are all
    0xFFFF but the last, which is the trampoline word.  With a page buffer that
    is not full, or a page address at or over the trampoline page, it programs
    nothing and the record stays as it is. *)
Theorem full_page_is_committed (cfg : Config) (m : Main) :
  flash_geometry_ok cfg -> 2 <= SPM_PAGESIZE cfg ->
  auto_page_build cfg ->
  commit_pending cfg m ->
  let mp := mem_pack (world m) in
  0 <= page_addr mp < 65536 ->
  (page_ix mp = SPM_PAGESIZE cfg /\ page_addr mp < TIMONEL_START cfg - SPM_PAGESIZE cfg ->
   exists w',
     supervisor cfg m = mkMain w' false (led_delay m) (exit_delay m) AtStartPoll /\
     events w' = events (world m) ++ SlowOpsTaken :: SpmWrite (page_addr mp)
                   :: (if page_addr mp =? 0 then trampoline_page cfg mp else []) /\
     page_addr (mem_pack w') = page_addr mp + SPM_PAGESIZE cfg /\
     page_ix (mem_pack w') = 0 /\
     flags (mem_pack w') = flags mp) /\
  (page_ix mp <> SPM_PAGESIZE cfg \/ TIMONEL_START cfg - SPM_PAGESIZE cfg <= page_addr mp ->
   supervisor cfg m =
   mkMain (emit SlowOpsTaken (world m)) false (led_delay m) (exit_delay m) AtStartPoll).
Proof.
  intros Hgeo Hp2 (Hauto & Htpl & Hforce) (Hinit & Hslow & Hexit & Hdel) mp Hpa.
  pose proof (start_above_page cfg Hgeo) as Hge.
  pose proof Hgeo as (Hreset & Hp & Hts & Hmod).
  assert (Hsup : supervisor cfg m =
                 mkMain (world_of (slow_op_write_page cfg (emit SlowOpsTaken (world m))))
                        false (led_delay m) (exit_delay m) AtStartPoll).
  { unfold supervisor. rewrite Hinit, Hslow. cbn [emit mem_pack]. rewrite Hexit, Hdel. reflexivity. }
  rewrite Hsup. clear Hsup.
  assert (Hlimit : wrap16 (if APP_USE_TPL_PG cfg || negb (AUTO_PAGE_ADDR cfg)
                           then TIMONEL_START cfg
                           else TIMONEL_START cfg - SPM_PAGESIZE cfg)
                   = TIMONEL_START cfg - SPM_PAGESIZE cfg).
  { rewrite Htpl, Hauto. cbn [negb orb]. apply wrap16_small. lia. }
  unfold slow_op_write_page. unfold bind at 1. rewrite Hlimit.
  cbn [emit mem_pack]. fold mp. rewrite Hforce, Hauto, Htpl.
  change (false && (page_addr mp =? wrap16 (TIMONEL_START cfg - SPM_PAGESIZE cfg))) with false.
  split.
  - intros [Hix Hlt].
    rewrite Hix, Z.eqb_refl.
    replace (page_addr mp <? TIMONEL_START cfg - SPM_PAGESIZE cfg) with true
      by (symmetry; apply Z.ltb_lt; exact Hlt).
    cbn [andb]. rewrite Hreset.
    destruct (Z.eqb_spec (page_addr mp) 0) as [Hz | Hnz].
    + eexists. split.
      * unfold bind at 1. unfold ret at 1. unfold bind at 1.
        unfold boot_page_write at 1. unfold act at 1.
        unfold bind at 1. unfold bind at 1.
        rewrite (write_trampoline_page_run cfg mp _ Hgeo Hp2).
        unfold bind, ret, act. cbn [world_of]. reflexivity.
      * unfold with_mem_pack, set_events, emit, set_page_addr, set_page_ix.
        cbn [events mem_pack page_addr page_ix flags twi usi pgm low_fuse OSCCAL].
        fold mp. rewrite (wrap16_small (page_addr mp)) by lia.
        rewrite wrap16_small by lia. rewrite <- !app_assoc.
        repeat split; reflexivity.
    + eexists. split.
      * cbv beta iota delta [bind ret act boot_page_write world_of]. reflexivity.
      * unfold with_mem_pack, set_events, emit, set_page_addr, set_page_ix.
        cbn [events mem_pack page_addr page_ix flags twi usi pgm low_fuse OSCCAL].
        fold mp. rewrite (wrap16_small (page_addr mp)) by lia.
        rewrite wrap16_small by lia. rewrite <- !app_assoc.
        repeat split; reflexivity.
  - intros Hno.
    assert (Hc : (page_ix mp =? SPM_PAGESIZE cfg)
                 && (page_addr mp <? TIMONEL_START cfg - SPM_PAGESIZE cfg) = false).
    { destruct Hno as [Hix | Hge'].
      - apply andb_false_intro1. apply Z.eqb_neq. exact Hix.
      - apply andb_false_intro2. apply Z.ltb_ge. exact Hge'. }
    unfold bind at 1. cbn [emit mem_pack]. fold mp. rewrite Hc. reflexivity.
Qed.

Lemma full_page_is_committed_witness :
  exists w',
    supervisor sample_cfg sample_full_page = mkMain w' false 0 0 AtStartPoll /\
    events w' = [] ++ SlowOpsTaken :: SpmWrite 0
                  :: trampoline_page sample_cfg (mkMemPack 0 64 1 0x10 0xC0) /\
    page_addr (mem_pack w') = 0 + 64 /\
    page_ix (mem_pack w') = 0 /\
    flags (mem_pack w') = 1.
Proof.
  apply (full_page_is_committed sample_cfg sample_full_page).
  - split; [reflexivity | split; [simpl; lia | split; [simpl; lia | reflexivity]]].
  - simpl; lia.
  - split; [reflexivity | split; reflexivity].
  - split; [reflexivity | split; [reflexivity | split; reflexivity]].
  - simpl; lia.
  - split; [reflexivity | simpl; lia].
Defined.

(** ** The bootloader's own pages *)

Lemma keeps_ret {A} I (a : A) : keeps I (ret a).
Proof. intros w H. exact H. Qed.

Lemma keeps_act I f : (forall w, I w -> I (f w)) -> keeps I (act f).
Proof. intros Hf w H. apply Hf, H. Qed.

Lemma keeps_bind {A B} I (m : M A) (k : A -> M B) :
  keeps I m -> (forall a, keeps I (k a)) -> keeps I (bind m k).
Proof.
  intros Hm Hk w H. unfold bind. specialize (Hm w H).
  destruct (m w) as [a w1 | w1 | w1]; cbn [world_of] in *.
  - apply Hk, Hm.
  - exact Hm.
  - exact Hm.
Qed.

Lemma keeps_read {A B} I (f : World -> A) (k : A -> M B) :
  (forall a, keeps I (k a)) -> keeps I (bind (fun w => Done (f w) w) k).
Proof. intros Hk. apply keeps_bind; [| exact Hk]. intros w H. exact H. Qed.

Lemma keeps_at {A} I (m : M A) :
  (forall w, exists m', m w = m' w /\ keeps I m') -> keeps I m.
Proof. intros H w Hw. destruct (H w) as (m' & He & Hm'). rewrite He. apply Hm', Hw. Qed.

Ltac keeps_auto :=
  repeat first
    [ apply keeps_ret
    | apply keeps_read; intros ?
    | apply keeps_bind; [| intros ?]
    | apply keeps_act; let H := fresh in intros ? H; exact H
    | match goal with |- keeps _ (if ?c then _ else _) => destruct c end ].

Section PageAddr.
Variable cfg : Config.

Lemma page_addr_UsiTwiTransmitByte b : keeps page_addr_ok (UsiTwiTransmitByte cfg b).
Proof.
  intros w H. unfold UsiTwiTransmitByte.
  match goal with |- context [if ?c then _ else _] => destruct c end; exact H.
Qed.

Lemma page_addr_transmit_reply reply : keeps page_addr_ok (transmit_reply cfg reply).
Proof.
  induction reply as [| b reply IH]; cbn [transmit_reply].
  - apply keeps_ret.
  - apply keeps_bind; [apply page_addr_UsiTwiTransmitByte | intros _; exact IH].
Qed.

Lemma page_addr_set_flag n : keeps page_addr_ok (set_flag n).
Proof. unfold set_flag. keeps_auto. Qed.

Lemma page_addr_usi_setup :
  keeps page_addr_ok SET_USI_TO_SEND_ACK /\ keeps page_addr_ok SET_USI_TO_RECEIVE_ACK /\
  keeps page_addr_ok SET_USI_TO_WAIT_FOR_TWI_ADDRESS /\ keeps page_addr_ok SET_USI_TO_SEND_BYTE /\
  keeps page_addr_ok SET_USI_TO_RECEIVE_BYTE.
Proof. split; [| split; [| split; [| split]]]; intros w H; exact H. Qed.

Lemma page_addr_set_state s : keeps page_addr_ok (set_state s).
Proof. unfold set_state. keeps_auto. Qed.

Lemma page_addr_rx_drain : forall n i, keeps page_addr_ok (rx_drain cfg n i).
Proof.
  induction n as [| n IH]; intros i; cbn [rx_drain].
  - apply keeps_ret.
  - apply keeps_bind; [| intros _; apply IH].
    intros w H. unfold rx_drain_step.
    match goal with |- context [if ?c then _ else _] => destruct c end; exact H.
Qed.

Lemma page_addr_boot_page a d :
  keeps page_addr_ok (boot_page_fill a d) /\ keeps page_addr_ok (boot_page_erase a) /\
  keeps page_addr_ok (boot_page_write a).
Proof. split; [| split]; intros w H; exact H. Qed.

Lemma page_addr_writpage_fill_loop cmd : forall fuel i chk,
  keeps page_addr_ok (writpage_fill_loop cfg fuel cmd i chk).
Proof.
  induction fuel as [| fuel IH]; intros i chk; cbn [writpage_fill_loop].
  - intros w H. exact H.
  - destruct (i <? MST_PACKET_SIZE cfg + 1); [| apply keeps_ret].
    apply keeps_bind; [| intros chk'; apply IH].
    unfold writpage_fill_word.
    apply keeps_read. intros m.
    apply keeps_bind; [apply page_addr_boot_page | intros _].
    keeps_auto.
Qed.

Lemma page_addr_Reply_WRITPAGE cmd : keeps page_addr_ok (Reply_WRITPAGE cfg cmd).
Proof.
  unfold Reply_WRITPAGE, Reply_WRITPAGE_frame.
  apply keeps_bind; [| intros reply; apply page_addr_transmit_reply].
  apply keeps_read. intros m.
  apply keeps_bind.
  - destruct (wrap16 (page_addr m + page_ix m) =? RESET_PAGE cfg).
    + apply keeps_bind; [destruct (AUTO_PAGE_ADDR cfg); keeps_auto | intros _].
      apply keeps_bind; [apply page_addr_boot_page | intros _].
      apply keeps_bind; [keeps_auto | intros _].
      apply page_addr_writpage_fill_loop.
    + apply page_addr_writpage_fill_loop.
  - intros chk. apply keeps_read. intros m'.
    match goal with |- keeps _ (if ?c then _ else _) => destruct c end.
    + apply keeps_bind; [apply page_addr_set_flag | intros _; apply keeps_ret].
    + apply keeps_ret.
Qed.

Lemma page_addr_ReceiveEvent cmd n : keeps page_addr_ok (ReceiveEvent cfg cmd n).
Proof.
  unfold ReceiveEvent.
  repeat match goal with |- keeps _ (if ?c then _ else _) => destruct c end.
  - assert (H : forall r, keeps page_addr_ok (set_flag (FL_INIT_1 cfg) ;; transmit_reply cfg r)).
    { intros r. apply keeps_bind; [apply page_addr_set_flag | intros _; apply page_addr_transmit_reply]. }
    intros w. unfold Reply_GETTMNLV. apply H.
  - apply keeps_bind; [apply page_addr_UsiTwiTransmitByte | intros _; apply page_addr_set_flag].
  - apply keeps_bind; [apply page_addr_UsiTwiTransmitByte | intros _; apply page_addr_set_flag].
  - unfold Reply_STPGADDR.
    apply keeps_bind; [| intros _; apply keeps_bind; [| intros _; apply page_addr_transmit_reply]].
    + apply keeps_act. intros w _. apply wrap16_range.
    + apply keeps_act. intros w _. apply wrap16_range.
  - apply page_addr_Reply_WRITPAGE.
  - intros w.
    destruct (Reply_READFLSH_cases cfg cmd w) as [-> | [-> | [reply ->]]].
    + intros H. exact H.
    + intros H. exact H.
    + apply page_addr_transmit_reply.
  - apply keeps_bind; [apply page_addr_set_flag | intros _; apply page_addr_UsiTwiTransmitByte].
  - apply keeps_ret.
Qed.

Lemma page_addr_send_data_byte : keeps page_addr_ok (send_data_byte cfg).
Proof.
  intros w H. unfold send_data_byte.
  destruct (tx_pop cfg (twi w)) as [[b t'] |]; exact H.
Qed.

Lemma page_addr_UsiOverflowHandler : keeps page_addr_ok (UsiOverflowHandler cfg).
Proof.
  destruct page_addr_usi_setup as (Hack & Hrack & Hwait & Hsend & Hrecv).
  apply keeps_at. intros w. unfold UsiOverflowHandler.
  destruct (device_state (twi w)).
  - match goal with |- context [if ?c then _ else _] => destruct c end.
    + eexists. split; [reflexivity |].
      apply keeps_bind; [| intros _; apply keeps_bind; [exact Hack | intros _; apply keeps_ret]].
      match goal with |- keeps _ (if ?c then _ else _) => destruct c end.
      * apply keeps_bind; [apply page_addr_rx_drain | intros _].
        apply keeps_read. intros cmd.
        apply keeps_bind; [apply page_addr_ReceiveEvent | intros _; apply page_addr_set_state].
      * apply page_addr_set_state.
    + eexists. split; [reflexivity |]. intros w0 H. exact H.
  - exists (send_data_byte cfg). split; [reflexivity | apply page_addr_send_data_byte].
  - eexists. split; [reflexivity |]. intros w0 H. exact H.
  - match goal with |- context [if ?c then _ else _] => destruct c end.
    + eexists. split; [reflexivity |]. intros w0 H. exact H.
    + exists (send_data_byte cfg). split; [reflexivity | apply page_addr_send_data_byte].
  - eexists. split; [reflexivity |]. intros w0 H. exact H.
  - eexists. split; [reflexivity |]. intros w0 H. exact H.
Qed.

Lemma page_addr_TwiStartHandler reads pin : keeps page_addr_ok (TwiStartHandler reads pin).
Proof.
  intros w H. unfold TwiStartHandler, bind. cbn [SET_USI_SDA_AS_INPUT set_state act].
  destruct (start_wait reads pin) as [p |]; [| exact H].
  destruct (Z.land p (Z.shiftl 1 PIN_USI_SDA) =? 0); exact H.
Qed.

Lemma page_addr_for_each body : (forall i, keeps page_addr_ok (body i)) ->
  forall l, keeps page_addr_ok (for_each l body).
Proof.
  intros Hb. induction l as [| i l IH]; cbn [for_each].
  - apply keeps_ret.
  - apply keeps_bind; [apply Hb | intros _; exact IH].
Qed.

Lemma page_addr_slow_op_write_page : keeps page_addr_ok (slow_op_write_page cfg).
Proof.
  unfold slow_op_write_page. apply keeps_read. intros m.
  match goal with |- keeps _ (if ?c then _ else _) => destruct c end; [| apply keeps_ret].
  apply keeps_bind; [destruct (FORCE_ERASE_PG cfg); [apply page_addr_boot_page; exact 0 | apply keeps_ret] | intros _].
  apply keeps_bind; [apply page_addr_boot_page; exact 0 | intros _].
  apply keeps_bind; [| intros _; keeps_auto].
  destruct (AUTO_PAGE_ADDR cfg); [| apply keeps_ret].
  apply keeps_bind; [| intros _; apply keeps_bind; [| intros _]].
  - destruct (page_addr m =? RESET_PAGE cfg); [| apply keeps_ret].
    unfold write_trampoline_page.
    apply keeps_bind; [| intros _; apply keeps_bind; [| intros _]; apply page_addr_boot_page; exact 0].
    apply page_addr_for_each. intros i. apply page_addr_boot_page.
  - match goal with |- keeps _ (if ?c then _ else _) => destruct c end; [| apply keeps_ret].
    intros w. unfold check_trampoline_page.
    match goal with |- context [world_of (?f w)] =>
      assert (He : keeps page_addr_ok f); [| apply He] end.
    apply keeps_bind.
    + apply page_addr_for_each. intros i. apply page_addr_boot_page.
    + intros _. match goal with |- keeps _ (if ?c then _ else _) => destruct c end;
        [apply page_addr_set_flag | apply keeps_ret].
  - apply keeps_act. intros w _. apply wrap16_range.
Qed.

End PageAddr.

Lemma emits_read_at {A B} P (f : World -> A) (k : A -> M B) w :
  emits P (k (f w)) ->
  exists evs, events (world_of (bind (fun w0 => Done (f w0) w0) k w)) = events w ++ evs /\
              forallb P evs = true.
Proof. intros H. exact (H w). Qed.

Section Protect.
Variable cfg : Config.
Hypothesis Hgeo : flash_geometry_ok cfg.

Lemma protects_fill e : is_fill e = true -> protects cfg e = true.
Proof. destruct e; cbn; intros H; try reflexivity; discriminate. Qed.

Lemma protects_erase_write a :
  0 <= a < TIMONEL_START cfg ->
  emits (protects cfg) (boot_page_erase a) /\ emits (protects cfg) (boot_page_write a).
Proof.
  intros Ha. destruct Hgeo as (_ & _ & Hts & _).
  assert (Hp : (0 <=? wrap16 a) && (wrap16 a <? TIMONEL_START cfg) = true).
  { rewrite wrap16_small by lia. apply andb_true_intro.
    split; [apply Z.leb_le | apply Z.ltb_lt]; lia. }
  split; apply emits_emit; exact Hp.
Qed.

Lemma protects_fills a d : emits (protects cfg) (boot_page_fill a d).
Proof. apply (emits_weaken is_fill); [exact protects_fill | apply emits_boot_page_fill]. Qed.

Lemma slow_op_write_page_protects w :
  page_addr_ok w ->
  exists evs, events (world_of (slow_op_write_page cfg w)) = events w ++ evs /\
              forallb (protects cfg) evs = true.
Proof.
  intros Hpa. pose proof (start_above_page cfg Hgeo) as Hge.
  destruct Hgeo as (Hreset & Hp & Hts & Hmod).
  unfold slow_op_write_page. apply emits_read_at. unfold page_addr_ok in Hpa.
  set (m := mem_pack w) in *. clearbody m.
  match goal with |- emits _ (if ?c then _ else _) => destruct c eqn:Hc end; [| apply emits_ret].
  apply andb_prop in Hc. destruct Hc as [_ Hc]. apply Z.ltb_lt in Hc.
  assert (Hlt : page_addr m < TIMONEL_START cfg).
  { destruct (APP_USE_TPL_PG cfg || negb (AUTO_PAGE_ADDR cfg));
      rewrite wrap16_small in Hc by lia; lia. }
  apply emits_bind; [destruct (FORCE_ERASE_PG cfg); [apply protects_erase_write; lia | apply emits_ret] | intros _].
  apply emits_bind; [apply protects_erase_write; lia | intros _].
  apply emits_bind; [| intros _; emits_auto].
  destruct (AUTO_PAGE_ADDR cfg); [| apply emits_ret].
  apply emits_bind; [| intros _; apply emits_bind; [| intros _; emits_auto]].
  - destruct (page_addr m =? RESET_PAGE cfg); [| apply emits_ret].
    unfold write_trampoline_page.
    apply emits_bind; [| intros _; apply emits_bind; [apply protects_fills | intros _]].
    + apply emits_for_each. intros i. apply protects_fills.
    + apply protects_erase_write. lia.
  - match goal with |- emits _ (if ?c then _ else _) => destruct c end; [| apply emits_ret].
    intros w0. unfold check_trampoline_page.
    match goal with |- context [world_of (?f w0)] =>
      assert (He : emits (protects cfg) f); [| apply He] end.
    apply emits_bind.
    + apply emits_for_each. intros i. apply protects_fills.
    + intros _. match goal with |- emits _ (if ?c then _ else _) => destruct c end;
        [apply emits_set_flag | apply emits_ret].
Qed.

Lemma slow_op_delete_flash_protects w :
  exists w', slow_op_delete_flash cfg w = Done tt w' /\
  exists evs, events w' = events w ++ evs /\ forallb (protects cfg) evs = true.
Proof.
  destruct Hgeo as (Hreset & Hp & Hts & Hmod).
  destruct (page_count cfg Hp (proj1 Hts) Hmod) as [Hn Hn0].
  set (n := Z.to_nat (TIMONEL_START cfg / SPM_PAGESIZE cfg)) in *.
  eexists. split.
  - unfold slow_op_delete_flash. rewrite wrap16_small by lia.
    rewrite (erase_loop_run cfg Hreset Hp n) by (try assumption; try lia; nia).
    reflexivity.
  - eexists. split; [reflexivity |].
    apply forallb_forall. intros e He. apply in_map_iff in He.
    destruct He as (a & <- & Ha). apply pages_below_In in Ha.
    destruct Ha as (k & Hk & ->). cbn [protects].
    apply andb_true_intro. split; [apply Z.leb_le | apply Z.ltb_lt]; nia.
Qed.

Lemma protect_inv_step m m' : step cfg m m' -> protect_inv cfg m -> protect_inv cfg m'.
Proof.
  intros Hstep [Hev Hpa]. destruct Hstep as [m u p fuse osc | m Hpc | m reads pin Hpc | m Hpc | m Hpc].
  - split; [exact Hev | exact Hpa].
  - split.
    + unfold main_setup. cbn [world with_mem_pack emit events].
      rewrite events_UsiTwiDriverInit. cbn [with_twi events].
      rewrite events_tweak_clock, forallb_app, Hev. reflexivity.
    + intros _. unfold main_setup, page_addr_ok.
      cbn [world with_mem_pack mem_pack page_addr]. lia.
  - assert (Hpa' : page_addr_ok (world m)) by (apply Hpa; rewrite Hpc; discriminate).
    destruct (poll_start_cases reads pin m) as (w' & p' & -> & _ & [-> | ->]).
    + split; cbn [world pc]; [exact Hev | intros _; exact Hpa'].
    + split; cbn [world pc].
      * rewrite events_TwiStartHandler. exact Hev.
      * intros _. apply page_addr_TwiStartHandler. exact Hpa'.
  - assert (Hpa' : page_addr_ok (world m)) by (apply Hpa; rewrite Hpc; discriminate).
    unfold poll_overflow.
    match goal with |- context [if ?c then _ else _] => destruct c end.
    + destruct (emits_UsiOverflowHandler cfg (emit OverflowEnter (world m))) as (evs & He & Hfill).
      pose proof (page_addr_UsiOverflowHandler cfg (emit OverflowEnter (world m)) Hpa') as Hk.
      assert (Hev' : forallb (protects cfg)
                  (events (world_of (UsiOverflowHandler cfg (emit OverflowEnter (world m))))) = true).
      { rewrite He. cbn [emit events]. rewrite !forallb_app, Hev. cbn [forallb protects andb].
        apply forallb_forall. intros e Hin. apply protects_fill.
        rewrite forallb_forall in Hfill. apply Hfill, Hin. }
      destruct (UsiOverflowHandler cfg (emit OverflowEnter (world m))) as [r w' | w' | w'];
        cbn [world_of] in *; split; cbn [world pc emit events mem_pack].
      * rewrite forallb_app, Hev'. reflexivity.
      * intros _. exact Hk.
      * exact Hev'.
      * intros _. exact Hk.
      * exact Hev'.
      * intros _. exact Hk.
    + split; cbn [world pc]; [exact Hev | intros _; exact Hpa'].
  - assert (Hpa' : page_addr_ok (world m)) by (apply Hpa; rewrite Hpc; discriminate).
    unfold supervisor.
    destruct (initialized cfg (mem_pack (world m))).
    + destruct (slow_ops_enabled m).
      * assert (Hev1 : forallb (protects cfg) (events (emit SlowOpsTaken (world m))) = true).
        { cbn [emit events]. rewrite forallb_app, Hev. reflexivity. }
        destruct (bit_of (flags (mem_pack (emit SlowOpsTaken (world m)))) (FL_EXIT_TML cfg)).
        -- split; cbn [world pc].
           ++ cbn [emit events]. rewrite events_restore_clock.
              cbn [emit events]. rewrite !forallb_app, Hev. reflexivity.
           ++ intros _. unfold page_addr_ok. cbn [emit mem_pack].
              rewrite (proj1 (proj2 (proj2 (restore_clock_frame cfg _)))). exact Hpa'.
        -- destruct (bit_of (flags (mem_pack (emit SlowOpsTaken (world m)))) (FL_DEL_FLASH cfg)).
           ++ destruct (slow_op_delete_flash_protects (emit SlowOpsTaken (world m)))
                as (w' & Hrun & evs & He & Hp).
              rewrite Hrun. split; cbn [world pc]; [| intros Hc; contradiction Hc; reflexivity].
              cbn [emit events]. rewrite events_restore_clock.
              rewrite He, !forallb_app, Hev1, Hp. reflexivity.
           ++ destruct (slow_op_write_page_protects (emit SlowOpsTaken (world m)) Hpa')
                as (evs & He & Hp).
              split; cbn [world pc].
              ** rewrite He, forallb_app, Hev1, Hp. reflexivity.
              ** intros _. apply page_addr_slow_op_write_page. exact Hpa'.
      * split; cbn [world pc]; [exact Hev | intros _; exact Hpa'].
    + assert (Hkeep : forall l e p,
        protect_inv cfg (mkMain (world m) (slow_ops_enabled m) l e p)).
      { intros l e p. split; cbn [world pc]; [exact Hev | intros _; exact Hpa']. }
      destruct (led_delay m =? 0); [| apply Hkeep].
      destruct (TIMEOUT_EXIT cfg); [| apply Hkeep].
      destruct (exit_delay m =? 0); [| apply Hkeep].
      split; cbn [world pc].
      * cbn [emit events]. rewrite events_restore_clock, forallb_app, Hev. reflexivity.
      * intros _. unfold page_addr_ok. cbn [emit mem_pack].
        rewrite (proj1 (proj2 (proj2 (restore_clock_frame cfg _)))). exact Hpa'.
Qed.

Lemma reachable_protect_inv m : reachable cfg m -> protect_inv cfg m.
Proof.
  induction 1 as [w s l e Hnil | m m' _ IH Hstep].
  - split; cbn [world pc]; [rewrite Hnil; reflexivity | intros Hc; contradiction Hc; reflexivity].
  - exact (protect_inv_step m m' Hstep IH).
Qed.

End Protect.

(** X10.  The bootloader never erases or programs its own pages: in every
    execution from power-on, whatever the bus master sends, each page erase and
    each page write goes to an address below [TIMONEL_START]. *)
Theorem bootloader_pages_are_protected (cfg : Config) (m : Main) :
  flash_geometry_ok cfg ->
  reachable cfg m ->
  forallb (protects cfg) (events (world m)) = true.
Proof. intros Hgeo Hr. apply (reachable_protect_inv cfg Hgeo m Hr). Qed.

Lemma bootloader_pages_are_protected_witness :
  forallb (protects sample_cfg) (events (world sample_after_delete)) = true.
Proof.
  apply (bootloader_pages_are_protected sample_cfg sample_after_delete).
  - split; [reflexivity | split; [simpl; lia | split; [simpl; lia | reflexivity]]].
  - apply reachable_play, reachable_advance, reach_power_on. reflexivity.
Defined.

(** ** The two jump words *)

Lemma land_FFF x : Z.land x 0x0FFF = x mod 4096.
Proof. change 0x0FFF with (Z.ones 12). rewrite Z.land_ones by lia. reflexivity. Qed.

Lemma jump_word_fields k :
  0 <= k < 4096 ->
  wrap16 (Z.lor k 0xC000) = 0xC000 + k /\
  Z.shiftr (0xC000 + k) 12 = 0xC /\ Z.land (0xC000 + k) 0x0FFF = k.
Proof.
  intros Hk.
  rewrite Z.lor_comm, <- add_lor_disjoint by (apply land_C000_small; lia).
  rewrite wrap16_small by lia. rewrite land_FFF, Z.shiftr_div_pow2 by lia.
  change (2 ^ 12) with 4096.
  repeat split; Z.div_mod_to_equations; lia.
Qed.

(** X11.  Both words the bootloader synthesizes are relative jumps (high
    nibble 0xC) with a 12-bit word offset.  The offset of the trampoline word,
    taken from the word below the bootloader (word [TIMONEL_START / 2 - 1]),
    leads to the word that the application's own reset vector led to from
    word 0; the offset of the reset vector written by WRITPAGE leads from word 0
    to the first word of the bootloader. *)
Theorem jump_words_reach_their_targets (cfg : Config) (m : MemPack) :
  2 <= TIMONEL_START cfg <= 8192 ->
  let tpl := trampoline_word cfg m in
  let rst := reset_jump cfg in
  (Z.shiftr tpl 12 = 0xC /\
   (Z.shiftr (TIMONEL_START cfg) 1 + Z.land tpl 0x0FFF) mod 4096 = (app_vec m + 1) mod 4096) /\
  (Z.shiftr rst 12 = 0xC /\ 0 + 1 + Z.land rst 0x0FFF = TIMONEL_START cfg / 2).
Proof.
  intros Hts tpl rst. split.
  - unfold tpl. rewrite trampoline_word_formula. unfold tpl_formula.
    set (x := Z.shiftr (TIMONEL_START cfg) 1 - Z.land (app_vec m + 1) 0x0FFF).
    replace (Z.lnot x + 1) with (- x) by (unfold Z.lnot; lia).
    rewrite (land_FFF (- x)).
    assert (Hk : 0 <= (- x) mod 4096 < 4096) by (apply Z.mod_pos_bound; lia).
    destruct (jump_word_fields _ Hk) as (-> & -> & ->).
    split; [reflexivity |].
    rewrite Z.add_mod_idemp_r by lia. unfold x. rewrite land_FFF.
    replace (Z.shiftr (TIMONEL_START cfg) 1 + - (Z.shiftr (TIMONEL_START cfg) 1 - (app_vec m + 1) mod 4096))
      with ((app_vec m + 1) mod 4096) by lia.
    apply Z.mod_mod. lia.
  - unfold rst. rewrite reset_jump_lor by lia.
    assert (Hk : 0 <= TIMONEL_START cfg / 2 - 1 < 4096) by (Z.div_mod_to_equations; lia).
    destruct (jump_word_fields _ Hk) as (_ & H1 & H2).
    rewrite <- add_lor_disjoint by (apply land_C000_small; lia).
    rewrite H1, H2. split; [reflexivity | lia].
Qed.

Lemma jump_words_reach_their_targets_witness :
  (Z.shiftr (trampoline_word sample_cfg (mkMemPack 0 0 0 0x10 0xC0)) 12 = 0xC /\
   (Z.shiftr 0x1A00 1 + Z.land (trampoline_word sample_cfg (mkMemPack 0 0 0 0x10 0xC0)) 0x0FFF)
     mod 4096 = (app_vec (mkMemPack 0 0 0 0x10 0xC0) + 1) mod 4096) /\
  (Z.shiftr (reset_jump sample_cfg) 12 = 0xC /\
   0 + 1 + Z.land (reset_jump sample_cfg) 0x0FFF = 0x1A00 / 2).
Proof.
  apply (jump_words_reach_their_targets sample_cfg (mkMemPack 0 0 0 0x10 0xC0)).
  simpl; lia.
Defined.

(** ** Transactions on the bus *)

Section Transactions.
Variable cfg : Config.

Lemma master_write_byte b w l :
  ring_size_ok (TWI_RX_BUFFER_SIZE cfg) ->
  device_state (twi w) = STATE_RECEIVE_DATA_BYTE ->
  rx_holds cfg (twi w) l ->
  Z.of_nat (length l) < TWI_RX_BUFFER_SIZE cfg -> Z.of_nat (length l) + 1 < 256 ->
  exists w',
    (UsiOverflowHandler cfg ;; shifted_in b ;; UsiOverflowHandler cfg) w = Done false w' /\
    device_state (twi w') = STATE_RECEIVE_DATA_BYTE /\
    rx_holds cfg (twi w') (l ++ [b]) /\
    command (twi w') = command (twi w) /\
    rx_frame w w'.
Proof.
  intros Hsize Hst Hl Hroom H256.
  pose proof (rx_enqueue cfg Hsize b (twi w) l Hl Hroom H256) as Hpush.
  set (w0 := world_of (UsiOverflowHandler cfg w)).
  assert (H0 : UsiOverflowHandler cfg w = Done false w0 /\
               twi w0 = set_device_state STATE_PUT_BYTE_IN_RX_BUFFER_AND_SEND_ACK (twi w) /\
               mem_pack w0 = mem_pack w /\ events w0 = events w).
  { unfold w0, UsiOverflowHandler. rewrite Hst. repeat split; reflexivity. }
  destruct H0 as (Hrun0 & Ht0 & Hm0 & He0). clearbody w0.
  set (w1 := with_usi (set_USIDR b) w0).
  assert (Hst1 : device_state (twi w1) = STATE_PUT_BYTE_IN_RX_BUFFER_AND_SEND_ACK).
  { unfold w1. cbn [with_usi twi]. rewrite Ht0. reflexivity. }
  set (w2 := world_of (UsiOverflowHandler cfg w1)).
  assert (H2 : UsiOverflowHandler cfg w1 = Done false w2 /\
               twi w2 = set_device_state STATE_RECEIVE_DATA_BYTE (rx_push cfg b (twi w0)) /\
               mem_pack w2 = mem_pack w0 /\ events w2 = events w0).
  { unfold w2, UsiOverflowHandler. rewrite Hst1. repeat split; reflexivity. }
  destruct H2 as (Hrun2 & Ht2 & Hm2 & He2). clearbody w2.
  exists w2. split.
  - unfold bind, shifted_in, act. rewrite Hrun0. fold w1. rewrite Hrun2. reflexivity.
  - unfold rx_frame. rewrite Ht2, Hm2, He2, Hm0, He0, Ht0.
    split; [reflexivity |].
    split.
    + destruct Hpush as (Hv & Ht & Hh & Hc & Hn). unfold rx_holds.
      split; [exact Hv |]. split; [exact Ht |]. split; [exact Hh |]. split; [exact Hc | exact Hn].
    + repeat split; reflexivity.
Qed.


Lemma rx_frame_refl w : rx_frame w w.
Proof. unfold rx_frame. repeat split; reflexivity. Qed.

Lemma rx_frame_trans w1 w2 w3 : rx_frame w1 w2 -> rx_frame w2 w3 -> rx_frame w1 w3.
Proof.
  intros (A1 & A2 & A3 & A4 & A5) (B1 & B2 & B3 & B4 & B5). unfold rx_frame.
  rewrite B1, B2, B3, B4, B5. repeat split; assumption.
Qed.

Lemma master_writes_run : forall s w l,
  ring_size_ok (TWI_RX_BUFFER_SIZE cfg) ->
  device_state (twi w) = STATE_RECEIVE_DATA_BYTE ->
  rx_holds cfg (twi w) l ->
  Z.of_nat (length l) + Z.of_nat (length s) <= TWI_RX_BUFFER_SIZE cfg ->
  Z.of_nat (length l) + Z.of_nat (length s) < 256 ->
  exists w',
    master_writes cfg s w = Done tt w' /\
    device_state (twi w') = STATE_RECEIVE_DATA_BYTE /\
    rx_holds cfg (twi w') (l ++ s) /\
    command (twi w') = command (twi w) /\
    rx_frame w w'.
Proof.
  induction s as [| b s IH]; intros w l Hsize Hst Hl Hroom H256.
  - exists w. rewrite app_nil_r. cbn [master_writes]. split; [reflexivity |].
    split; [exact Hst |]. split; [exact Hl |]. split; [reflexivity | apply rx_frame_refl].
  - cbn [length] in Hroom, H256.
    destruct (master_write_byte b w l Hsize Hst Hl) as (w1 & Hrun & Hst1 & Hl1 & Hc1 & Hf1);
      [lia | lia |].
    destruct (IH w1 (l ++ [b]) Hsize Hst1 Hl1) as (w' & Hrun' & Hst' & Hl' & Hc' & Hf');
      [rewrite length_app; cbn [length]; lia | rewrite length_app; cbn [length]; lia |].
    exists w'. split.
    + cbn [master_writes].
      assert (Hassoc : forall k : M unit,
        (UsiOverflowHandler cfg ;; shifted_in b ;; UsiOverflowHandler cfg ;; k) w =
        match (UsiOverflowHandler cfg ;; shifted_in b ;; UsiOverflowHandler cfg) w with
        | Done _ w2 => k w2 | Spin w2 => Spin w2 | Fault w2 => Fault w2 end).
      { intros k. unfold bind.
        destruct (UsiOverflowHandler cfg w) as [r0 w0 | w0 | w0]; [| reflexivity | reflexivity].
        destruct (shifted_in b w0) as [r2 w2 | w2 | w2]; [| reflexivity | reflexivity].
        destruct (UsiOverflowHandler cfg w2) as [r3 w3 | w3 | w3]; reflexivity. }
      rewrite Hassoc, Hrun. exact Hrun'.
    + split; [exact Hst' |]. rewrite <- app_assoc in Hl'. split; [exact Hl' |].
      split; [rewrite Hc'; exact Hc1 | exact (rx_frame_trans _ _ _ Hf1 Hf')].
Qed.

End Transactions.

(** X12.  A write transaction.  After a start condition, the slave answers
    its own address with the write bit and the general call; every byte the
    master then writes is appended, in order, to the unread bytes of the RX
    ring.  The engine ends ready for the next byte; the TX ring, the command
    frame, the record and the flash are not touched. *)
Theorem master_write_fills_rx_ring (cfg : Config) (address : Z) (s : list Z) (w : World) (l : list Z) :
  ring_size_ok (TWI_RX_BUFFER_SIZE cfg) ->
  device_state (twi w) = STATE_CHECK_RECEIVED_ADDRESS ->
  write_address cfg address ->
  rx_holds cfg (twi w) l ->
  Z.of_nat (length l) + Z.of_nat (length s) <= TWI_RX_BUFFER_SIZE cfg ->
  Z.of_nat (length l) + Z.of_nat (length s) < 256 ->
  exists w',
    master_write_transaction cfg address s w = Done tt w' /\
    device_state (twi w') = STATE_RECEIVE_DATA_BYTE /\
    rx_holds cfg (twi w') (l ++ s) /\
    command (twi w') = command (twi w) /\
    rx_frame w w'.
Proof.
  intros Hsize Hst Haddr Hl Hroom H256.
  set (w0 := with_twi (set_device_state STATE_RECEIVE_DATA_BYTE) (with_usi (set_USIDR address) w)).
  assert (Hfilter : ((address =? 0) || (Z.shiftr address 1 =? TWI_ADDR cfg) = true)
                    /\ ((Z.land address 1 =? 0) = true)).
  { destruct Haddr as [-> | ->].
    - split.
      + apply orb_true_intro. right. apply Z.eqb_eq.
        rewrite Z.shiftr_div_pow2 by lia. change (2 ^ 1) with 2.
        rewrite Z.mul_comm. apply Z.div_mul. lia.
      + apply Z.eqb_eq. change 1 with (Z.ones 1). rewrite Z.land_ones by lia.
        change (2 ^ 1) with 2. rewrite Z.mul_comm. apply Z.mod_mul. lia.
    - split; reflexivity. }
  destruct Hfilter as [Hacc Hwr].
  assert (Hhead : exists w1,
            (shifted_in address ;; UsiOverflowHandler cfg) w = Done false w1 /\
            twi w1 = twi w0 /\ mem_pack w1 = mem_pack w /\ events w1 = events w).
  { eexists. split.
    - unfold bind at 1. unfold shifted_in at 1. unfold act at 1.
      unfold UsiOverflowHandler.
      cbn [with_usi twi usi set_USIDR USIDR].
      rewrite Hst, Hacc, Hwr.
      cbv beta iota delta [negb bind ret act set_state SET_USI_TO_SEND_ACK SET_USI_SDA_AS_OUTPUT
        SET_USI_TO_SHIFT_1_ACK_BIT write_USISR write_USIDR].
      reflexivity.
    - repeat split; reflexivity. }
  destruct Hhead as (w1 & Hrun1 & Ht1 & Hm1 & He1).
  destruct (master_writes_run cfg s w1 l Hsize) as (w' & Hrun & Hst' & Hl' & Hc' & Hf');
    [rewrite Ht1; reflexivity | rewrite Ht1; exact Hl | exact Hroom | exact H256 |].
  exists w'. split.
  - unfold master_write_transaction.
    assert (Hassoc : forall k : M unit,
      (shifted_in address ;; UsiOverflowHandler cfg ;; k) w =
      match (shifted_in address ;; UsiOverflowHandler cfg) w with
      | Done _ w2 => k w2 | Spin w2 => Spin w2 | Fault w2 => Fault w2 end).
    { intros k. unfold bind.
      destruct (shifted_in address w) as [r0 w2 | w2 | w2]; [| reflexivity | reflexivity].
      destruct (UsiOverflowHandler cfg w2) as [r3 w3 | w3 | w3]; reflexivity. }
    rewrite Hassoc, Hrun1. exact Hrun.
  - split; [exact Hst' |]. split; [exact Hl' |].
    split; [rewrite Hc', Ht1; reflexivity |].
    apply (rx_frame_trans w w1 w'); [| exact Hf'].
    unfold rx_frame. rewrite Ht1, Hm1, He1. repeat split; reflexivity.
Qed.

Lemma master_write_fills_rx_ring_witness :
  exists w',
    master_write_transaction sample_cfg 0x16 [0x83] sample_started = Done tt w' /\
    device_state (twi w') = STATE_RECEIVE_DATA_BYTE /\
    rx_holds sample_cfg (twi w') ([] ++ [0x83]) /\
    command (twi w') = command (twi sample_started) /\
    rx_frame sample_started w'.
Proof.
  assert (Hsize : ring_size_ok 16) by (split; [lia | reflexivity]).
  apply (master_write_fills_rx_ring sample_cfg 0x16 [0x83] sample_started []).
  - exact Hsize.
  - reflexivity.
  - left. reflexivity.
  - apply (rx_holds_empty sample_cfg Hsize); [reflexivity | simpl; lia | reflexivity | reflexivity].
  - simpl; lia.
  - simpl; lia.
Defined.

Lemma skipn_upd_nat : forall a i k v, (i < k)%nat -> skipn k (upd_nat a i v) = skipn k a.
Proof.
  induction a as [| x a IH]; intros i k v Hik.
  - destruct i, k; reflexivity.
  - destruct k as [| k]; [lia |]. destruct i as [| i]; cbn [upd_nat skipn].
    + reflexivity.
    + apply IH. lia.
Qed.

Section Dispatch.
Variable cfg : Config.

Lemma rx_drain_frame : forall n i w w',
  rx_drain cfg n (Z.of_nat i) w = Done tt w' ->
  rx_frame w w' /\ usi w' = usi w /\
  device_state (twi w') = device_state (twi w) /\
  skipn (i + n) (command (twi w')) = skipn (i + n) (command (twi w)).
Proof.
  induction n as [| n IH]; intros i w w' H.
  - cbn [rx_drain] in H. injection H as <-.
    unfold rx_frame. repeat split; reflexivity.
  - cbn [rx_drain] in H. unfold bind in H.
    destruct (rx_drain_step cfg (Z.of_nat i) w) as [[] w1 | w1 | w1] eqn:Hstep;
      [| discriminate | discriminate].
    replace (Z.of_nat i + 1) with (Z.of_nat (S i)) in H by lia.
    destruct (IH (S i) w1 w' H) as ((A1 & A2 & A3 & A4 & A5) & Hu & Hs & Hk).
    unfold rx_drain_step in Hstep.
    match type of Hstep with (if ?c then _ else _) = _ => destruct c end; [| discriminate].
    injection Hstep as <-.
    cbn [with_twi twi usi mem_pack events set_command set_rx_tail tx_buffer tx_head tx_tail
         device_state command] in *.
    unfold rx_frame. replace (i + S n)%nat with (S i + n)%nat by lia.
    rewrite A1, A2, A3, A4, A5, Hu, Hs, Hk.
    split; [| split; [| split]].
    + unfold rx_wait. destruct (rx_byte_count (twi w) =? 0); repeat split; reflexivity.
    + reflexivity.
    + unfold rx_wait. destruct (rx_byte_count (twi w) =? 0); reflexivity.
    + unfold aset. rewrite Nat2Z.id. rewrite skipn_upd_nat by lia.
      unfold rx_wait. destruct (rx_byte_count (twi w) =? 0); reflexivity.
Qed.

End Dispatch.

(** X13.  The read address dispatches the command.  When the slave reads its
    own address with the read bit, the overflow handler empties the RX ring
    into the head of the command frame, in order, and calls the dispatcher on
    it.  The frame bytes behind the received ones are those of the previous
    frame; the TX ring, the record and the flash are as before when the
    dispatcher starts. *)
Theorem read_address_dispatches_frame (cfg : Config) (w : World) (s : list Z) :
  ring_size_ok (TWI_RX_BUFFER_SIZE cfg) ->
  device_state (twi w) = STATE_CHECK_RECEIVED_ADDRESS ->
  USIDR (usi w) = 2 * TWI_ADDR cfg + 1 ->
  rx_holds cfg (twi w) s ->
  (length s <= length (command (twi w)))%nat ->
  exists w1,
    UsiOverflowHandler cfg w = dispatch cfg (command (twi w1)) (Z.of_nat (length s)) w1 /\
    firstn (length s) (command (twi w1)) = s /\
    skipn (length s) (command (twi w1)) = skipn (length s) (command (twi w)) /\
    rx_holds cfg (twi w1) [] /\
    rx_frame w w1 /\ usi w1 = usi w.
Proof.
  intros Hsize Hst Haddr Hl Hlen.
  destruct (rx_dequeue_all cfg Hsize s w 0 Hl) as (w1 & Hrun & Hempty & Hfirst);
    [cbn [Nat.add]; exact Hlen |].
  cbn [Nat.add firstn app] in Hfirst.
  destruct (rx_drain_frame cfg (length s) 0 w w1 Hrun) as (Hframe & Husi & _ & Hskip).
  cbn [Nat.add] in Hskip. change (Z.of_nat 0) with 0 in Hrun.
  assert (Hcount : rx_byte_count (twi w) = Z.of_nat (length s)) by apply Hl.
  exists w1. split; [| split; [exact Hfirst | split; [exact Hskip | split; [exact Hempty | split; [exact Hframe | exact Husi]]]]].
  unfold UsiOverflowHandler. rewrite Hst, Haddr.
  assert (Hacc : (2 * TWI_ADDR cfg + 1 =? 0) || (Z.shiftr (2 * TWI_ADDR cfg + 1) 1 =? TWI_ADDR cfg) = true).
  { apply orb_true_intro. right. apply Z.eqb_eq.
    rewrite Z.shiftr_div_pow2 by lia. change (2 ^ 1) with 2.
    Z.div_mod_to_equations; lia. }
  assert (Hrd : negb (Z.land (2 * TWI_ADDR cfg + 1) 1 =? 0) = true).
  { change 1 with (Z.ones 1) at 2. rewrite Z.land_ones by lia. change (2 ^ 1) with 2.
    replace ((2 * TWI_ADDR cfg + 1) mod 2) with 1 by (Z.div_mod_to_equations; lia).
    reflexivity. }
  rewrite Hacc, Hrd, Hcount, Nat2Z.id.
  unfold dispatch. unfold bind at 1. unfold bind at 1. rewrite Hrun.
  unfold bind.
  destruct (ReceiveEvent cfg (command (twi w1)) (Z.of_nat (length s)) w1); reflexivity.
Qed.

Lemma read_address_dispatches_frame_witness :
  exists w1,
    UsiOverflowHandler sample_cfg sample_read_request
      = dispatch sample_cfg (command (twi w1)) (Z.of_nat (length [0x83])) w1 /\
    firstn (length [0x83]) (command (twi w1)) = [0x83] /\
    skipn (length [0x83]) (command (twi w1))
      = skipn (length [0x83]) (command (twi sample_read_request)) /\
    rx_holds sample_cfg (twi w1) [] /\
    rx_frame sample_read_request w1 /\ usi w1 = usi sample_read_request.
Proof.
  assert (Hsize : ring_size_ok (TWI_RX_BUFFER_SIZE sample_cfg)) by (split; [simpl; lia | reflexivity]).
  apply (read_address_dispatches_frame sample_cfg sample_read_request [0x83]).
  - exact Hsize.
  - reflexivity.
  - reflexivity.
  - apply (rx_enqueue sample_cfg Hsize 0x83 (twi sample_started) []);
      [| simpl; lia | simpl; lia].
    apply (rx_holds_empty sample_cfg Hsize); [reflexivity | simpl; lia | reflexivity | reflexivity].
  - simpl; lia.
Defined.

Section ReadTransaction.
Variable cfg : Config.
Hypothesis Hsize : ring_size_ok (TWI_TX_BUFFER_SIZE cfg).

Lemma tx_frame_refl w : tx_frame w w.
Proof. unfold tx_frame. repeat split; reflexivity. Qed.

Lemma tx_frame_trans w1 w2 w3 : tx_frame w1 w2 -> tx_frame w2 w3 -> tx_frame w1 w3.
Proof.
  intros (A1 & A2 & A3 & A4 & A5 & A6 & A7) (B1 & B2 & B3 & B4 & B5 & B6 & B7).
  unfold tx_frame. rewrite B1, B2, B3, B4, B5, B6, B7. repeat split; assumption.
Qed.

Lemma read_byte_run b l w :
  sending w -> tx_holds cfg (twi w) (b :: l) -> is_byte b ->
  exists w',
    (UsiOverflowHandler cfg ;;
     v <- (fun w0 => Done (USIDR (usi w0)) w0) ;;
     UsiOverflowHandler cfg ;;
     shifted_in 0 ;;
     ret v) w = Done b w' /\
    sending w' /\ device_state (twi w') = STATE_CHECK_RECEIVED_ACK /\
    tx_holds cfg (twi w') l /\ tx_frame w w'.
Proof.
  intros Hs Hl Hb.
  destruct (tx_dequeue cfg Hsize b l (twi w) Hl) as (t' & Hpop & Hl').
  assert (Hsend : UsiOverflowHandler cfg w = send_data_byte cfg w).
  { unfold UsiOverflowHandler. destruct Hs as [-> | [-> ->]]; reflexivity. }
  assert (Ht' : rx_buffer t' = rx_buffer (twi w) /\ rx_head t' = rx_head (twi w) /\
                rx_tail t' = rx_tail (twi w) /\ rx_byte_count t' = rx_byte_count (twi w) /\
                command t' = command (twi w)).
  { unfold tx_pop in Hpop. destruct (negb (tx_head (twi w) =? tx_tail (twi w))); [| discriminate].
    injection Hpop as _ <-. repeat split; reflexivity. }
  destruct Ht' as (T1 & T2 & T3 & T4 & T5).
  eexists. split.
  - unfold bind at 1. rewrite Hsend. unfold send_data_byte. rewrite Hpop.
    cbv beta iota delta [bind ret act set_state SET_USI_TO_SEND_BYTE SET_USI_SDA_AS_OUTPUT
      SET_USI_TO_SHIFT_8_DATA_BITS write_USISR write_USIDR shifted_in].
    unfold UsiOverflowHandler.
    cbn [with_twi with_usi twi usi set_device_state device_state set_USIDR USIDR set_USISR set_DDR_USI].
    cbv beta iota delta [bind ret act set_state SET_USI_TO_RECEIVE_ACK SET_USI_SDA_AS_INPUT
      SET_USI_TO_SHIFT_1_ACK_BIT write_USISR write_USIDR].
    rewrite (wrap8_small b) by exact Hb. reflexivity.
  - cbn [with_twi with_usi twi usi mem_pack events set_device_state device_state
         set_USIDR USIDR set_USISR set_DDR_USI].
    split; [right; split; reflexivity |]. split; [reflexivity |].
    split; [exact Hl' |].
    unfold tx_frame.
    cbn [rx_buffer rx_head rx_tail rx_byte_count command].
    rewrite <- T1, <- T2, <- T3, <- T4, <- T5. repeat split; reflexivity.
Qed.

Lemma read_bytes_run : forall l1 w l2,
  sending w -> tx_holds cfg (twi w) (l1 ++ l2) -> all_bytes l1 ->
  exists w',
    read_bytes cfg (length l1) w = Done l1 w' /\
    sending w' /\ (l1 <> [] -> device_state (twi w') = STATE_CHECK_RECEIVED_ACK) /\
    tx_holds cfg (twi w') l2 /\ tx_frame w w'.
Proof.
  induction l1 as [| b l1 IH]; intros w l2 Hs Hl Hb.
  - exists w. cbn [length read_bytes]. split; [reflexivity |]. split; [exact Hs |].
    split; [intros Hc; contradiction Hc; reflexivity |]. split; [exact Hl | apply tx_frame_refl].
  - inversion Hb as [| ? ? Hb1 Hb2]; subst.
    destruct (read_byte_run b (l1 ++ l2) w Hs Hl Hb1) as (w1 & Hrun1 & Hs1 & Hst1 & Hl1 & Hf1).
    destruct (IH w1 l2 Hs1 Hl1 Hb2) as (w' & Hrun & Hs' & Hst' & Hl' & Hf').
    exists w'. split.
    + cbn [length read_bytes].
      unfold bind in Hrun1 |- *.
      destruct (UsiOverflowHandler cfg w) as [r0 w0 | w0 | w0]; [| discriminate | discriminate].
      destruct (UsiOverflowHandler cfg w0) as [r2 w2 | w2 | w2]; [| discriminate | discriminate].
      destruct (shifted_in 0 w2) as [r3 w3 | w3 | w3]; [| discriminate | discriminate].
      injection Hrun1 as -> ->. rewrite Hrun. reflexivity.
    + split; [exact Hs' |]. split.
      * intros _. destruct l1 as [| c l1].
        -- cbn [length read_bytes] in Hrun. injection Hrun as <-. exact Hst1.
        -- apply Hst'. discriminate.
      * split; [exact Hl' | exact (tx_frame_trans _ _ _ Hf1 Hf')].
Qed.

End ReadTransaction.

(** X14.  A read transaction.  The bytes the master reads and acknowledges
    are the oldest unread bytes of the TX ring, in order; its NACK after the
    last one makes the overflow handler return [true] and re-arm the start
    detector.  Bytes the master did not read stay queued, ahead of the next
    reply. *)
Theorem master_read_takes_reply_in_order (cfg : Config) (w : World) (l1 l2 : list Z) :
  ring_size_ok (TWI_TX_BUFFER_SIZE cfg) ->
  device_state (twi w) = STATE_SEND_DATA_BYTE ->
  tx_holds cfg (twi w) (l1 ++ l2) ->
  all_bytes l1 -> l1 <> [] ->
  exists w',
    master_reads cfg (length l1) w = Done (l1, true) w' /\
    tx_holds cfg (twi w') l2 /\
    tx_frame w w' /\
    USICR (usi w') = USICR_DETECT_TWI_START.
Proof.
  intros Hsize Hst Hl Hb Hne.
  destruct (read_bytes_run cfg Hsize l1 w l2 (or_introl Hst) Hl Hb)
    as (w1 & Hrun & _ & Hst1 & Hl1 & Hf1).
  specialize (Hst1 Hne).
  eexists. split.
  - unfold master_reads. unfold bind at 1. rewrite Hrun.
    unfold bind at 1. unfold shifted_in at 1. unfold act at 1.
    unfold bind at 1. unfold UsiOverflowHandler.
    cbn [with_usi twi usi set_USIDR USIDR]. rewrite Hst1.
    cbv beta iota delta [Z.eqb negb bind ret act SET_USI_TO_WAIT_FOR_TWI_ADDRESS
      SET_USI_TO_DETECT_TWI_START SET_USI_TO_SHIFT_8_DATA_BITS write_USISR write_USICR].
    reflexivity.
  - cbn [with_usi twi usi mem_pack events set_USICR set_USISR USICR].
    split; [exact Hl1 |]. split; [| reflexivity].
    destruct Hf1 as (A1 & A2 & A3 & A4 & A5 & A6 & A7).
    unfold tx_frame. cbn [with_usi twi usi mem_pack events].
    repeat split; assumption.
Qed.

Lemma master_read_takes_reply_in_order_witness :
  exists w',
    master_reads sample_cfg (length [0x7C]) sample_reply_queued = Done ([0x7C], true) w' /\
    tx_holds sample_cfg (twi w') [0x55] /\
    tx_frame sample_reply_queued w' /\
    USICR (usi w') = USICR_DETECT_TWI_START.
Proof.
  assert (Hsize : ring_size_ok (TWI_TX_BUFFER_SIZE sample_cfg)) by (split; [simpl; lia | reflexivity]).
  apply (master_read_takes_reply_in_order sample_cfg sample_reply_queued [0x7C] [0x55]).
  - exact Hsize.
  - reflexivity.
  - destruct (tx_enqueue_all sample_cfg Hsize [0x7C; 0x55] sample_world [])
      as (w1 & Hrun & Hl1).
    + apply (tx_holds_empty sample_cfg Hsize); [reflexivity | simpl; lia | reflexivity].
    + simpl; lia.
    + unfold sample_reply_queued. rewrite Hrun. exact Hl1.
  - repeat constructor; unfold is_byte; lia.
  - discriminate.
Defined.

(** ** The polled flags *)

Lemma store_USISR_flags v old :
  Z.testbit v USI_OVERFLOW_FLAG = true ->
  Z.testbit (store_USISR v old) USI_OVERFLOW_FLAG = false /\
  Z.testbit (store_USISR v old) TWI_START_COND_FLAG
    = Z.testbit old TWI_START_COND_FLAG && negb (Z.testbit v TWI_START_COND_FLAG).
Proof.
  intros H6. unfold store_USISR.
  rewrite !Z.lor_spec, !Z.land_spec, !Z.lnot_spec by (vm_compute; discriminate).
  rewrite H6.
  change (Z.testbit 0xE0 USI_OVERFLOW_FLAG) with true.
  change (Z.testbit 0x10 USI_OVERFLOW_FLAG) with false.
  change (Z.testbit 0x0F USI_OVERFLOW_FLAG) with false.
  change (Z.testbit 0xE0 TWI_START_COND_FLAG) with true.
  change (Z.testbit 0x10 TWI_START_COND_FLAG) with false.
  change (Z.testbit 0x0F TWI_START_COND_FLAG) with false.
  cbn [negb andb orb].
  rewrite !andb_false_r, !andb_true_r, !orb_false_r. split; reflexivity.
Qed.

Section UsiKept.
Variable cfg : Config.
Variable u : Usi.

Lemma usi_UsiTwiTransmitByte b : keeps (usi_is u) (UsiTwiTransmitByte cfg b).
Proof.
  intros w H. unfold UsiTwiTransmitByte.
  match goal with |- context [if ?c then _ else _] => destruct c end; exact H.
Qed.

Lemma usi_transmit_reply reply : keeps (usi_is u) (transmit_reply cfg reply).
Proof.
  induction reply as [| b reply IH]; cbn [transmit_reply].
  - apply keeps_ret.
  - apply keeps_bind; [apply usi_UsiTwiTransmitByte | intros _; exact IH].
Qed.

Lemma usi_set_flag n : keeps (usi_is u) (set_flag n).
Proof. unfold set_flag. keeps_auto. Qed.

Lemma usi_rx_drain : forall n i, keeps (usi_is u) (rx_drain cfg n i).
Proof.
  induction n as [| n IH]; intros i; cbn [rx_drain].
  - apply keeps_ret.
  - apply keeps_bind; [| intros _; apply IH].
    intros w H. unfold rx_drain_step.
    match goal with |- context [if ?c then _ else _] => destruct c end; exact H.
Qed.

Lemma usi_writpage_fill_loop cmd : forall fuel i chk,
  keeps (usi_is u) (writpage_fill_loop cfg fuel cmd i chk).
Proof.
  induction fuel as [| fuel IH]; intros i chk; cbn [writpage_fill_loop].
  - intros w H. exact H.
  - destruct (i <? MST_PACKET_SIZE cfg + 1); [| apply keeps_ret].
    apply keeps_bind; [| intros chk'; apply IH].
    unfold writpage_fill_word, boot_page_fill. keeps_auto.
Qed.

Lemma usi_Reply_WRITPAGE cmd : keeps (usi_is u) (Reply_WRITPAGE cfg cmd).
Proof.
  unfold Reply_WRITPAGE, Reply_WRITPAGE_frame.
  apply keeps_bind; [| intros reply; apply usi_transmit_reply].
  apply keeps_read. intros m.
  apply keeps_bind.
  - destruct (wrap16 (page_addr m + page_ix m) =? RESET_PAGE cfg).
    + apply keeps_bind; [destruct (AUTO_PAGE_ADDR cfg); keeps_auto | intros _].
      apply keeps_bind; [unfold boot_page_fill; keeps_auto | intros _].
      apply keeps_bind; [keeps_auto | intros _].
      apply usi_writpage_fill_loop.
    + apply usi_writpage_fill_loop.
  - intros chk. apply keeps_read. intros m'.
    match goal with |- keeps _ (if ?c then _ else _) => destruct c end.
    + apply keeps_bind; [apply usi_set_flag | intros _; apply keeps_ret].
    + apply keeps_ret.
Qed.

Lemma usi_ReceiveEvent cmd n : keeps (usi_is u) (ReceiveEvent cfg cmd n).
Proof.
  unfold ReceiveEvent.
  repeat match goal with |- keeps _ (if ?c then _ else _) => destruct c end.
  - assert (H : forall r, keeps (usi_is u) (set_flag (FL_INIT_1 cfg) ;; transmit_reply cfg r)).
    { intros r. apply keeps_bind; [apply usi_set_flag | intros _; apply usi_transmit_reply]. }
    intros w. unfold Reply_GETTMNLV. apply H.
  - apply keeps_bind; [apply usi_UsiTwiTransmitByte | intros _; apply usi_set_flag].
  - apply keeps_bind; [apply usi_UsiTwiTransmitByte | intros _; apply usi_set_flag].
  - unfold Reply_STPGADDR.
    apply keeps_bind; [keeps_auto | intros _].
    apply keeps_bind; [keeps_auto | intros _; apply usi_transmit_reply].
  - apply usi_Reply_WRITPAGE.
  - intros w.
    destruct (Reply_READFLSH_cases cfg cmd w) as [-> | [-> | [reply ->]]].
    + intros H. exact H.
    + intros H. exact H.
    + apply usi_transmit_reply.
  - apply keeps_bind; [apply usi_set_flag | intros _; apply usi_UsiTwiTransmitByte].
  - apply keeps_ret.
Qed.

End UsiKept.

(** X15.  Every call of the overflow handler that returns has cleared the
    counter overflow flag it was called for, and has left a pending start
    condition flag pending: a start condition that arrives while the handler
    runs is not lost. *)
Theorem overflow_handler_acknowledges_overflow (cfg : Config) (w : World) (r : bool) (w' : World) :
  UsiOverflowHandler cfg w = Done r w' ->
  bit_of (USISR (usi w')) USI_OVERFLOW_FLAG = false /\
  bit_of (USISR (usi w')) TWI_START_COND_FLAG = bit_of (USISR (usi w)) TWI_START_COND_FLAG.
Proof.
  intros H. unfold bit_of.
  assert (H1 : forall v old, Z.testbit v USI_OVERFLOW_FLAG = true ->
                 Z.testbit v TWI_START_COND_FLAG = false ->
                 Z.testbit (store_USISR v old) USI_OVERFLOW_FLAG = false /\
                 Z.testbit (store_USISR v old) TWI_START_COND_FLAG
                   = Z.testbit old TWI_START_COND_FLAG).
  { intros v old H6 H7. destruct (store_USISR_flags v old H6) as [Ha Hb].
    rewrite Ha, Hb, H7. cbn [negb]. rewrite andb_true_r. split; reflexivity. }
  assert (Hack : forall old, _) by exact (fun old => H1 USISR_SHIFT_1_ACK_BIT old eq_refl eq_refl).
  assert (Hdata : forall old, _) by exact (fun old => H1 USISR_SHIFT_8_DATA_BITS old eq_refl eq_refl).
  assert (Hsend : forall w0 r0 w1, send_data_byte cfg w0 = Done r0 w1 ->
            Z.testbit (USISR (usi w1)) USI_OVERFLOW_FLAG = false /\
            Z.testbit (USISR (usi w1)) TWI_START_COND_FLAG
              = Z.testbit (USISR (usi w0)) TWI_START_COND_FLAG).
  { intros w0 r0 w1 Hs. unfold send_data_byte in Hs.
    destruct (tx_pop cfg (twi w0)) as [[b t'] |]; injection Hs as _ <-.
    - apply Hdata.
    - cbn [with_usi usi set_USICR set_USISR set_USIDR set_DDR_USI USISR].
      destruct (Hdata (store_USISR USISR_SHIFT_1_ACK_BIT (USISR (usi w0)))) as [Ha Hb].
      split; [exact Ha |]. rewrite Hb. apply Hack. }
  unfold UsiOverflowHandler in H.
  destruct (device_state (twi w)).
  - match type of H with (if ?c then _ else _) = _ => destruct c end.
    + apply bind_Done in H. destruct H as (a & w1 & Hfirst & H).
      injection H as _ <-.
      assert (Hu : usi w1 = usi w).
      { match type of Hfirst with ?m w = _ =>
          assert (Hk : keeps (usi_is (usi w)) m) end.
        { match goal with |- keeps _ (if ?c then _ else _) => destruct c end.
          - apply keeps_bind; [apply usi_rx_drain | intros _].
            apply keeps_read. intros cmd.
            apply keeps_bind; [apply usi_ReceiveEvent | intros _].
            intros w0 H0. exact H0.
          - intros w0 H0. exact H0. }
        specialize (Hk w eq_refl). rewrite Hfirst in Hk. exact Hk. }
      cbn [with_usi usi set_USICR set_USISR set_USIDR set_DDR_USI USISR].
      rewrite Hu. apply Hack.
    + injection H as _ <-. apply Hdata.
  - exact (Hsend _ _ _ H).
  - injection H as _ <-. apply Hack.
  - destruct (negb (USIDR (usi w) =? 0)).
    + injection H as _ <-. apply Hdata.
    + exact (Hsend _ _ _ H).
  - injection H as _ <-. apply Hdata.
  - injection H as _ <-. apply Hack.
Qed.

Lemma overflow_handler_acknowledges_overflow_witness :
  bit_of (USISR (usi (world_of (UsiOverflowHandler sample_cfg sample_nack)))) USI_OVERFLOW_FLAG
    = false /\
  bit_of (USISR (usi (world_of (UsiOverflowHandler sample_cfg sample_nack)))) TWI_START_COND_FLAG
    = bit_of (USISR (usi sample_nack)) TWI_START_COND_FLAG.
Proof.
  apply (overflow_handler_acknowledges_overflow sample_cfg sample_nack true). reflexivity.
Defined.

Lemma store_USISR_address_counter old :
  Z.land (store_USISR USISR_SHIFT_8_ADDRESS_BITS old) 0x0F = 0.
Proof.
  unfold store_USISR.
  rewrite !Z.land_lor_distr_l, <- !Z.land_assoc.
  change (Z.land (Z.land (Z.lnot USISR_SHIFT_8_ADDRESS_BITS) 224) 15) with 0.
  change (Z.land 16 15) with 0.
  change (Z.land (Z.land USISR_SHIFT_8_ADDRESS_BITS 15) 15) with 0.
  rewrite !Z.land_0_r. reflexivity.
Qed.



(** ** The rings over a whole execution *)

Section RingBounds.
Variable cfg : Config.
Hypothesis Hrx : ring_size_ok (TWI_RX_BUFFER_SIZE cfg).
Hypothesis Htx : ring_size_ok (TWI_TX_BUFFER_SIZE cfg).

Lemma ring_next_range size i : ring_size_ok size ->
  0 <= wrap8 (Z.land (i + 1) (size - 1)) < size.
Proof.
  intros Hs. rewrite (ring_next size i Hs). apply Z.mod_pos_bound. apply Hs.
Qed.

Lemma rings_UsiTwiTransmitByte b : keeps (rings_in_bounds cfg) (UsiTwiTransmitByte cfg b).
Proof.
  intros w (H1 & H2 & H3 & H4 & H5 & H6 & H7 & H8). unfold UsiTwiTransmitByte.
  pose proof (ring_next_range _ (tx_head (twi w)) Htx) as Hh.
  unfold TWI_TX_BUFFER_MASK.
  match goal with |- context [if ?c then _ else _] => destruct c end;
    unfold rings_in_bounds;
    cbn [world_of with_twi twi set_tx_head set_tx_buffer rx_buffer tx_buffer command
         rx_head rx_tail tx_head tx_tail rx_byte_count];
    rewrite ?aset_length; repeat split; try assumption; lia.
Qed.

Lemma rings_transmit_reply reply : keeps (rings_in_bounds cfg) (transmit_reply cfg reply).
Proof.
  induction reply as [| b reply IH]; cbn [transmit_reply].
  - apply keeps_ret.
  - apply keeps_bind; [apply rings_UsiTwiTransmitByte | intros _; exact IH].
Qed.

Lemma rings_set_flag n : keeps (rings_in_bounds cfg) (set_flag n).
Proof. unfold set_flag. keeps_auto. Qed.

Lemma rings_set_state s : keeps (rings_in_bounds cfg) (set_state s).
Proof. unfold set_state. keeps_auto. Qed.

Lemma rings_usi_setup :
  keeps (rings_in_bounds cfg) SET_USI_TO_SEND_ACK /\
  keeps (rings_in_bounds cfg) SET_USI_TO_RECEIVE_ACK /\
  keeps (rings_in_bounds cfg) SET_USI_TO_WAIT_FOR_TWI_ADDRESS /\
  keeps (rings_in_bounds cfg) SET_USI_TO_SEND_BYTE /\
  keeps (rings_in_bounds cfg) SET_USI_TO_RECEIVE_BYTE.
Proof. split; [| split; [| split; [| split]]]; intros w H; exact H. Qed.

Lemma rings_rx_drain : forall n i, keeps (rings_in_bounds cfg) (rx_drain cfg n i).
Proof.
  induction n as [| n IH]; intros i; cbn [rx_drain].
  - apply keeps_ret.
  - apply keeps_bind; [| intros _; apply IH].
    intros w (H1 & H2 & H3 & H4 & H5 & H6 & H7 & H8). unfold rx_drain_step.
    assert (Hw : rx_buffer (rx_wait (twi w)) = rx_buffer (twi w) /\
                 tx_buffer (rx_wait (twi w)) = tx_buffer (twi w) /\
                 command (rx_wait (twi w)) = command (twi w) /\
                 rx_head (rx_wait (twi w)) = rx_head (twi w) /\
                 rx_tail (rx_wait (twi w)) = rx_tail (twi w) /\
                 tx_head (rx_wait (twi w)) = tx_head (twi w) /\
                 tx_tail (rx_wait (twi w)) = tx_tail (twi w) /\
                 0 <= rx_byte_count (rx_wait (twi w)) < 256).
    { unfold rx_wait. destruct (rx_byte_count (twi w) =? 0);
        cbn [set_rx_byte_count rx_buffer tx_buffer command rx_head rx_tail tx_head tx_tail
             rx_byte_count];
        repeat split; try reflexivity; apply wrap8_range. }
    destruct Hw as (W1 & W2 & W3 & W4 & W5 & W6 & W7 & W8).
    pose proof (ring_next_range _ (rx_tail (rx_wait (twi w))) Hrx) as Ht.
    unfold TWI_RX_BUFFER_MASK.
    match goal with |- context [if ?c then _ else _] => destruct c end;
      unfold rings_in_bounds;
      cbn [world_of with_twi twi set_rx_tail set_command rx_buffer tx_buffer command
           rx_head rx_tail tx_head tx_tail rx_byte_count];
      rewrite ?aset_length, ?W1, ?W2, ?W3, ?W4, ?W6, ?W7;
      repeat split; try assumption; lia.
Qed.

Lemma rings_writpage_fill_loop cmd : forall fuel i chk,
  keeps (rings_in_bounds cfg) (writpage_fill_loop cfg fuel cmd i chk).
Proof.
  induction fuel as [| fuel IH]; intros i chk; cbn [writpage_fill_loop].
  - intros w H. exact H.
  - destruct (i <? MST_PACKET_SIZE cfg + 1); [| apply keeps_ret].
    apply keeps_bind; [| intros chk'; apply IH].
    unfold writpage_fill_word, boot_page_fill. keeps_auto.
Qed.

Lemma rings_Reply_WRITPAGE cmd : keeps (rings_in_bounds cfg) (Reply_WRITPAGE cfg cmd).
Proof.
  unfold Reply_WRITPAGE, Reply_WRITPAGE_frame.
  apply keeps_bind; [| intros reply; apply rings_transmit_reply].
  apply keeps_read. intros m.
  apply keeps_bind.
  - destruct (wrap16 (page_addr m + page_ix m) =? RESET_PAGE cfg).
    + apply keeps_bind; [destruct (AUTO_PAGE_ADDR cfg); keeps_auto | intros _].
      apply keeps_bind; [unfold boot_page_fill; keeps_auto | intros _].
      apply keeps_bind; [keeps_auto | intros _].
      apply rings_writpage_fill_loop.
    + apply rings_writpage_fill_loop.
  - intros chk. apply keeps_read. intros m'.
    match goal with |- keeps _ (if ?c then _ else _) => destruct c end.
    + apply keeps_bind; [apply rings_set_flag | intros _; apply keeps_ret].
    + apply keeps_ret.
Qed.

Lemma rings_ReceiveEvent cmd n : keeps (rings_in_bounds cfg) (ReceiveEvent cfg cmd n).
Proof.
  unfold ReceiveEvent.
  repeat match goal with |- keeps _ (if ?c then _ else _) => destruct c end.
  - assert (H : forall r, keeps (rings_in_bounds cfg)
                            (set_flag (FL_INIT_1 cfg) ;; transmit_reply cfg r)).
    { intros r. apply keeps_bind; [apply rings_set_flag | intros _; apply rings_transmit_reply]. }
    intros w. unfold Reply_GETTMNLV. apply H.
  - apply keeps_bind; [apply rings_UsiTwiTransmitByte | intros _; apply rings_set_flag].
  - apply keeps_bind; [apply rings_UsiTwiTransmitByte | intros _; apply rings_set_flag].
  - unfold Reply_STPGADDR.
    apply keeps_bind; [keeps_auto | intros _].
    apply keeps_bind; [keeps_auto | intros _; apply rings_transmit_reply].
  - apply rings_Reply_WRITPAGE.
  - intros w.
    destruct (Reply_READFLSH_cases cfg cmd w) as [-> | [-> | [reply ->]]].
    + intros H. exact H.
    + intros H. exact H.
    + apply rings_transmit_reply.
  - apply keeps_bind; [apply rings_set_flag | intros _; apply rings_UsiTwiTransmitByte].
  - apply keeps_ret.
Qed.

Lemma rings_send_data_byte : keeps (rings_in_bounds cfg) (send_data_byte cfg).
Proof.
  intros w H. unfold send_data_byte, tx_pop.
  destruct (negb (tx_head (twi w) =? tx_tail (twi w))); [| exact H].
  destruct H as (H1 & H2 & H3 & H4 & H5 & H6 & H7 & H8).
  pose proof (ring_next_range _ (tx_tail (twi w)) Htx) as Ht.
  unfold rings_in_bounds, TWI_TX_BUFFER_MASK.
  cbn. repeat split; try assumption; lia.
Qed.

Lemma rings_UsiOverflowHandler : keeps (rings_in_bounds cfg) (UsiOverflowHandler cfg).
Proof.
  destruct rings_usi_setup as (Hack & Hrack & Hwait & Hsend & Hrecv).
  apply keeps_at. intros w. unfold UsiOverflowHandler.
  destruct (device_state (twi w)).
  - match goal with |- context [if ?c then _ else _] => destruct c end.
    + eexists. split; [reflexivity |].
      apply keeps_bind; [| intros _; apply keeps_bind; [exact Hack | intros _; apply keeps_ret]].
      match goal with |- keeps _ (if ?c then _ else _) => destruct c end.
      * apply keeps_bind; [apply rings_rx_drain | intros _].
        apply keeps_read. intros cmd.
        apply keeps_bind; [apply rings_ReceiveEvent | intros _; apply rings_set_state].
      * apply rings_set_state.
    + eexists. split; [reflexivity |]. intros w0 H. exact H.
  - exists (send_data_byte cfg). split; [reflexivity | apply rings_send_data_byte].
  - eexists. split; [reflexivity |]. intros w0 H. exact H.
  - match goal with |- context [if ?c then _ else _] => destruct c end.
    + eexists. split; [reflexivity |]. intros w0 H. exact H.
    + exists (send_data_byte cfg). split; [reflexivity | apply rings_send_data_byte].
  - eexists. split; [reflexivity |]. intros w0 H. exact H.
  - eexists. split; [reflexivity |].
    apply keeps_bind; [| intros _; apply keeps_bind; [apply rings_set_state | intros _;
      apply keeps_bind; [exact Hack | intros _; apply keeps_ret]]].
    apply keeps_act. intros w0 (H1 & H2 & H3 & H4 & H5 & H6 & H7 & H8).
    pose proof (ring_next_range _ (rx_head (twi w0)) Hrx) as Hh.
    unfold rings_in_bounds, rx_push, TWI_RX_BUFFER_MASK.
    cbn [with_twi twi set_rx_byte_count set_rx_head set_rx_buffer rx_buffer tx_buffer command
         rx_head rx_tail tx_head tx_tail rx_byte_count].
    pose proof (wrap8_range (rx_byte_count (twi w0) + 1)) as Hc.
    rewrite aset_length. repeat split; try assumption; lia.
Qed.

Lemma rings_slow_op_write_page : keeps (rings_in_bounds cfg) (slow_op_write_page cfg).
Proof.
  intros w H.
  assert (Ht : forall w0, twi (world_of (slow_op_write_page cfg w0)) = twi w0).
  { intros w0.
    assert (Hk : keeps (fun x => twi x = twi w0) (slow_op_write_page cfg)).
    { unfold slow_op_write_page. apply keeps_read. intros m.
      match goal with |- keeps _ (if ?c then _ else _) => destruct c end; [| apply keeps_ret].
      apply keeps_bind; [destruct (FORCE_ERASE_PG cfg); unfold boot_page_erase; keeps_auto | intros _].
      apply keeps_bind; [unfold boot_page_write; keeps_auto | intros _].
      apply keeps_bind; [| intros _; keeps_auto].
      destruct (AUTO_PAGE_ADDR cfg); [| apply keeps_ret].
      apply keeps_bind; [| intros _; apply keeps_bind; [| intros _; keeps_auto]].
      - destruct (page_addr m =? RESET_PAGE cfg); [| apply keeps_ret].
        unfold write_trampoline_page.
        apply keeps_bind; [| intros _; unfold boot_page_fill, boot_page_write; keeps_auto].
        generalize (even_indices (SPM_PAGESIZE cfg - 2)).
        induction l as [| i l IH]; cbn [for_each]; [apply keeps_ret |].
        apply keeps_bind; [unfold boot_page_fill; keeps_auto | intros _; exact IH].
      - match goal with |- keeps _ (if ?c then _ else _) => destruct c end; [| apply keeps_ret].
        intros w1. unfold check_trampoline_page.
        match goal with |- context [world_of (?f w1)] =>
          assert (He : keeps (fun x => twi x = twi w0) f); [| apply He] end.
        apply keeps_bind.
        + generalize (even_indices (SPM_PAGESIZE cfg - 2)).
          induction l as [| i l IH]; cbn [for_each]; [apply keeps_ret |].
          apply keeps_bind; [unfold boot_page_fill; keeps_auto | intros _; exact IH].
        + intros _. match goal with |- keeps _ (if ?c then _ else _) => destruct c end;
            [unfold set_flag; keeps_auto | apply keeps_ret]. }
    apply Hk. reflexivity. }
  unfold rings_in_bounds. rewrite Ht. exact H.
Qed.

Lemma twi_erase_loop : forall n p w, twi (world_of (erase_loop cfg n p w)) = twi w.
Proof.
  induction n as [| n IH]; intros p w; cbn [erase_loop]; [reflexivity |].
  destruct (negb (p =? RESET_PAGE cfg)); [| reflexivity].
  unfold bind, boot_page_erase, act.
  change (twi w) with (twi (emit (SpmErase (wrap16 (wrap16 (p - SPM_PAGESIZE cfg)))) w)).
  apply IH.
Qed.

Lemma rings_main_setup w : rings_in_bounds cfg (world (main_setup cfg w)).
Proof.
  destruct Hrx as [[Hr _] _]. destruct Htx as [[Ht _] _].
  unfold rings_in_bounds, main_setup. cbn.
  rewrite !repeat_length, !Z2Nat.id by lia. repeat split; lia.
Qed.

Lemma rings_step m m' :
  step cfg m m' ->
  (pc m <> AtReset -> rings_in_bounds cfg (world m)) ->
  (pc m' <> AtReset -> rings_in_bounds cfg (world m')).
Proof.
  intros Hstep Hinv.
  destruct Hstep as [m u p fuse osc | m Hpc | m reads pin Hpc | m Hpc | m Hpc].
  - exact Hinv.
  - intros _. apply rings_main_setup.
  - intros _.
    assert (Hin : rings_in_bounds cfg (world m)) by (apply Hinv; rewrite Hpc; discriminate).
    destruct (poll_start_cases reads pin m) as (w' & p' & -> & _ & [-> | ->]);
      cbn [world]; [exact Hin |].
    unfold TwiStartHandler, bind. cbn [SET_USI_SDA_AS_INPUT set_state act].
    destruct (start_wait reads pin) as [p0 |]; [| exact Hin].
    destruct (Z.land p0 (Z.shiftl 1 PIN_USI_SDA) =? 0); exact Hin.
  - intros _. assert (H : rings_in_bounds cfg (world m)) by (apply Hinv; rewrite Hpc; discriminate).
    unfold poll_overflow.
    match goal with |- context [if ?c then _ else _] => destruct c end; cbn [world]; [| exact H].
    pose proof (rings_UsiOverflowHandler (emit OverflowEnter (world m)) H) as Hk.
    destruct (UsiOverflowHandler cfg (emit OverflowEnter (world m))) as [r w' | w' | w'];
      cbn [world world_of] in *; exact Hk.
  - assert (H : rings_in_bounds cfg (world m)) by (apply Hinv; rewrite Hpc; discriminate).
    assert (Hleft : forall e w, twi w = twi (world m) ->
              rings_in_bounds cfg (emit e (restore_clock cfg w))).
    { intros e w Hw. unfold rings_in_bounds. cbn [emit twi].
      rewrite (proj1 (restore_clock_frame cfg w)), Hw. exact H. }
    unfold supervisor.
    destruct (initialized cfg (mem_pack (world m))).
    + destruct (slow_ops_enabled m); [| intros _; exact H].
      destruct (bit_of (flags (mem_pack (emit SlowOpsTaken (world m)))) (FL_EXIT_TML cfg));
        [intros _; cbn [world]; apply Hleft; reflexivity |].
      destruct (bit_of (flags (mem_pack (emit SlowOpsTaken (world m)))) (FL_DEL_FLASH cfg)).
      * assert (Hk : twi (world_of (slow_op_delete_flash cfg (emit SlowOpsTaken (world m))))
                     = twi (world m)).
        { unfold slow_op_delete_flash. rewrite twi_erase_loop. reflexivity. }
        destruct (slow_op_delete_flash cfg (emit SlowOpsTaken (world m))) as [r w' | w' | w'];
          cbn [world world_of pc] in *; intros Hne; try (contradiction Hne; reflexivity);
          unfold rings_in_bounds; rewrite Hk; exact H.
      * intros _. cbn [world]. apply rings_slow_op_write_page. exact H.
    + destruct (led_delay m =? 0); [| intros _; exact H].
      destruct (TIMEOUT_EXIT cfg); [| intros _; exact H].
      destruct (exit_delay m =? 0); intros _; [| exact H].
      cbn [world]. apply Hleft. reflexivity.
Qed.

End RingBounds.

(** X17.  The ring indices over a whole execution.  From power-on, at every
    state that [main] reaches after its setup block in which no call has so
    far stored outside an array or hung in a busy-wait, the four ring indices
    lie inside their buffers, whatever the bus master sent and whatever the
    hardware put into the registers.  Nothing is said of what follows a store
    outside [command] or [reply]. *)
Theorem ring_indices_stay_in_bounds (cfg : Config) (m : Main) :
  ring_size_ok (TWI_RX_BUFFER_SIZE cfg) ->
  ring_size_ok (TWI_TX_BUFFER_SIZE cfg) ->
  reachable cfg m ->
  pc m <> AtReset ->
  pc m <> Stopped ->
  ring_indices_ok cfg (twi (world m)).
Proof.
  intros Hrx Htx Hr Hreset _.
  assert (Hin : pc m <> AtReset -> rings_in_bounds cfg (world m)).
  { clear Hreset. induction Hr as [w s l e Hnil | m m' _ IH Hstep].
    - intros Hne. contradiction Hne. reflexivity.
    - exact (rings_step cfg Hrx Htx m m' Hstep IH). }
  destruct (Hin Hreset) as (_ & _ & _ & H4 & H5 & H6 & H7 & _).
  unfold ring_indices_ok. split; [exact H4 |]. split; [exact H5 |].
  split; [exact H6 | exact H7].
Qed.

Lemma ring_indices_stay_in_bounds_witness :
  ring_indices_ok sample_cfg (twi (world sample_after_write)).
Proof.
  apply (ring_indices_stay_in_bounds sample_cfg sample_after_write).
  - split; [simpl; lia | reflexivity].
  - split; [simpl; lia | reflexivity].
  - apply reachable_play, reachable_advance, reach_power_on. reflexivity.
  - vm_compute. discriminate.
  - vm_compute. discriminate.
Defined.

(** X18.  The setup block of [main] starts the loop with both rings empty,
    the engine waiting for an address, a zeroed record (so the bootloader is
    not initialized), the temporary page buffer cleared, the start detector
    armed and the overflow polling off; with the RC oscillator as clock
    source, [OSCCAL] has been raised by OSC_FAST and its former value
    saved. *)
Theorem main_setup_arms_engine (cfg : Config) (w : World) :
  ring_size_ok (TWI_RX_BUFFER_SIZE cfg) ->
  ring_size_ok (TWI_TX_BUFFER_SIZE cfg) ->
  let m := main_setup cfg w in
  pc m = AtStartPoll /\ slow_ops_enabled m = false /\
  rx_holds cfg (twi (world m)) [] /\ tx_holds cfg (twi (world m)) [] /\
  device_state (twi (world m)) = STATE_CHECK_RECEIVED_ADDRESS /\
  mem_pack (world m) = mkMemPack 0 0 0 0 0 /\
  initialized cfg (mem_pack (world m)) = false /\
  events (world m) = events w ++ [SpmClearBuffer] /\
  USICR (usi (world m)) = USICR_DETECT_TWI_START /\
  bit_of (USICR (usi (world m))) USI_OVERFLOW_INT = false /\
  bit_of (USISR (usi (world m))) USI_OVERFLOW_FLAG = false /\
  OSCCAL (world m)
    = (if rc_oscillator cfg w then wrap8 (OSCCAL w + OSC_FAST cfg) else OSCCAL w) /\
  (rc_oscillator cfg w = true -> factory_osccal (world m) = wrap8 (OSCCAL w)).
Proof.
  intros Hrx Htx m.
  pose proof Hrx as [[Hr _] _]. pose proof Htx as [[Ht _] _].
  assert (Htwi : twi (world m) =
            set_rx_tail 0 (set_rx_head 0 (set_rx_byte_count 0
              (set_tx_tail 0 (set_tx_head 0 (startup_twi cfg)))))) by reflexivity.
  split; [reflexivity |]. split; [reflexivity |].
  split.
  { apply (rx_holds_empty cfg Hrx); rewrite Htwi; try reflexivity.
    - cbn [set_rx_tail set_rx_head set_rx_byte_count set_tx_tail set_tx_head startup_twi rx_buffer].
      rewrite repeat_length. lia.
    - cbn [set_rx_tail rx_tail]. lia. }
  split.
  { apply (tx_holds_empty cfg Htx); rewrite Htwi; try reflexivity.
    - cbn [set_rx_tail set_rx_head set_rx_byte_count set_tx_tail set_tx_head startup_twi tx_buffer].
      rewrite repeat_length. lia.
    - cbn [set_rx_tail set_rx_head set_rx_byte_count set_tx_tail tx_tail]. lia. }
  split; [rewrite Htwi; reflexivity |]. split; [reflexivity |].
  split.
  { unfold initialized. change (mem_pack (world m)) with (mkMemPack 0 0 0 0 0).
    cbn [flags]. unfold bit_of. rewrite !Z.testbit_0_l. destruct (TWO_STEP_INIT cfg); reflexivity. }
  split; [unfold m, main_setup; cbn [world with_mem_pack emit events];
          rewrite events_UsiTwiDriverInit; cbn [with_twi events];
          rewrite events_tweak_clock; reflexivity |].
  assert (Husi : usi (world m) =
            set_USISR (store_USISR USISR_SHIFT_8_DATA_BITS (USISR (usi (tweak_clock cfg w))))
              (set_USICR (wrap8 USICR_DETECT_TWI_START)
                 (usi (world_of (UsiTwiDriverInit
                                   (with_twi (fun _ => startup_twi cfg) (tweak_clock cfg w)))))))
    by reflexivity.
  rewrite Husi. cbn [set_USISR set_USICR USICR USISR].
  split; [reflexivity |]. split; [reflexivity |].
  split.
  { destruct (store_USISR_flags USISR_SHIFT_8_DATA_BITS (USISR (usi (tweak_clock cfg w))))
      as [H6 _]; [reflexivity |].
    exact H6. }
  assert (Hosc : OSCCAL (world m) = OSCCAL (tweak_clock cfg w)) by reflexivity.
  assert (Hfac : factory_osccal (world m) = factory_osccal (tweak_clock cfg w)) by reflexivity.
  rewrite Hosc, Hfac. unfold tweak_clock.
  destruct (rc_oscillator cfg w); rewrite ?orb_true_r; cbn [orb].
  - split; [reflexivity | intros _; reflexivity].
  - split; [| discriminate].
    destruct (AUTO_CLK_TWEAK cfg); reflexivity.
Qed.

Lemma main_setup_arms_engine_witness :
  pc (main_setup sample_cfg sample_world) = AtStartPoll /\
  slow_ops_enabled (main_setup sample_cfg sample_world) = false /\
  rx_holds sample_cfg (twi (world (main_setup sample_cfg sample_world))) [] /\
  tx_holds sample_cfg (twi (world (main_setup sample_cfg sample_world))) [] /\
  device_state (twi (world (main_setup sample_cfg sample_world))) = STATE_CHECK_RECEIVED_ADDRESS /\
  mem_pack (world (main_setup sample_cfg sample_world)) = mkMemPack 0 0 0 0 0 /\
  initialized sample_cfg (mem_pack (world (main_setup sample_cfg sample_world))) = false /\
  events (world (main_setup sample_cfg sample_world)) = events sample_world ++ [SpmClearBuffer] /\
  USICR (usi (world (main_setup sample_cfg sample_world))) = USICR_DETECT_TWI_START /\
  bit_of (USICR (usi (world (main_setup sample_cfg sample_world)))) USI_OVERFLOW_INT = false /\
  bit_of (USISR (usi (world (main_setup sample_cfg sample_world)))) USI_OVERFLOW_FLAG = false /\
  OSCCAL (world (main_setup sample_cfg sample_world))
    = (if rc_oscillator sample_cfg sample_world
       then wrap8 (OSCCAL sample_world + OSC_FAST sample_cfg) else OSCCAL sample_world) /\
  (rc_oscillator sample_cfg sample_world = true ->
   factory_osccal (world (main_setup sample_cfg sample_world)) = wrap8 (OSCCAL sample_world)).
Proof.
  apply (main_setup_arms_engine sample_cfg sample_world).
  - split; [simpl; lia | reflexivity].
  - split; [simpl; lia | reflexivity].
Defined.

(** ** The stand-alone driver at the edges of its rings *)

(** X19.  The overflow handler of [nb-usitwisl-if3.h] returns [true] in the
    same single case as the one of [timonel.c]: the acknowledge bit after a
    reply byte is a NACK. *)
Theorem GoodLine_slow_ops_only_by_nack
    (rx_size tx_size addr : Z)
    (receive : Z -> GoodLine.Driver -> GoodLine.Driver)
    (request : GoodLine.Driver -> GoodLine.Driver) (d : GoodLine.Driver) :
  fst (GoodLine.UsiOverflowHandler rx_size tx_size addr receive request d) = true <->
  GoodLine.device_state d = GoodLine.STATE_CHECK_ACK_AFTER_SEND_DATA /\
  USIDR (GoodLine.regs d) <> 0.
Proof.
  unfold GoodLine.UsiOverflowHandler.
  assert (Hsend : forall d0, fst (GoodLine.send_data tx_size d0) = false).
  { intros d0. unfold GoodLine.send_data.
    destruct (GoodLine.tx_pop tx_size d0) as [[b |] d1]; reflexivity. }
  destruct (GoodLine.device_state d) eqn:Hst.
  - split; [| intros [Hc _]; discriminate].
    match goal with |- context [if ?c then _ else _] => destruct c end; cbn [fst]; discriminate.
  - rewrite Hsend. split; [discriminate | intros [Hc _]; discriminate].
  - cbn [fst]. split; [discriminate | intros [Hc _]; discriminate].
  - destruct (Z.eqb_spec (USIDR (GoodLine.regs d)) 0) as [Hz | Hnz]; cbn [negb].
    + rewrite Hsend. split; [discriminate | intros [_ Hc]; contradiction].
    + cbn [fst]. split; [intros _; split; [reflexivity | exact Hnz] | reflexivity].
  - cbn [fst]. split; [discriminate | intros [Hc _]; discriminate].
  - cbn [fst]. split; [discriminate | intros [Hc _]; discriminate].
Qed.

Lemma clear_overflow_flag_start d :
  bit_of (USISR (GoodLine.regs (GoodLine.clear_overflow_flag d))) TWI_START_COND_FLAG = false.
Proof.
  unfold GoodLine.clear_overflow_flag, GoodLine.store, GoodLine.with_regs, bit_of.
  cbn [GoodLine.regs set_USISR USISR].
  set (old := USISR (GoodLine.regs d)).
  unfold store_USISR.
  rewrite !Z.lor_spec, !Z.land_spec, !Z.lnot_spec, !Z.lor_spec by (vm_compute; discriminate).
  change (Z.testbit 0x10 TWI_START_COND_FLAG) with false.
  change (Z.testbit 0x0F TWI_START_COND_FLAG) with false.
  destruct (Z.testbit old TWI_START_COND_FLAG); cbn [negb andb orb];
    rewrite ?andb_false_r; reflexivity.
Qed.

(** X20.  Unlike the handler of [timonel.c], the handler of
    [nb-usitwisl-if3.h] ends with [USISR |= (1 << USI_OVERFLOW_FLAG)]: the
    read-modify-write stores back every flag it read, and a flag is cleared by
    writing a one to it.  Every call that reaches this statement therefore
    leaves the start condition flag cleared, also when a start condition was
    pending. *)
Theorem GoodLine_handler_drops_pending_start
    (rx_size tx_size addr : Z)
    (receive : Z -> GoodLine.Driver -> GoodLine.Driver)
    (request : GoodLine.Driver -> GoodLine.Driver) (d : GoodLine.Driver) :
  returns_early d = false ->
  bit_of (USISR (GoodLine.regs
            (snd (GoodLine.UsiOverflowHandler rx_size tx_size addr receive request d))))
         TWI_START_COND_FLAG = false.
Proof.
  unfold returns_early, GoodLine.UsiOverflowHandler.
  assert (Hsend : forall d0, (GoodLine.tx_count d0 =? 0) = false ->
            bit_of (USISR (GoodLine.regs (snd (GoodLine.send_data tx_size d0))))
                   TWI_START_COND_FLAG = false).
  { intros d0 Hc. unfold GoodLine.send_data, GoodLine.tx_pop. rewrite Hc. cbn [negb snd].
    apply clear_overflow_flag_start. }
  destruct (GoodLine.device_state d); intros He.
  - match goal with |- context [if ?c then _ else _] => destruct c end; cbn [snd];
      apply clear_overflow_flag_start.
  - apply Hsend. exact He.
  - cbn [snd]. apply clear_overflow_flag_start.
  - apply orb_false_elim in He. destruct He as [Hn Hc]. rewrite Hn. apply Hsend. exact Hc.
  - cbn [snd]. apply clear_overflow_flag_start.
  - cbn [snd]. apply clear_overflow_flag_start.
Qed.

Lemma GoodLine_handler_drops_pending_start_witness :
  bit_of (USISR (GoodLine.regs sample_pending_start)) TWI_START_COND_FLAG = true /\
  bit_of (USISR (GoodLine.regs
            (snd (GoodLine.UsiOverflowHandler 16 16 11 (fun _ d => d) (fun d => d)
                    sample_pending_start))))
         TWI_START_COND_FLAG = false.
Proof.
  split; [reflexivity |].
  apply (GoodLine_handler_drops_pending_start 16 16 11 (fun _ d => d) (fun d => d)
           sample_pending_start).
  reflexivity.
Defined.

Lemma ring_size_not_255 size : ring_size_ok size -> size <> 255.
Proof. intros [_ H] ->. vm_compute in H. discriminate. Qed.

(** X21.  A read from the empty TX ring of [nb-usitwisl-if3.h] decrements
    [tx_count] below zero: the counter is left at 255, so the driver reports
    data to transmit, and the next byte that is queued brings it back to 0:
    that byte is stored in the ring but the engine finds the ring empty again
    and does not send it. *)
Theorem GoodLine_tx_underflow_loses_next_byte (tx_size : Z) (d : GoodLine.Driver) (b : Z) :
  ring_size_ok tx_size ->
  GoodLine.tx_count d = 0 ->
  0 <= GoodLine.tx_head d < Z.of_nat (length (GoodLine.tx_buffer d)) ->
  let d1 := snd (GoodLine.tx_pop tx_size d) in
  let d2 := GoodLine.UsiTwiTransmitByte tx_size b d1 in
  fst (GoodLine.tx_pop tx_size d) = None /\
  GoodLine.tx_count d1 = 255 /\
  GoodLineStart.UsiTwiDataInTransmitBuffer d1 = true /\
  aget (GoodLine.tx_buffer d2) (GoodLine.tx_head d) = wrap8 b /\
  GoodLine.tx_count d2 = 0 /\
  fst (GoodLine.tx_pop tx_size d2) = None /\
  GoodLine.tx_count (snd (GoodLine.tx_pop tx_size d2)) = 255.
Proof.
  intros Hsize Hc Hh d1 d2.
  pose proof (ring_size_not_255 tx_size Hsize) as Hne.
  assert (Hd1 : d1 = GoodLine.set_tx_count 255 d).
  { unfold d1, GoodLine.tx_pop. rewrite Hc. reflexivity. }
  assert (Hd2 : GoodLine.tx_count d2 = 0 /\
                GoodLine.tx_buffer d2 = aset (GoodLine.tx_buffer d) (GoodLine.tx_head d) (wrap8 b)).
  { unfold d2, GoodLine.UsiTwiTransmitByte, GoodLine.tx_wait. rewrite Hd1.
    cbn [GoodLine.set_tx_count GoodLine.tx_count].
    replace (255 =? tx_size) with false by (symmetry; apply Z.eqb_neq; lia).
    split; reflexivity. }
  destruct Hd2 as [Hc2 Hb2].
  split; [unfold GoodLine.tx_pop; rewrite Hc; reflexivity |].
  split; [rewrite Hd1; reflexivity |].
  split; [rewrite Hd1; reflexivity |].
  split; [rewrite Hb2; apply aget_aset_eq; exact Hh |].
  split; [exact Hc2 |].
  unfold GoodLine.tx_pop. rewrite Hc2. split; reflexivity.
Qed.

Lemma GoodLine_tx_underflow_loses_next_byte_witness :
  fst (GoodLine.tx_pop 16 sample_driver) = None /\
  GoodLine.tx_count (snd (GoodLine.tx_pop 16 sample_driver)) = 255 /\
  GoodLineStart.UsiTwiDataInTransmitBuffer (snd (GoodLine.tx_pop 16 sample_driver)) = true /\
  aget (GoodLine.tx_buffer
          (GoodLine.UsiTwiTransmitByte 16 0x7C (snd (GoodLine.tx_pop 16 sample_driver))))
       (GoodLine.tx_head sample_driver) = wrap8 0x7C /\
  GoodLine.tx_count
    (GoodLine.UsiTwiTransmitByte 16 0x7C (snd (GoodLine.tx_pop 16 sample_driver))) = 0 /\
  fst (GoodLine.tx_pop 16
         (GoodLine.UsiTwiTransmitByte 16 0x7C (snd (GoodLine.tx_pop 16 sample_driver)))) = None /\
  GoodLine.tx_count
    (snd (GoodLine.tx_pop 16
            (GoodLine.UsiTwiTransmitByte 16 0x7C (snd (GoodLine.tx_pop 16 sample_driver)))))
    = 255.
Proof.
  apply (GoodLine_tx_underflow_loses_next_byte 16 sample_driver 0x7C).
  - split; [lia | reflexivity].
  - reflexivity.
  - simpl; lia.
Defined.

Section Overrun.
Variable size : Z.
Hypothesis Hsize : ring_size_ok size.

Lemma gl_rx_over_dequeue b l d :
  gl_rx_over size d (b :: l) ->
  exists d', GoodLine.UsiTwiReceiveByte size d = (b, d') /\ gl_rx_over size d' l /\
             GoodLine.rx_buffer d' = GoodLine.rx_buffer d /\
             GoodLine.rx_head d' = GoodLine.rx_head d.
Proof.
  intros (Hv & Hh & Hc & Hn).
  pose proof Hsize as [[Hpos _] _].
  cbn [length] in *.
  destruct (ring_view_pop _ _ _ _ _ Hv) as [Hb Hv'].
  unfold GoodLine.UsiTwiReceiveByte, GoodLine.rx_wait. rewrite Hc.
  replace (Z.of_nat (S (length l)) + 1 =? 0) with false by (symmetry; apply Z.eqb_neq; lia).
  cbn [GoodLine.set_rx_count GoodLine.rx_buffer GoodLine.rx_tail].
  unfold GoodLine.RX_MASK. rewrite ring_next by exact Hsize.
  eexists. split; [rewrite Hb; reflexivity |].
  unfold gl_rx_over.
  cbn [GoodLine.set_rx_count GoodLine.set_rx_tail
       GoodLine.rx_buffer GoodLine.rx_head GoodLine.rx_tail GoodLine.rx_count].
  split; [| split; reflexivity].
  split; [exact Hv' | split; [| split; [| lia]]].
  - rewrite Hh, mod_add_mod_l. f_equal. lia.
  - rewrite wrap8_small by lia. lia.
Qed.

Lemma gl_rx_over_dequeue_all : forall l d,
  gl_rx_over size d l ->
  exists d', GoodLine.receive_n size (length l) d = (l, d') /\ gl_rx_over size d' [] /\
             GoodLine.rx_buffer d' = GoodLine.rx_buffer d /\
             GoodLine.rx_head d' = GoodLine.rx_head d.
Proof.
  induction l as [| b l IH]; intros d H.
  - exists d. cbn [length GoodLine.receive_n]. repeat split; try reflexivity; apply H.
  - destruct (gl_rx_over_dequeue b l d H) as (d1 & Hrun1 & H1 & Hb1 & Hh1).
    destruct (IH d1 H1) as (d' & Hrun & H' & Hb' & Hh').
    exists d'. cbn [length GoodLine.receive_n]. rewrite Hrun1, Hrun.
    split; [reflexivity |]. split; [exact H' |].
    split; [rewrite Hb'; exact Hb1 | rewrite Hh'; exact Hh1].
Qed.

End Overrun.

(** X22.  An overrun of the RX ring of [nb-usitwisl-if3.h] drops the byte
    but counts it: with a full ring, the driver announces one byte more than
    the ring holds, and reading that many bytes returns the unread bytes in
    order followed by the oldest of them once more. *)
Theorem GoodLine_rx_overrun_rereads_oldest (size : Z) (d : GoodLine.Driver) (b0 : Z) (l : list Z) (b : Z) :
  ring_size_ok size ->
  gl_rx_holds size d (b0 :: l) ->
  Z.of_nat (length (b0 :: l)) = size ->
  size + 1 < 256 ->
  let d1 := GoodLine.rx_push size b d in
  GoodLine.UsiTwiAmountDataInReceiveBuffer d1 = size + 1 /\
  exists d', GoodLine.receive_n size (S (length (b0 :: l))) d1 = ((b0 :: l) ++ [b0], d').
Proof.
  intros Hsize (Hv & Hh & Hc & Hn) Hfull H256 d1.
  pose proof Hsize as [[Hpos _] _].
  assert (Hd1 : d1 = GoodLine.set_rx_count (size + 1) d).
  { unfold d1, GoodLine.rx_push. rewrite Hc, Hfull, Z.ltb_irrefl.
    rewrite wrap8_small by lia. reflexivity. }
  assert (Hover : gl_rx_over size d1 (b0 :: l)).
  { rewrite Hd1. unfold gl_rx_over.
    cbn [GoodLine.set_rx_count GoodLine.rx_buffer GoodLine.rx_head GoodLine.rx_tail GoodLine.rx_count].
    split; [exact Hv |]. split; [exact Hh |]. split; lia. }
  split; [rewrite Hd1; reflexivity |].
  destruct (gl_rx_over_dequeue_all size Hsize (b0 :: l) d1 Hover) as (d2 & Hrun & H2 & Hb2 & Hh2).
  destruct H2 as (Hv2 & Hhead2 & Hc2 & _).
  destruct Hv2 as (_ & Ht2 & _).
  cbn [length Z.of_nat] in Hhead2, Hc2.
  rewrite Z.add_0_r, Z.mod_small in Hhead2 by exact Ht2.
  assert (Htail : GoodLine.rx_tail d2 = GoodLine.rx_tail d).
  { rewrite <- Hhead2, Hh2, Hd1.
    cbn [GoodLine.set_rx_count GoodLine.rx_head]. rewrite Hh, Hfull.
    destruct Hv as (_ & Ht & _).
    rewrite <- (Z.mul_1_l size) at 1. rewrite Z.mod_add by lia. apply Z.mod_small. exact Ht. }
  destruct (ring_view_pop _ _ _ _ _ Hv) as [Hb _].
  eexists.
  assert (Hsplit : forall n dd ll dd', GoodLine.receive_n size n dd = (ll, dd') ->
            GoodLine.receive_n size (S n) dd =
            (ll ++ [fst (GoodLine.UsiTwiReceiveByte size dd')],
             snd (GoodLine.UsiTwiReceiveByte size dd'))).
  { induction n as [| n IH]; intros dd ll dd' Hr.
    - cbn [GoodLine.receive_n] in Hr. injection Hr as <- <-.
      cbn [GoodLine.receive_n]. destruct (GoodLine.UsiTwiReceiveByte size dd). reflexivity.
    - cbn [GoodLine.receive_n] in Hr.
      change (GoodLine.receive_n size (S (S n)) dd) with
        (let (x, dx) := GoodLine.UsiTwiReceiveByte size dd in
         let (lx, dy) := GoodLine.receive_n size (S n) dx in (x :: lx, dy)).
      destruct (GoodLine.UsiTwiReceiveByte size dd) as [x dx].
      destruct (GoodLine.receive_n size n dx) as [lx dy] eqn:Hn'.
      injection Hr as <- <-.
      rewrite (IH dx lx dy Hn'). reflexivity. }
  rewrite (Hsplit _ _ _ _ Hrun). f_equal. f_equal. f_equal.
  unfold GoodLine.UsiTwiReceiveByte, GoodLine.rx_wait. rewrite Hc2.
  cbn [Z.eqb Z.add GoodLine.set_rx_count GoodLine.rx_buffer GoodLine.rx_tail fst].
  rewrite Htail, Hb2, Hd1. exact Hb.
Qed.

Lemma GoodLine_rx_overrun_rereads_oldest_witness :
  GoodLine.UsiTwiAmountDataInReceiveBuffer (GoodLine.rx_push 16 0xAA sample_full_driver) = 16 + 1 /\
  exists d', GoodLine.receive_n 16 (S (length sample_16_bytes))
               (GoodLine.rx_push 16 0xAA sample_full_driver)
             = (sample_16_bytes ++ [0x10], d').
Proof.
  assert (Hsize : ring_size_ok 16) by (split; [lia | reflexivity]).
  apply (GoodLine_rx_overrun_rereads_oldest 16 sample_full_driver 0x10
           (map (fun k => 0x10 + Z.of_nat k) (seq 1 15)) 0xAA).
  - exact Hsize.
  - apply (gl_rx_enqueue_all 16 Hsize sample_16_bytes (GoodLine.empty_driver 16 16) []).
    + split; [| split; [| split]]; [| reflexivity | reflexivity | simpl; lia].
      apply ring_view_empty; [reflexivity | simpl; lia].
    + simpl; lia.
    + simpl; lia.
  - reflexivity.
  - lia.
Defined.

Lemma gl_holds_regs size f d :
  (gl_rx_holds size d [] -> gl_rx_holds size (GoodLine.with_regs f d) []) /\
  (gl_tx_holds size d [] -> gl_tx_holds size (GoodLine.with_regs f d) []).
Proof. split; intros H; exact H. Qed.

Lemma gl_holds_state size s0 d :
  (gl_rx_holds size d [] -> gl_rx_holds size (GoodLine.set_device_state s0 d) []) /\
  (gl_tx_holds size d [] -> gl_tx_holds size (GoodLine.set_device_state s0 d) []).
Proof. split; intros H; exact H. Qed.

(** X23.  [UsiTwiSlaveInit] empties both rings whatever they held and arms
    the start detector, but leaves the engine state as it was; it is the start
    condition handler that sends the engine to the address check.  The handler
    returns when its wait is left, with the flags and the counter cleared, the
    rings as they were and the overflow polling enabled exactly when the read
    after the wait finds SDA low; it never returns when the wait is never
    left. *)
Theorem GoodLine_init_and_start (rx_size tx_size : Z) (reads : list Z) (pin : Z)
    (d : GoodLine.Driver) :
  0 < rx_size -> 0 < tx_size ->
  Z.of_nat (length (GoodLine.rx_buffer d)) = rx_size ->
  Z.of_nat (length (GoodLine.tx_buffer d)) = tx_size ->
  let d1 := GoodLineStart.UsiTwiSlaveInit d in
  (gl_rx_holds rx_size d1 [] /\ gl_tx_holds tx_size d1 [] /\
   GoodLineStart.UsiTwiDataInTransmitBuffer d1 = false /\
   GoodLine.UsiTwiAmountDataInReceiveBuffer d1 = 0 /\
   GoodLine.device_state d1 = GoodLine.device_state d /\
   USICR (GoodLine.regs d1) = USICR_DETECT_TWI_START) /\
  (start_wait reads pin = None -> GoodLineStart.UsiStartHandler reads pin d1 = None) /\
  (forall p, start_wait reads pin = Some p ->
   exists d2,
     GoodLineStart.UsiStartHandler reads pin d1 = Some d2 /\
     gl_rx_holds rx_size d2 [] /\ gl_tx_holds tx_size d2 [] /\
     GoodLine.device_state d2 = GoodLine.STATE_CHECK_ADDRESS /\
     bit_of (USISR (GoodLine.regs d2)) TWI_START_COND_FLAG = false /\
     bit_of (USISR (GoodLine.regs d2)) USI_OVERFLOW_FLAG = false /\
     Z.land (USISR (GoodLine.regs d2)) 0x0F = 0 /\
     bit_of (USICR (GoodLine.regs d2)) USI_OVERFLOW_INT
       = (Z.land p (Z.shiftl 1 PIN_USI_SDA) =? 0)).
Proof.
  intros Hrx Htx Hlrx Hltx d1.
  assert (Hrx1 : gl_rx_holds rx_size d1 []).
  { unfold gl_rx_holds. split; [| split; [| split]]; [| reflexivity | reflexivity | simpl; lia].
    apply ring_view_empty; [exact Hlrx | simpl; lia]. }
  assert (Htx1 : gl_tx_holds tx_size d1 []).
  { unfold gl_tx_holds. split; [| split; [| split]]; [| reflexivity | reflexivity | simpl; lia].
    apply ring_view_empty; [exact Hltx | simpl; lia]. }
  split; [| split].
  - split; [exact Hrx1 |]. split; [exact Htx1 |]. repeat split; reflexivity.
  - intros Hnever. unfold GoodLineStart.UsiStartHandler. rewrite Hnever. reflexivity.
  - intros p Hleft.
    assert (Hflags : forall old,
      Z.testbit (store_USISR USISR_SHIFT_8_ADDRESS_BITS old) TWI_START_COND_FLAG = false /\
      Z.testbit (store_USISR USISR_SHIFT_8_ADDRESS_BITS old) USI_OVERFLOW_FLAG = false).
    { intros old.
      destruct (store_USISR_flags USISR_SHIFT_8_ADDRESS_BITS old) as [H6 H7]; [reflexivity |].
      change (Z.testbit USISR_SHIFT_8_ADDRESS_BITS TWI_START_COND_FLAG) with true in H7.
      cbn [negb] in H7. rewrite andb_false_r in H7. split; assumption. }
    unfold GoodLineStart.UsiStartHandler. rewrite Hleft.
    eexists. split; [reflexivity |].
    unfold GoodLineStart.SET_USI_SDA_AS_INPUT, GoodLine.store.
    unfold bit_of.
    destruct (Z.land p (Z.shiftl 1 PIN_USI_SDA) =? 0);
      (split; [apply gl_holds_regs, gl_holds_regs, gl_holds_regs, gl_holds_state; exact Hrx1 |]);
      (split; [apply gl_holds_regs, gl_holds_regs, gl_holds_regs, gl_holds_state; exact Htx1 |]);
      cbn [GoodLine.with_regs GoodLine.regs GoodLine.set_device_state GoodLine.device_state
           set_USISR set_USICR set_DDR_USI USISR USICR];
      (split; [reflexivity |]);
      (split; [apply Hflags |]); (split; [apply Hflags |]);
      (split; [apply store_USISR_address_counter | reflexivity]).
Qed.

Lemma GoodLine_init_and_start_witness :
  let d1 := GoodLineStart.UsiTwiSlaveInit sample_used_driver in
  (gl_rx_holds 16 d1 [] /\ gl_tx_holds 16 d1 [] /\
   GoodLineStart.UsiTwiDataInTransmitBuffer d1 = false /\
   GoodLine.UsiTwiAmountDataInReceiveBuffer d1 = 0 /\
   GoodLine.device_state d1 = GoodLine.device_state sample_used_driver /\
   USICR (GoodLine.regs d1) = USICR_DETECT_TWI_START) /\
  (start_wait [4; 4; 0] 0 = None -> GoodLineStart.UsiStartHandler [4; 4; 0] 0 d1 = None) /\
  (forall p, start_wait [4; 4; 0] 0 = Some p ->
   exists d2,
     GoodLineStart.UsiStartHandler [4; 4; 0] 0 d1 = Some d2 /\
     gl_rx_holds 16 d2 [] /\ gl_tx_holds 16 d2 [] /\
     GoodLine.device_state d2 = GoodLine.STATE_CHECK_ADDRESS /\
     bit_of (USISR (GoodLine.regs d2)) TWI_START_COND_FLAG = false /\
     bit_of (USISR (GoodLine.regs d2)) USI_OVERFLOW_FLAG = false /\
     Z.land (USISR (GoodLine.regs d2)) 0x0F = 0 /\
     bit_of (USICR (GoodLine.regs d2)) USI_OVERFLOW_INT
       = (Z.land p (Z.shiftl 1 PIN_USI_SDA) =? 0)).
Proof.
  apply (GoodLine_init_and_start 16 16 [4; 4; 0] 0 sample_used_driver).
  - lia.
  - lia.
  - reflexivity.
  - reflexivity.
Defined.

(** ** A page upload *)



Section Upload.
Variable cfg : Config.
Hypothesis Hpk : packet_size_ok cfg.
Hypothesis Hreset : RESET_PAGE cfg = 0.




End Upload.



(** ** A whole session on the bus *)

Lemma bind_run {A B} (m : M A) (k : A -> M B) w a w1 :
  m w = Done a w1 -> bind m k w = k a w1.
Proof. intros H. unfold bind. rewrite H. reflexivity. Qed.

Lemma TwiStartHandler_run reads pin w :
  start_wait reads pin <> None ->
  exists w1, TwiStartHandler reads pin w = Done tt w1 /\
    twi w1 = set_device_state STATE_CHECK_RECEIVED_ADDRESS (twi w) /\
    mem_pack w1 = mem_pack w /\ events w1 = events w.
Proof.
  intros Hwait. unfold TwiStartHandler, bind. cbn [SET_USI_SDA_AS_INPUT set_state act].
  destruct (start_wait reads pin) as [p |]; [| contradiction Hwait; reflexivity].
  destruct (Z.land p (Z.shiftl 1 PIN_USI_SDA) =? 0);
    (eexists; split; [reflexivity | repeat split; reflexivity]).
Qed.

Lemma tx_holds_same cfg t t' l :
  tx_buffer t' = tx_buffer t -> tx_head t' = tx_head t -> tx_tail t' = tx_tail t ->
  tx_holds cfg t l -> tx_holds cfg t' l.
Proof. intros H1 H2 H3 H. unfold tx_holds. rewrite H1, H2, H3. exact H. Qed.

Lemma rx_holds_same cfg t t' l :
  rx_buffer t' = rx_buffer t -> rx_head t' = rx_head t -> rx_tail t' = rx_tail t ->
  rx_byte_count t' = rx_byte_count t ->
  rx_holds cfg t l -> rx_holds cfg t' l.
Proof. intros H1 H2 H3 H4 H. unfold rx_holds. rewrite H1, H2, H3, H4. exact H. Qed.

Lemma write_address_step cfg address w :
  device_state (twi w) = STATE_CHECK_RECEIVED_ADDRESS ->
  write_address cfg address ->
  exists w1,
    (shifted_in address ;; UsiOverflowHandler cfg) w = Done false w1 /\
    twi w1 = set_device_state STATE_RECEIVE_DATA_BYTE (twi w) /\
    mem_pack w1 = mem_pack w /\ events w1 = events w.
Proof.
  intros Hst Haddr.
  assert (Hfilter : ((address =? 0) || (Z.shiftr address 1 =? TWI_ADDR cfg) = true)
                    /\ ((Z.land address 1 =? 0) = true)).
  { destruct Haddr as [-> | ->].
    - split.
      + apply orb_true_intro. right. apply Z.eqb_eq.
        rewrite Z.shiftr_div_pow2 by lia. change (2 ^ 1) with 2.
        rewrite Z.mul_comm. apply Z.div_mul. lia.
      + apply Z.eqb_eq. change 1 with (Z.ones 1). rewrite Z.land_ones by lia.
        change (2 ^ 1) with 2. rewrite Z.mul_comm. apply Z.mod_mul. lia.
    - split; reflexivity. }
  destruct Hfilter as [Hacc Hwr].
  eexists. split.
  - unfold bind at 1. unfold shifted_in at 1. unfold act at 1.
    unfold UsiOverflowHandler.
    cbn [with_usi twi usi set_USIDR USIDR].
    rewrite Hst, Hacc, Hwr.
    cbv beta iota delta [negb bind ret act set_state SET_USI_TO_SEND_ACK SET_USI_SDA_AS_OUTPUT
      SET_USI_TO_SHIFT_1_ACK_BIT write_USISR write_USIDR].
    reflexivity.
  - repeat split; reflexivity.
Qed.

Lemma read_address_step cfg w s :
  ring_size_ok (TWI_RX_BUFFER_SIZE cfg) ->
  device_state (twi w) = STATE_CHECK_RECEIVED_ADDRESS ->
  rx_holds cfg (twi w) s ->
  (length s <= length (command (twi w)))%nat ->
  exists w1,
    (shifted_in (2 * TWI_ADDR cfg + 1) ;; UsiOverflowHandler cfg) w
      = dispatch cfg (command (twi w1)) (Z.of_nat (length s)) w1 /\
    firstn (length s) (command (twi w1)) = s /\
    rx_holds cfg (twi w1) [] /\
    rx_frame w w1.
Proof.
  intros Hsize Hst Hl Hlen.
  set (w0 := with_usi (set_USIDR (2 * TWI_ADDR cfg + 1)) w).
  destruct (rx_dequeue_all cfg Hsize s w0 0 Hl) as (w1 & Hrun & Hempty & Hfirst);
    [cbn [Nat.add]; exact Hlen |].
  cbn [Nat.add firstn app] in Hfirst. change (Z.of_nat 0) with 0 in Hrun.
  destruct (rx_drain_frame cfg (length s) 0 w0 w1 Hrun) as (Hframe & _).
  assert (Hcount : rx_byte_count (twi w0) = Z.of_nat (length s)) by apply Hl.
  exists w1. split; [| split; [exact Hfirst | split; [exact Hempty | exact Hframe]]].
  unfold bind at 1. unfold shifted_in at 1. unfold act at 1. fold w0.
  unfold UsiOverflowHandler.
  change (device_state (twi w0)) with (device_state (twi w)).
  change (USIDR (usi w0)) with (2 * TWI_ADDR cfg + 1).
  rewrite Hst.
  assert (Hacc : (2 * TWI_ADDR cfg + 1 =? 0) || (Z.shiftr (2 * TWI_ADDR cfg + 1) 1 =? TWI_ADDR cfg) = true).
  { apply orb_true_intro. right. apply Z.eqb_eq.
    rewrite Z.shiftr_div_pow2 by lia. change (2 ^ 1) with 2.
    Z.div_mod_to_equations; lia. }
  assert (Hrd : negb (Z.land (2 * TWI_ADDR cfg + 1) 1 =? 0) = true).
  { change 1 with (Z.ones 1) at 2. rewrite Z.land_ones by lia. change (2 ^ 1) with 2.
    replace ((2 * TWI_ADDR cfg + 1) mod 2) with 1 by (Z.div_mod_to_equations; lia).
    reflexivity. }
  rewrite Hacc, Hrd, Hcount, Nat2Z.id.
  unfold dispatch. unfold bind at 1. unfold bind at 1. rewrite Hrun.
  unfold bind.
  destruct (ReceiveEvent cfg (command (twi w1)) (Z.of_nat (length s)) w1); reflexivity.
Qed.

Lemma nack_step cfg w :
  device_state (twi w) = STATE_CHECK_RECEIVED_ACK ->
  exists w1,
    (shifted_in 1 ;; UsiOverflowHandler cfg) w = Done true w1 /\
    twi w1 = twi w /\ mem_pack w1 = mem_pack w /\ events w1 = events w /\
    USICR (usi w1) = USICR_DETECT_TWI_START.
Proof.
  intros Hst. eexists. split.
  - unfold bind at 1. unfold shifted_in at 1. unfold act at 1.
    unfold UsiOverflowHandler.
    cbn [with_usi twi usi set_USIDR USIDR]. rewrite Hst.
    cbv beta iota delta [Z.eqb negb bind ret act SET_USI_TO_WAIT_FOR_TWI_ADDRESS
      SET_USI_TO_DETECT_TWI_START SET_USI_TO_SHIFT_8_DATA_BITS write_USISR write_USICR].
    reflexivity.
  - repeat split; reflexivity.
Qed.

Lemma transmit_reply_rx cfg : forall s w w',
  transmit_reply cfg s w = Done tt w' ->
  rx_buffer (twi w') = rx_buffer (twi w) /\ rx_head (twi w') = rx_head (twi w) /\
  rx_tail (twi w') = rx_tail (twi w) /\ rx_byte_count (twi w') = rx_byte_count (twi w).
Proof.
  induction s as [| b s IH]; intros w w' Hrun.
  - cbn in Hrun. injection Hrun as <-. repeat split.
  - cbn [transmit_reply] in Hrun. unfold bind in Hrun.
    destruct (UsiTwiTransmitByte cfg b w) as [[] w1 | w1 | w1] eqn:Hb; try discriminate.
    destruct (IH w1 w' Hrun) as (H1 & H2 & H3 & H4).
    unfold UsiTwiTransmitByte in Hb.
    match type of Hb with context [if ?c then _ else _] => destruct c end; [discriminate |].
    injection Hb as <-. rewrite H1, H2, H3, H4. repeat split.
Qed.

Lemma master_write_transaction_run cfg address s w :
  ring_size_ok (TWI_RX_BUFFER_SIZE cfg) ->
  device_state (twi w) = STATE_CHECK_RECEIVED_ADDRESS ->
  write_address cfg address ->
  rx_holds cfg (twi w) [] ->
  Z.of_nat (length s) <= TWI_RX_BUFFER_SIZE cfg ->
  Z.of_nat (length s) < 256 ->
  exists w',
    master_write_transaction cfg address s w = Done tt w' /\
    rx_holds cfg (twi w') s /\
    command (twi w') = command (twi w) /\
    rx_frame w w'.
Proof.
  intros Hsize Hst Haddr Hrx Hroom Hcount.
  destruct (write_address_step cfg address w Hst Haddr) as (w1 & R1 & T1 & M1 & E1).
  assert (Hrx1 : rx_holds cfg (twi w1) []).
  { apply (rx_holds_same cfg (twi w)); [rewrite T1; reflexivity .. | exact Hrx]. }
  destruct (master_writes_run cfg s w1 [] Hsize) as (w2 & R2 & _ & Hrx2 & C2 & F2);
    [rewrite T1; reflexivity | exact Hrx1 | cbn [length]; lia | cbn [length]; lia |].
  exists w2. split; [| split; [exact Hrx2 | split]].
  - unfold master_write_transaction.
    unfold bind, shifted_in, act in R1 |- *. rewrite R1. exact R2.
  - rewrite C2, T1. reflexivity.
  - destruct F2 as (F1 & F2 & F3 & F4 & F5).
    unfold rx_frame. rewrite F1, F2, F3, F4, F5, T1, M1, E1. repeat split.
Qed.

(** X26.  A whole identification session: after a start condition, the write
    of the one-byte frame GETTMNLV, a repeated start and the read address,
    the master reads twelve bytes that begin with the acknowledge and carry
    the start address of the bootloader in bytes 6 and 7; on the closing NACK
    the handler returns true, both rings are empty again, the first
    initialisation flag is set, the engine waits for a start condition and no
    flash operation has happened.  The two start handlers are taken to leave
    their wait, whatever they read from the port before and after it. *)
Theorem identification_session (cfg : Config) (reads1 : list Z) (pin1 : Z)
    (reads2 : list Z) (pin2 : Z) (w : World) :
  start_wait reads1 pin1 <> None ->
  start_wait reads2 pin2 <> None ->
  ring_size_ok (TWI_RX_BUFFER_SIZE cfg) ->
  ring_size_ok (TWI_TX_BUFFER_SIZE cfg) ->
  12 < TWI_TX_BUFFER_SIZE cfg ->
  0 <= TIMONEL_START cfg < 65536 ->
  0 <= FL_INIT_1 cfg < 8 ->
  rx_holds cfg (twi w) [] ->
  tx_holds cfg (twi w) [] ->
  (1 <= length (command (twi w)))%nat ->
  exists reply w',
    identify_session cfg reads1 pin1 reads2 pin2 w = Done (reply, true) w' /\
    length reply = 12%nat /\
    aget reply 0 = wrap8 (ACKTMNLV cfg) /\
    256 * aget reply 6 + aget reply 7 = TIMONEL_START cfg /\
    bit_of (flags (mem_pack w')) (FL_INIT_1 cfg) = true /\
    rx_holds cfg (twi w') [] /\
    tx_holds cfg (twi w') [] /\
    USICR (usi w') = USICR_DETECT_TWI_START /\
    events w' = events w.
Proof.
  intros Hw1 Hw2 HsR HsT Htx12 Hts Hfl Hrx Htx Hcmd.
  (* the start condition *)
  destruct (TwiStartHandler_run reads1 pin1 w Hw1) as (w1 & R1 & T1 & M1 & E1).
  (* the write of the frame *)
  destruct (master_write_transaction_run cfg (2 * TWI_ADDR cfg) [GETTMNLV cfg] w1 HsR)
    as (w2 & R2 & Hrx2 & C2 & F2);
    [rewrite T1; reflexivity | left; reflexivity
    | apply (rx_holds_same cfg (twi w)); [rewrite T1; reflexivity .. | exact Hrx]
    | cbn [length]; destruct HsR as [[? _] _]; lia | cbn [length]; lia |].
  destruct F2 as (F2a & F2b & F2c & F2m & F2e).
  (* the repeated start *)
  destruct (TwiStartHandler_run reads2 pin2 w2 Hw2) as (w3 & R3 & T3 & M3 & E3).
  (* the read address *)
  destruct (read_address_step cfg w3 [GETTMNLV cfg] HsR) as (w5 & R5 & Hfirst & Hrx5 & F5);
    [rewrite T3; reflexivity
    | apply (rx_holds_same cfg (twi w2)); [rewrite T3; reflexivity .. | exact Hrx2]
    | rewrite T3; cbn [length set_device_state command]; rewrite C2, T1; exact Hcmd |].
  destruct F5 as (F5a & F5b & F5c & F5m & F5e).
  cbn [length] in Hfirst, R5. change (Z.of_nat 1) with 1 in R5.
  assert (Hop : aget (command (twi w5)) 0 = GETTMNLV cfg).
  { destruct (command (twi w5)) as [| c cs]; [discriminate |].
    cbn [firstn] in Hfirst. injection Hfirst as ->. reflexivity. }
  (* the reply is queued *)
  set (w5f := with_mem_pack (fun m => set_flags (wrap8 (Z.lor (flags m) (Z.shiftl 1 (FL_INIT_1 cfg)))) m) w5).
  set (reply := [ wrap8 (ACKTMNLV cfg); wrap8 (ID_CHAR_3 cfg); wrap8 TIMONEL_VER_MJR; wrap8 TIMONEL_VER_MNR;
      wrap8 (TML_FEATURES cfg); wrap8 (TML_EXT_FEATURES cfg);
      wrap8 (Z.shiftr (Z.land (TIMONEL_START cfg) 0xFF00) 8);
      wrap8 (Z.land (TIMONEL_START cfg) 0xFF);
      wrap8 (pgm w5 (TIMONEL_START cfg - 1)); wrap8 (pgm w5 (TIMONEL_START cfg - 1 - 1));
      wrap8 (low_fuse w5); wrap8 (OSCCAL w5) ]).
  assert (Hev : ReceiveEvent cfg (command (twi w5)) 1 w5 = transmit_reply cfg reply w5f).
  { unfold ReceiveEvent. rewrite Hop, Z.eqb_refl. reflexivity. }
  assert (Htx5 : tx_holds cfg (twi w5f) []).
  { apply (tx_holds_same cfg (twi w)); [| | | exact Htx].
    - change (twi w5f) with (twi w5). rewrite F5a, T3. cbn [set_device_state tx_buffer].
      rewrite F2a, T1. reflexivity.
    - change (twi w5f) with (twi w5). rewrite F5b, T3. cbn [set_device_state tx_head].
      rewrite F2b, T1. reflexivity.
    - change (twi w5f) with (twi w5). rewrite F5c, T3. cbn [set_device_state tx_tail].
      rewrite F2c, T1. reflexivity. }
  destruct (tx_enqueue_all cfg HsT reply w5f [] Htx5) as (w6 & R6 & Htx6);
    [cbn [length reply]; lia |].
  destruct (transmit_reply_frame cfg _ _ _ R6) as (M6 & E6 & _).
  destruct (transmit_reply_rx cfg _ _ _ R6) as (X6a & X6b & X6c & X6d).
  assert (Hbytes : all_bytes reply).
  { unfold reply. repeat constructor; apply wrap8_range. }
  cbn [app] in Htx6. rewrite (map_wrap8_bytes reply Hbytes) in Htx6.
  assert (Hdisp : exists w7,
    dispatch cfg (command (twi w5)) 1 w5 = Done false w7 /\
    twi w7 = set_device_state STATE_SEND_DATA_BYTE (twi w6) /\
    mem_pack w7 = mem_pack w6 /\ events w7 = events w6).
  { eexists. split.
    - unfold dispatch. unfold bind at 1. rewrite Hev, R6.
      cbv beta iota delta [bind ret act set_state SET_USI_TO_SEND_ACK SET_USI_SDA_AS_OUTPUT
        SET_USI_TO_SHIFT_1_ACK_BIT write_USISR write_USIDR].
      reflexivity.
    - repeat split; reflexivity. }
  destruct Hdisp as (w7 & R7 & T7 & M7 & E7).
  (* the master clocks the reply out *)
  destruct (read_bytes_run cfg HsT reply w7 []) as (w8 & R8 & _ & Hack & Htx8 & F8);
    [left; rewrite T7; reflexivity
    | rewrite app_nil_r; apply (tx_holds_same cfg (twi w6)); [rewrite T7; reflexivity .. | exact Htx6]
    | exact Hbytes |].
  destruct F8 as (F8a & F8b & F8c & F8d & _ & F8m & F8e).
  destruct (nack_step cfg w8) as (w9 & R9 & T9 & M9 & E9 & U9);
    [apply Hack; discriminate |].
  exists reply, w9.
  split; [| split; [reflexivity | split; [reflexivity | split; [| split; [| split; [| split; [| split]]]]]]].
  - unfold identify_session.
    rewrite (bind_run _ _ _ _ _ R1). rewrite (bind_run _ _ _ _ _ R2).
    rewrite (bind_run _ _ _ _ _ R3).
    unfold bind, shifted_in, act in R5, R9 |- *.
    rewrite R5, R7.
    change (length reply) with 12%nat in R8.
    unfold master_reads. unfold bind, shifted_in, act. rewrite R8, R9. reflexivity.
  - apply start_address_bytes. exact Hts.
  - rewrite M9, F8m, M7, M6. apply testbit_set_flag. exact Hfl.
  - apply (rx_holds_same cfg (twi w5)); [| | | | exact Hrx5].
    + rewrite T9, F8a, T7. cbn [set_device_state rx_buffer]. exact X6a.
    + rewrite T9, F8b, T7. cbn [set_device_state rx_head]. exact X6b.
    + rewrite T9, F8c, T7. cbn [set_device_state rx_tail]. exact X6c.
    + rewrite T9, F8d, T7. cbn [set_device_state rx_byte_count]. exact X6d.
  - rewrite T9. exact Htx8.
  - exact U9.
  - rewrite E9, F8e, E7, E6. change (events w5f) with (events w5).
    rewrite F5e, E3, F2e, E1. reflexivity.
Qed.

Lemma identification_session_witness :
  exists reply w',
    identify_session sample_cfg [4; 4; 0] 0 [] 0 sample_world = Done (reply, true) w' /\
    length reply = 12%nat /\
    aget reply 0 = wrap8 0x7D /\
    256 * aget reply 6 + aget reply 7 = 0x1A00 /\
    bit_of (flags (mem_pack w')) 0 = true /\
    rx_holds sample_cfg (twi w') [] /\
    tx_holds sample_cfg (twi w') [] /\
    USICR (usi w') = USICR_DETECT_TWI_START /\
    events w' = [].
Proof.
  assert (Hsize : ring_size_ok 16) by (split; [lia | reflexivity]).
  apply (identification_session sample_cfg [4; 4; 0] 0 [] 0 sample_world).
  - vm_compute. discriminate.
  - vm_compute. discriminate.
  - exact Hsize.
  - exact Hsize.
  - simpl; lia.
  - simpl; lia.
  - simpl; lia.
  - apply (rx_holds_empty sample_cfg Hsize); [reflexivity | simpl; lia | reflexivity | reflexivity].
  - apply (tx_holds_empty sample_cfg Hsize); [reflexivity | simpl; lia | reflexivity].
  - simpl; lia.
Defined.
